(** * Tour-operator website analyzer: signal extraction, prospect
      classification and the phased batch scheduler

    A shallow embedding of [continuous_analyzer.py]
    (class [ContinuousTourOperatorAnalyzer]) and the properties its design
    document states about it.

    Conventions of the embedding
    - A Python [str] is a [string] of 8-bit characters; [lower], [strip] and
      the case-insensitive regex flag act on the ASCII range.
    - A pandas cell is a [Cell]; a missing value ([pd.NA], [NaN]) is the
      absence of the key in the row's map.
    - The headless browser, the network and the clock are an explicit
      environment ([Site], [World]); an exception raised by a browser call is
      a [None] (or a [false] flag) in that environment.
    - The order in which Python enumerates a [set] is left open: it is the
      parameter [set_iter] of everything that iterates over a set. *)

From Stdlib Require Import String Ascii List Arith Lia Bool.
From stdpp Require Import gmap strings list fin_maps pretty.

(* ===================================================================== *)
(** ** Python string operations *)
(* ===================================================================== *)

Module PyStr.

(** The character [chr(34)], written by code because it delimits literals. *)
Definition dquote : ascii := "034"%char.
Definition squote : ascii := "039"%char.
Definition newline : ascii := "010"%char.

(** [c.lower()] on one ASCII character. *)
Definition lower_ascii (c : ascii) : ascii :=
  let n := nat_of_ascii c in
  if (65 <=? n) && (n <=? 90) then ascii_of_nat (n + 32) else c.

(** [s.lower()] *)
Fixpoint lower (s : string) : string :=
  match s with
  | EmptyString => EmptyString
  | String c s' => String (lower_ascii c) (lower s')
  end.

(** [s.startswith(p)] *)
Fixpoint startswith (s p : string) {struct p} : bool :=
  match p with
  | EmptyString => true
  | String c p' =>
      match s with
      | EmptyString => false
      | String d s' => Ascii.eqb c d && startswith s' p'
      end
  end.

(** [p in s]: [p] occurs in [s] at some offset. *)
Fixpoint str_in (p s : string) : bool :=
  startswith s p ||
  match s with
  | EmptyString => false
  | String _ s' => str_in p s'
  end.

(** [any(p in s for p in ps)] *)
Definition any_in (ps : list string) (s : string) : bool :=
  existsb (fun p => str_in p s) ps.

(** Characters removed by [str.strip()] in the ASCII range. *)
Definition is_space (c : ascii) : bool :=
  let n := nat_of_ascii c in
  ((9 <=? n) && (n <=? 13)) || ((28 <=? n) && (n <=? 32)).

Fixpoint lstrip (s : string) : string :=
  match s with
  | EmptyString => EmptyString
  | String c s' => if is_space c then lstrip s' else s
  end.

(** Drop the trailing characters that satisfy [f]. *)
Fixpoint rstrip_by (f : ascii -> bool) (s : string) : string :=
  match s with
  | EmptyString => EmptyString
  | String c s' =>
      match rstrip_by f s' with
      | EmptyString => if f c then EmptyString else String c EmptyString
      | r => String c r
      end
  end.

(** [s.strip()] *)
Definition strip (s : string) : string := rstrip_by is_space (lstrip s).

(** [s.rstrip('/')] *)
Definition rstrip_slash (s : string) : string :=
  rstrip_by (Ascii.eqb "/"%char) s.

(** [s.find(c)] for a one-character needle, as a split: the text before
    the first [c] and the text after it, or [None] when [c] does not occur. *)
Fixpoint split_once (c : ascii) (s : string) : option (string * string) :=
  match s with
  | EmptyString => None
  | String d s' =>
      if Ascii.eqb c d then Some (EmptyString, s')
      else match split_once c s' with
           | Some (a, b) => Some (String d a, b)
           | None => None
           end
  end.

(** [s.split(c)] for a one-character separator. *)
Fixpoint split (c : ascii) (s : string) : list string :=
  match s with
  | EmptyString => [EmptyString]
  | String d s' =>
      if Ascii.eqb c d then EmptyString :: split c s'
      else match split c s' with
           | x :: xs => String d x :: xs
           | [] => [String d EmptyString]
           end
  end.

(** [sep.join(l)] *)
Definition join (sep : string) (l : list string) : string :=
  String.concat sep l.

(** The longest prefix of [s] whose characters all fail [f]. *)
Fixpoint take_until (f : ascii -> bool) (s : string) : string :=
  match s with
  | EmptyString => EmptyString
  | String c s' => if f c then EmptyString else String c (take_until f s')
  end.

Fixpoint drop_until (f : ascii -> bool) (s : string) : string :=
  match s with
  | EmptyString => EmptyString
  | String c s' => if f c then s else drop_until f s'
  end.

(** [s[n:]] *)
Fixpoint drop (n : nat) (s : string) : string :=
  match n, s with
  | 0, _ => s
  | S n', String _ s' => drop n' s'
  | S _, EmptyString => EmptyString
  end.

(** [s[:n]] *)
Fixpoint take (n : nat) (s : string) : string :=
  match n, s with
  | 0, _ => EmptyString
  | S n', String c s' => String c (take n' s')
  | S _, EmptyString => EmptyString
  end.

(** [str(n)] for a non-negative [int]. *)
Definition str_of_nat (n : nat) : string := pretty n.

(** [s[-1]] when [s] is not empty. *)
Fixpoint last_char (s : string) : option ascii :=
  match s with
  | EmptyString => None
  | String c EmptyString => Some c
  | String _ s' => last_char s'
  end.

(** Truthiness of a string and of a list. *)
Definition truthy_str (s : string) : bool :=
  match s with EmptyString => false | _ => true end.

Definition truthy_list {A} (l : list A) : bool :=
  match l with [] => false | _ => true end.

End PyStr.

(* ===================================================================== *)
(** ** The fragment of Python's [re] the analyzer uses *)
(* ===================================================================== *)

Module Re.
Import PyStr.

(** Abstract syntax of the patterns. Every pattern of the analyzer is
    compiled with [re.IGNORECASE], so literals compare modulo ASCII case. *)
Inductive re : Type :=
| Eps                       (* the empty pattern *)
| Chr (c : ascii)           (* a literal character *)
| Dot                       (* [.]: any character but a newline *)
| NotOf (cs : list ascii)   (* [[^...]] *)
| Space                     (* [\s]: the characters of [str.isspace] *)
| Cat (r1 r2 : re)
| Alt (r1 r2 : re)          (* [r1|r2], left first *)
| Star (r : re)             (* [r*], greedy *)
| Opt (r : re)              (* [r?], greedy *)
| NotAhead (r : re).        (* [(?!r)] *)

Definition eq_nocase (a b : ascii) : bool :=
  Ascii.eqb (lower_ascii a) (lower_ascii b).

Definition or_else {A} (x y : option A) : option A :=
  match x with Some _ => x | None => y end.

(** Backtracking matcher in continuation style: [matches r s k] tries the
    ways [r] can match a prefix of [s], in Python's priority order, and
    returns the first answer the continuation [k] accepts for the rest. *)
Fixpoint matches (r : re) (s : string) (k : string -> option string)
  {struct r} : option string :=
  match r with
  | Eps => k s
  | Chr c =>
      match s with
      | String a s' => if eq_nocase a c then k s' else None
      | EmptyString => None
      end
  | Dot =>
      match s with
      | String a s' => if Ascii.eqb a newline then None else k s'
      | EmptyString => None
      end
  | NotOf cs =>
      match s with
      | String a s' => if existsb (eq_nocase a) cs then None else k s'
      | EmptyString => None
      end
  | Space =>
      match s with
      | String a s' => if is_space a then k s' else None
      | EmptyString => None
      end
  | Cat r1 r2 => matches r1 s (fun s' => matches r2 s' k)
  | Alt r1 r2 => or_else (matches r1 s k) (matches r2 s k)
  | Star r' =>
      (fix star (n : nat) (s0 : string) {struct n} : option string :=
         match n with
         | 0 => k s0
         | S n' =>
             or_else
               (matches r' s0
                  (fun s1 =>
                     if String.length s1 <? String.length s0
                     then star n' s1 else None))
               (k s0)
         end) (String.length s) s
  | Opt r' => or_else (matches r' s k) (k s)
  | NotAhead r' =>
      match matches r' s Some with
      | Some _ => None
      | None => k s
      end
  end.

(** [re.match(r, s)]: the text left after the match at the start of [s]. *)
Definition match_here (r : re) (s : string) : option string :=
  matches r s Some.

(** [bool(re.search(r, s, re.IGNORECASE))] *)
Fixpoint search (r : re) (s : string) : bool :=
  match match_here r s with
  | Some _ => true
  | None =>
      match s with
      | EmptyString => false
      | String _ s' => search r s'
      end
  end.

(** [len(re.findall(r, s, re.IGNORECASE))]: the leftmost matches that do
    not overlap. [skip] is the number of characters of [s] still covered
    by the previous match. *)
Fixpoint findall_from (r : re) (skip : nat) (s : string) : nat :=
  match skip with
  | S sk =>
      match s with
      | EmptyString => 0
      | String _ s' => findall_from r sk s'
      end
  | 0 =>
      match match_here r s with
      | Some rest =>
          S (match s with
             | EmptyString => 0
             | String _ s' =>
                 findall_from r (String.length s - String.length rest - 1) s'
             end)
      | None =>
          match s with
          | EmptyString => 0
          | String _ s' => findall_from r 0 s'
          end
      end
  end.

Definition findall_count (r : re) (s : string) : nat := findall_from r 0 s.

(** A literal string, as [re.escape] produces it. *)
Fixpoint lit (s : string) : re :=
  match s with
  | EmptyString => Eps
  | String c s' => Cat (Chr c) (lit s')
  end.

(** Concatenation of a list of patterns. *)
Definition seq (rs : list re) : re := fold_right Cat Eps rs.

(** [[^c]*] *)
Definition not_star (c : ascii) : re := Star (NotOf [c]).

End Re.

(* ===================================================================== *)
(** ** [urllib.parse]: the operations the analyzer calls *)
(* ===================================================================== *)

Module Url.
Import PyStr.

(** The five components [urlsplit] returns. The [;params] part that
    [urlparse] separates from the path stays inside [path] here: [urljoin]
    puts it back unchanged, and the analyzer reads [netloc] only. *)
Record SplitResult : Type := mkSplit {
  scheme : string;
  netloc : string;
  path : string;
  query : string;
  fragment : string
}.

Definition is_alpha (c : ascii) : bool :=
  let n := nat_of_ascii c in
  ((65 <=? n) && (n <=? 90)) || ((97 <=? n) && (n <=? 122)).

Definition is_digit (c : ascii) : bool :=
  let n := nat_of_ascii c in (48 <=? n) && (n <=? 57).

(** [scheme_chars]: letters, digits and [+-.] *)
Definition is_scheme_char (c : ascii) : bool :=
  is_alpha c || is_digit c ||
  Ascii.eqb c "+"%char || Ascii.eqb c "-"%char || Ascii.eqb c "."%char.

Fixpoint all_chars (f : ascii -> bool) (s : string) : bool :=
  match s with
  | EmptyString => true
  | String c s' => f c && all_chars f s'
  end.

Definition has_char (c : ascii) (s : string) : bool :=
  negb (all_chars (fun d => negb (Ascii.eqb c d)) s).

(** The scheme of [url] and the text after its colon, when [url] starts
    with a letter and everything before the first colon is a scheme
    character. *)
Definition split_scheme (url : string) : option (string * string) :=
  match url with
  | EmptyString => None
  | String c _ =>
      if is_alpha c then
        match split_once ":"%char url with
        | Some (s, rest) =>
            if all_chars is_scheme_char s then Some (lower s, rest) else None
        | None => None
        end
      else None
  end.

Definition is_netloc_delim (c : ascii) : bool :=
  Ascii.eqb c "/"%char || Ascii.eqb c "?"%char || Ascii.eqb c "#"%char.

(** [urlsplit(url, default_scheme)]; [None] is the [ValueError] raised for
    a network location with an unbalanced square bracket. *)
Definition urlsplit (url default_scheme : string) : option SplitResult :=
  let '(sch, rest) :=
    match split_scheme url with
    | Some (s, r) => (s, r)
    | None => (default_scheme, url)
    end in
  let '(loc, rest1) :=
    if startswith rest "//"
    then (take_until is_netloc_delim (drop 2 rest),
          drop_until is_netloc_delim (drop 2 rest))
    else (EmptyString, rest) in
  if xorb (has_char "["%char loc) (has_char "]"%char loc) then None
  else
    let '(rest2, frag) :=
      match split_once "#"%char rest1 with
      | Some (a, b) => (a, b)
      | None => (rest1, EmptyString)
      end in
    let '(pth, qry) :=
      match split_once "?"%char rest2 with
      | Some (a, b) => (a, b)
      | None => (rest2, EmptyString)
      end in
    Some (mkSplit sch loc pth qry frag).

(** [urlparse(url).netloc] *)
Definition urlparse_netloc (url : string) : option string :=
  netloc <$> urlsplit url EmptyString.

Definition uses_relative : list string :=
  [""; "ftp"; "http"; "gopher"; "nntp"; "imap"; "wais"; "file"; "https";
   "shttp"; "mms"; "prospero"; "rtsp"; "rtspu"; "sftp"; "svn"; "svn+ssh";
   "ws"; "wss"]%string.

Definition uses_netloc : list string :=
  [""; "ftp"; "http"; "gopher"; "nntp"; "telnet"; "imap"; "wais"; "file";
   "mms"; "https"; "shttp"; "snews"; "prospero"; "rtsp"; "rtspu"; "rsync";
   "svn"; "svn+ssh"; "sftp"; "nfs"; "git"; "git+ssh"; "ws"; "wss"]%string.

Definition str_elem (s : string) (l : list string) : bool :=
  existsb (String.eqb s) l.

(** [urlunsplit] *)
Definition urlunsplit (r : SplitResult) : string :=
  let url := path r in
  let url :=
    if truthy_str (netloc r) ||
       (truthy_str (scheme r) && str_elem (scheme r) uses_netloc &&
        negb (startswith url "//"))
    then
      let url :=
        if truthy_str url && negb (startswith url "/")
        then "/" +:+ url else url in
      "//" +:+ netloc r +:+ url
    else url in
  let url := if truthy_str (scheme r) then scheme r +:+ ":" +:+ url else url in
  let url := if truthy_str (query r) then url +:+ "?" +:+ query r else url in
  if truthy_str (fragment r) then url +:+ "#" +:+ fragment r else url.

(** [segments[1:-1] = filter(None, segments[1:-1])] *)
Definition drop_inner_empty (segs : list string) : list string :=
  match segs with
  | [] => []
  | first :: rest =>
      match List.rev rest with
      | [] => [first]
      | last :: mid_rev =>
          first :: List.filter truthy_str (List.rev mid_rev) ++ [last]
      end
  end.

(** The loop of [urljoin] that resolves [.] and [..] segments. *)
Definition resolve_segments (segs : list string) : list string :=
  fold_left
    (fun resolved seg =>
       if String.eqb seg ".." then removelast resolved
       else if String.eqb seg "." then resolved
       else resolved ++ [seg])
    segs [].

(** [urljoin(base, url)]; [None] is a [ValueError] of [urlsplit]. *)
Definition urljoin (base url : string) : option string :=
  if negb (truthy_str base) then Some url
  else if negb (truthy_str url) then Some base
  else
    b ← urlsplit base EmptyString;
    u ← urlsplit url (scheme b);
    if negb (String.eqb (scheme u) (scheme b)) ||
       negb (str_elem (scheme u) uses_relative)
    then Some url
    else if str_elem (scheme u) uses_netloc && truthy_str (netloc u)
    then Some (urlunsplit u)
    else
      let loc := if str_elem (scheme u) uses_netloc then netloc b
                 else netloc u in
      if negb (truthy_str (path u))
      then
        Some (urlunsplit
                (mkSplit (scheme u) loc (path b)
                   (if truthy_str (query u) then query u else query b)
                   (fragment u)))
      else
        let base_parts :=
          let parts := split "/"%char (path b) in
          match List.last parts "x"%string with
          | EmptyString => parts
          | _ => removelast parts
          end in
        let segments :=
          if startswith (path u) "/" then split "/"%char (path u)
          else drop_inner_empty (base_parts ++ split "/"%char (path u)) in
        let resolved := resolve_segments segments in
        let resolved :=
          let l := List.last segments EmptyString in
          if String.eqb l "." || String.eqb l ".."
          then resolved ++ [EmptyString] else resolved in
        let joined := join "/" resolved in
        Some (urlunsplit
                (mkSplit (scheme u) loc
                   (if truthy_str joined then joined else "/"%string)
                   (query u) (fragment u))).

End Url.

(* ===================================================================== *)
(** ** The analyzer object and its signal extractor *)
(* ===================================================================== *)

Module Analyzer.
Import PyStr Re Url.

(** One of the three settings dictionaries of [__init__]. *)
Record Settings : Type := mkSettings {
  concurrency : nat;
  batch_size : nat;
  timeout : N;
  delay_between_batches : nat;
  max_pages_per_site : nat
}.

(** A provider table: an insertion-ordered [dict] from a tag to its
    keywords. *)
Definition PatternTable : Type := list (string * list string).

(** The counters of [self.stats] that the scheduler writes itself. *)
Record Stats : Type := mkStats {
  total_companies : nat;
  phase : string
}.

(** The fields of [self]. *)
Record Self : Type := mkSelf {
  aggressive_settings : Settings;
  conservative_settings : Settings;
  patient_settings : Settings;
  current_settings : Settings;
  chatbot_patterns : PatternTable;
  booking_patterns : PatternTable;
  ota_patterns : PatternTable;
  stats : Stats
}.

Definition the_chatbot_patterns : PatternTable :=
  [("intercom", ["intercom"; "widget.intercom.io"]);
   ("zendesk", ["zendesk"; "zopim"; "zdchat"]);
   ("drift", ["drift.com"; "js.driftt.com"]);
   ("tidio", ["tidio"; "code.tidio.co"]);
   ("tawk", ["tawk.to"; "embed.tawk.to"]);
   ("livechat", ["livechatinc"; "cdn.livechatinc.com"]);
   ("crisp", ["crisp.chat"; "client.crisp.chat"]);
   ("hubspot", ["hubspot"; "js.hs-analytics.net"]);
   ("freshchat", ["freshchat"; "wchat.freshchat.com"]);
   ("olark", ["olark.com"; "static.olark.com"]);
   ("smartsupp", ["smartsupp.com"]);
   ("chatlio", ["chatlio.com"]);
   ("pure_chat", ["purechat.com"]);
   ("chat_widget", ["chat-widget"; "chatwidget"; "chat_widget"]);
   ("messenger", ["messenger"; "connect.facebook.net"])]%string.

Definition the_booking_patterns : PatternTable :=
  [("fareharbor", ["fareharbor.com"; "fareharbor"; "fh-button"; "fh-widget"]);
   ("resd", ["resd.com"; "res-d.com"; "resd-booking"]);
   ("woocommerce", ["woocommerce"; "wc-"; "wp-content/plugins/woocommerce"]);
   ("shopify", ["shopify"; "cdn.shopify.com"; "shop.app"]);
   ("bookeo", ["bookeo.com"; "bookeo"]);
   ("checkfront", ["checkfront.com"; "checkfront"]);
   ("peek", ["peek.com"; "bookwithpeek"]);
   ("rezdy", ["rezdy.com"; "rezdy"]);
   ("regiondo", ["regiondo.com"; "regiondo"]);
   ("trekksoft", ["trekksoft.com"; "trekksoft"]);
   ("bokun", ["bokun.io"; "bokun.com"]);
   ("viator", ["viator.com"; "viator"]);
   ("stripe", ["stripe.com"; "js.stripe.com"]);
   ("square", ["squareup.com"; "square"]);
   ("paypal", ["paypal.com"; "paypal"]);
   ("book_now", ["book-now"; "booknow"; "reservation"]);
   ("calendar_booking", ["calendly.com"; "acuityscheduling"])]%string.

Definition the_ota_patterns : PatternTable :=
  [("getyourguide", ["getyourguide.com"; "getyourguide"]);
   ("viator", ["viator.com"; "tripadvisor"]);
   ("tripadvisor", ["tripadvisor.com"; "tripadvisor"]);
   ("expedia", ["expedia.com"; "expedia"]);
   ("airbnb", ["airbnb.com"; "airbnb"]);
   ("booking", ["booking.com"; "booking"]);
   ("klook", ["klook.com"; "klook"]);
   ("tiqets", ["tiqets.com"; "tiqets"]);
   ("headout", ["headout.com"; "headout"]);
   ("musement", ["musement.com"; "musement"]);
   ("citypass", ["citypass.com"; "citypass"]);
   ("gocity", ["gocity.com"; "smartdestinations"]);
   ("isango", ["isango.com"; "isango"]);
   ("attractiontix", ["attractiontix.com"]);
   ("veltra", ["veltra.com"; "veltra"])]%string.

(** [ContinuousTourOperatorAnalyzer.__init__(ram_gb)] *)
Definition __init__ (ram_gb : nat) : Self :=
  let aggressive :=
    if 32 <=? ram_gb then mkSettings 45 80 45000%N 30 3
    else mkSettings 20 30 45000%N 45 3 in
  let conservative :=
    if 32 <=? ram_gb then mkSettings 20 40 75000%N 60 5
    else mkSettings 10 20 75000%N 90 5 in
  {| aggressive_settings := aggressive;
     conservative_settings := conservative;
     patient_settings := mkSettings 5 10 120000%N 120 7;
     current_settings := aggressive;
     chatbot_patterns := the_chatbot_patterns;
     booking_patterns := the_booking_patterns;
     ota_patterns := the_ota_patterns;
     stats := mkStats 0 "Aggressive Processing" |}.

(** [x in l] for a list of strings. *)
Definition str_elem (s : string) (l : list string) : bool :=
  existsb (String.eqb s) l.

(** One iteration of a known-signature loop: the inner [for pattern in
    patterns] stops at the first keyword found in the content and appends
    the tag unless it is already listed. *)
Definition known_step (content : string)
  (tags : list string) (entry : string * list string) : list string :=
  if any_in (snd entry) content
  then if str_elem (fst entry) tags then tags else tags ++ [fst entry]
  else tags.

(** [for tag, patterns in table.items(): ...] *)
Definition detect_known (table : PatternTable) (content : string)
  (tags : list string) : list string :=
  fold_left (known_step content) table tags.

(** One iteration of the chatbot loop, which also raises the
    [has_chatbot] flag. *)
Definition chatbot_known_step (content : string)
  (st : bool * list string) (entry : string * list string)
  : bool * list string :=
  if any_in (snd entry) content
  then (true, if str_elem (fst entry) (snd st) then snd st
              else snd st ++ [fst entry])
  else st.

(** Whether some provider of the table has a keyword in the content. *)
Definition known_hit (table : PatternTable) (content : string) : bool :=
  existsb (fun entry => any_in (snd entry) content) table.

(** The dictionary [_detect_unknown_chatbot] returns. *)
Record ChatbotIndicators : Type := mkIndicators {
  likely_chatbot : bool;
  confidence_score : nat;
  evidence : list string
}.

(** The fifteen regular expressions of [chat_ui_indicators]. *)
Definition chat_ui_indicators : list re :=
  let attr name word :=
    seq [lit name; Chr "="; Chr dquote; not_star dquote; lit word;
         not_star dquote; Chr dquote] in
  let tag name word :=
    seq [Chr "<"; lit name; not_star ">"; lit word; not_star ">"; Chr ">"] in
  [ attr "class" "chat"; attr "class" "message";
    attr "class" "widget"; attr "class" "bubble";
    attr "id" "chat"; attr "id" "message";
    tag "div" "chat"; tag "iframe" "chat";
    seq [lit "data-"; not_star "="; lit "chat"; not_star "="; Chr "="];
    attr "aria-label" "chat";
    seq [lit "function"; not_star "{"; lit "chat"; not_star "{"; Chr "{"];
    seq [Chr "."; lit "chat"; Star Space; Chr "("];
    seq [lit "chat"; Star Space; Chr ":"];
    lit "chatbot"; lit "livechat" ]%string.

Definition chat_text_indicators : list string :=
  ["start chat"; "chat with us"; "live chat"; "chat now";
   "send message"; "type your message"; "chat support";
   "online support"; "ask us anything"; "need help?";
   "how can we help"; "chat bubble"; "minimize chat"]%string.

(** [f"chat_ui_elements ({n} found)"] *)
Definition ui_evidence (n : nat) : string :=
  "chat_ui_elements (" +:+ str_of_nat n +:+ " found)".

(** [f"chat_text: '{indicator}'"] *)
Definition text_evidence (indicator : string) : string :=
  "chat_text: " +:+ String squote (indicator +:+ String squote EmptyString).

(** The two shapes of an evidence string of the behavioral detector. *)
Definition is_behavioral_evidence (tag : string) : bool :=
  startswith tag "chat_text: " || startswith tag "chat_ui_elements (".

(** The first loop of [_detect_unknown_chatbot]: score and evidence after
    one pattern. *)
Definition ui_step (html_content : string)
  (st : nat * list string) (pattern : re) : nat * list string :=
  let n := findall_count pattern html_content in
  if 0 <? n then (fst st + n, snd st ++ [ui_evidence n]) else st.

(** The second loop: one text indicator. *)
Definition text_step (text_lower : string)
  (st : nat * list string) (indicator : string) : nat * list string :=
  if str_in indicator text_lower
  then (fst st + 2, snd st ++ [text_evidence indicator]) else st.

(** [_detect_unknown_chatbot(html_content, page_text)] *)
Definition _detect_unknown_chatbot (html_content page_text : string)
  : ChatbotIndicators :=
  let st := fold_left (ui_step html_content) chat_ui_indicators (0, []) in
  let st := fold_left (text_step (lower page_text)) chat_text_indicators st in
  {| likely_chatbot := 5 <=? fst st;
     confidence_score := fst st;
     evidence := if 5 <=? fst st then snd st else [] |}.

(** The regular expressions of [booking_form_patterns]. The fourth has no
    closing bracket in the source. *)
Definition booking_form_patterns : list re :=
  let tag name word :=
    seq [lit name; not_star ">"; lit word; not_star ">"; Chr ">"] in
  [ tag "<form" "book"; tag "<form" "reserv"; tag "<form" "ticket";
    seq [lit "input"; not_star ">"; lit "date"; not_star ">"];
    tag "select" "guest"; tag "select" "person";
    tag "input" "quantity"; tag "button" "book" ]%string.

Definition calendar_patterns : list string :=
  ["datepicker"; "calendar-widget"; "date-selector";
   "flatpickr"; "pikaday"; "datejs"; "moment.js"]%string.

Definition payment_patterns : list string :=
  ["payment-form"; "credit-card"; "card-number";
   "billing-address"; "cvv"; "expiry"]%string.

(** [sum(1 for pattern in patterns if re.search(pattern, html))] *)
Definition count_searches (patterns : list re) (html_content : string) : nat :=
  length (List.filter (fun p => search p html_content) patterns).

(** [_detect_unknown_booking_system(html_content, page_text)] *)
Definition _detect_unknown_booking_system (html_content page_text : string)
  : list string :=
  let form_matches := count_searches booking_form_patterns html_content in
  (if 3 <=? form_matches then ["custom_booking_form"%string] else []) ++
  (if any_in calendar_patterns (lower html_content)
   then ["calendar_booking_widget"%string] else []) ++
  (if any_in payment_patterns (lower html_content)
   then ["integrated_payment_system"%string] else []).

(** One of [external_booking_patterns]: [href=], a double quote,
    [https?://], the negative lookahead on [re.escape(domain)], any run of
    characters of the line, and the word. *)
Definition external_booking_pattern (domain word : string) : re :=
  seq [lit "href="; Chr dquote; lit "http"; Opt (Chr "s"); lit "://";
       NotAhead (lit domain); Star Dot; lit word].

(** [_detect_unknown_ota_integration(html_content, page_text, page_url)].
    A [ValueError] of [urlparse] is swallowed by the [try]. *)
Definition _detect_unknown_ota_integration
  (html_content page_text page_url : string) : list string :=
  match urlparse_netloc page_url with
  | Some domain =>
      let external_links :=
        list_sum
          (List.map
             (fun word =>
                findall_count (external_booking_pattern domain word)
                  html_content)
             ["book"; "reserv"; "ticket"]%string) in
      if 2 <=? external_links then ["external_booking_redirects"%string]
      else []
  | None => []
  end.

(** [_has_chat_ui_elements(html_content)] *)
Definition _has_chat_ui_elements (html_content : string) : bool :=
  any_in ["chat-widget"; "chat-bubble"; "chat-button";
          "message-input"; "chat-container"; "live-chat"]%string
    (lower html_content).

(** [_has_booking_widgets(html_content)] *)
Definition _has_booking_widgets (html_content : string) : bool :=
  any_in ["booking-widget"; "reservation-form"; "book-now";
          "date-picker"; "guest-selector"; "booking-calendar"]%string
    (lower html_content).

(** The [link_pattern] of the source: [href=], a double quote, [https?://],
    the negative lookahead on [re.escape(domain)], characters other than a
    double quote, one of [book], [reserv], [ticket], [buy], characters
    other than a double quote, and the closing double quote. *)
Definition link_pattern (domain : string) : re :=
  seq [lit "href="; Chr dquote; lit "http"; Opt (Chr "s"); lit "://";
       NotAhead (lit domain); not_star dquote;
       Alt (lit "book") (Alt (lit "reserv") (Alt (lit "ticket") (lit "buy")));
       not_star dquote; Chr dquote].

(** [_count_external_booking_links(html_content, page_url)] *)
Definition _count_external_booking_links (html_content page_url : string)
  : nat :=
  match urlparse_netloc page_url with
  | Some domain => findall_count (link_pattern domain) html_content
  | None => 0
  end.

(** A value stored in the [analysis_details] dictionary. *)
Inductive PyVal : Type :=
| VBool (b : bool)
| VInt (n : nat).

Definition truthy_val (v : option PyVal) : bool :=
  match v with
  | Some (VBool b) => b
  | Some (VInt n) => negb (n =? 0)
  | None => false
  end.

(** The dictionary a page (or a site) analysis yields. A site analysis
    also counts the pages that loaded. *)
Record Analysis : Type := mkAnalysis {
  has_chatbot : bool;
  chatbot_types : list string;
  booking_technology : list string;
  ota_dependencies : list string;
  analysis_details : gmap string PyVal;
  pages_analyzed : nat
}.

(** The [analysis_details] dictionary of a page. *)
Definition page_details (combined_content html_content page_url : string)
  : gmap string PyVal :=
  <[ "has_online_booking"%string :=
       VBool (any_in ["book online"; "book now"; "reserve now";
                      "buy tickets"; "purchase"]%string combined_content) ]>
  (<[ "has_contact_form"%string :=
       VBool (any_in ["contact form"; "contact us"; "get in touch";
                      "enquiry"]%string combined_content) ]>
  (<[ "mentions_commission"%string :=
       VBool (any_in ["commission"; "booking fee"; "service fee"]%string
                combined_content) ]>
  (<[ "has_live_chat_ui"%string := VBool (_has_chat_ui_elements html_content) ]>
  (<[ "has_booking_widgets"%string :=
       VBool (_has_booking_widgets html_content) ]>
  (<[ "external_booking_links"%string :=
       VInt (_count_external_booking_links html_content page_url) ]> ∅))))).

(** [html_lower + " " + text_lower] *)
Definition combined (html_content page_text : string) : string :=
  lower html_content +:+ " " +:+ lower page_text.

(** Steps 1 and 2 of [analyze_page_content]: the known chatbot signatures,
    then the behavioral detector, consulted only [if not
    results['has_chatbot']]. The pair is ([has_chatbot], [chatbot_types]). *)
Definition chatbot_signals (self : Self) (html_content page_text : string)
  : bool * list string :=
  let content := combined html_content page_text in
  let st :=
    fold_left (chatbot_known_step content) (chatbot_patterns self)
      (false, []) in
  if negb (fst st) then
    let chatbot_indicators := _detect_unknown_chatbot html_content page_text in
    if likely_chatbot chatbot_indicators
    then (true, snd st ++ evidence chatbot_indicators)
    else st
  else st.

(** [analyze_page_content(html_content, page_text, page_url)] *)
Definition analyze_page_content (self : Self)
  (html_content page_text page_url : string) : Analysis :=
  let content := combined html_content page_text in
  let chat := chatbot_signals self html_content page_text in
  {| has_chatbot := fst chat;
     chatbot_types := snd chat;
     booking_technology :=
       detect_known (booking_patterns self) content [] ++
       _detect_unknown_booking_system html_content page_text;
     ota_dependencies :=
       detect_known (ota_patterns self) content [] ++
       _detect_unknown_ota_integration html_content page_text page_url;
     analysis_details := page_details content html_content page_url;
     pages_analyzed := 0 |}.

End Analyzer.

(* ===================================================================== *)
(** ** The prospect classifier and the summaries written to the table *)
(* ===================================================================== *)

Module Classifier.
Import PyStr Analyzer.

(** [_generate_prospect_evaluation(analysis)] *)
Definition _generate_prospect_evaluation (analysis : Analysis) : string :=
  if negb (has_chatbot analysis) then
    if truthy_list (booking_technology analysis) ||
       truthy_val (analysis_details analysis !! "has_online_booking"%string)
    then
      if truthy_list (ota_dependencies analysis)
      then "HIGH-VALUE PROSPECT"
      else "GOOD PROSPECT"
    else "MEDIUM PROSPECT"
  else "NOT A PROSPECT".

(** The confidence expression of [process_batch]. *)
Definition analysis_confidence (analysis : Analysis) : string :=
  if 3 <=? pages_analyzed analysis then "High"
  else if 2 <=? pages_analyzed analysis then "Medium"
  else "Low".

(** [_generate_chatbot_summary(analysis)] *)
Definition _generate_chatbot_summary (analysis : Analysis) : string :=
  if has_chatbot analysis then
    if truthy_list (chatbot_types analysis)
    then "YES - " +:+ join ", " (firstn 3 (chatbot_types analysis))
    else "YES - Unknown type"
  else "NO".

Definition starts_with_any (prefixes : list string) (s : string) : bool :=
  existsb (startswith s) prefixes.

(** [_generate_booking_summary(analysis)] *)
Definition _generate_booking_summary (analysis : Analysis) : string :=
  if truthy_list (booking_technology analysis) then
    let known_platforms :=
      List.filter
        (fun tech =>
           negb (starts_with_any
                   ["custom_"; "calendar_"; "integrated_"; "dynamic_";
                    "network_"]%string tech))
        (booking_technology analysis) in
    if truthy_list known_platforms
    then join ", " (firstn 3 known_platforms)
    else "Custom system"
  else "None detected".

(** [_generate_ota_summary(analysis)] *)
Definition _generate_ota_summary (analysis : Analysis) : string :=
  if truthy_list (ota_dependencies analysis) then
    let known_otas :=
      List.filter
        (fun ota =>
           negb (starts_with_any
                   ["external_"; "ota_style_"; "availability_"]%string ota))
        (ota_dependencies analysis) in
    if truthy_list known_otas
    then join ", " (firstn 2 known_otas)
    else "External dependencies detected"
  else "None detected".

(** The four tiers, and the table of the design document read as a
    first-match rule list over the three conditions. *)
Inductive Tier : Type := HIGH_VALUE | GOOD | MEDIUM | NOT_A_PROSPECT.

Definition tier_label (t : Tier) : string :=
  match t with
  | HIGH_VALUE => "HIGH-VALUE PROSPECT"
  | GOOD => "GOOD PROSPECT"
  | MEDIUM => "MEDIUM PROSPECT"
  | NOT_A_PROSPECT => "NOT A PROSPECT"
  end.

(** "bookingTechnology non-empty OR details.hasOnlineBooking" *)
Definition booking_present (analysis : Analysis) : bool :=
  truthy_list (booking_technology analysis) ||
  truthy_val (analysis_details analysis !! "has_online_booking"%string).

(** "otaDependencies non-empty" *)
Definition ota_present (analysis : Analysis) : bool :=
  truthy_list (ota_dependencies analysis).

(** The rule list of the design document, in its priority order: each rule
    is a condition on ([hasChatbot], [bookingPresent], [otaPresent]) and
    the tier it yields. *)
Definition tier_rules : list ((bool -> bool -> bool -> bool) * Tier) :=
  [ (fun chat booking ota => negb chat && booking && ota, HIGH_VALUE);
    (fun chat booking ota => negb chat && booking, GOOD);
    (fun chat booking ota => negb chat, MEDIUM);
    (fun chat booking ota => true, NOT_A_PROSPECT) ].

(** The tiers whose rule matches, in priority order. *)
Definition matching_tiers (chat booking ota : bool) : list Tier :=
  List.map snd (List.filter (fun rule => fst rule chat booking ota) tier_rules).

(** The first matching rule. *)
Definition first_matching_tier (chat booking ota : bool) : option Tier :=
  head (matching_tiers chat booking ota).

End Classifier.

(* ===================================================================== *)
(** ** The site crawler over an explicit browser environment *)
(* ===================================================================== *)

Module Crawler.
Import PyStr Url Analyzer.

(** How Python enumerates a [set] built from a sequence of insertions:
    each element once, in an order the language leaves open. *)
Class SetOrder : Type := {
  set_iter : list string -> list string;
  set_iter_elem : forall (l : list string) (x : string),
    x ∈ set_iter l <-> x ∈ l;
  set_iter_NoDup : forall l : list string, NoDup (set_iter l)
}.

(** One admissible order: first insertion first. *)
Definition insertion_order : SetOrder :=
  {| set_iter := remove_dups;
     set_iter_elem := fun l x => elem_of_remove_dups l x;
     set_iter_NoDup := fun l => NoDup_remove_dups l |}.

(** A DOM element handle; [None] is a call that raises. *)
Record Element : Type := mkElement {
  inner_text : option string;
  is_visible : option bool
}.

(** What the page object answers after a navigation that succeeded. *)
Record PageView : Type := mkPageView {
  content : string;                       (* [page.content()] *)
  body_text : string;                     (* [document.body.innerText || ""] *)
  query_selector_all : string -> option (list Element);
  resource_entries : option (list string) (* names of the resource-timing
                                             entries; [None]: evaluate raises *)
}.

(** The [href] a navigation link answers to [get_attribute]. *)
Inductive Href : Type :=
| HrefRaises
| HrefMissing
| HrefIs (href : string).

(** The behaviour of one site during one crawl. [goto n url] is the page
    after the [n]-th navigation of the crawl, to [url]; [None] is a
    navigation (or content retrieval) that raises, such as a timeout. *)
Record Site : Type := mkSite {
  new_context : option string;     (* [Some msg]: opening the context raises *)
  goto : nat -> string -> option PageView;
  nav_links : option (list Href);  (* the menu anchors after the root visit *)
  context_close : option string;   (* [Some msg]: closing the context raises *)
  clock : string                   (* [datetime.now()] when the row is written *)
}.

(** A value or a raised exception with its message. *)
Inductive Result (A : Type) : Type :=
| Ok (a : A)
| Raise (msg : string).
Arguments Ok {A} a.
Arguments Raise {A} msg.

Definition quoted (s : string) : string :=
  String dquote (s +:+ String dquote EmptyString).

Definition chatbot_selectors : list string :=
  [ "[class*=" +:+ quoted "chat" +:+ "]:not([class*=" +:+ quoted "chart" +:+ "])";
    "[id*=" +:+ quoted "chat" +:+ "]:not([id*=" +:+ quoted "chart" +:+ "])";
    "[class*=" +:+ quoted "widget" +:+ "]";
    "[id*=" +:+ quoted "widget" +:+ "]";
    "[class*=" +:+ quoted "messenger" +:+ "]";
    "[id*=" +:+ quoted "messenger" +:+ "]" ].

Definition chat_keywords : list string :=
  ["start chat"; "chat with"; "live chat"; "support chat";
   "help chat"; "message us"; "ask question"; "need help"]%string.

(** The test inside the element loop; a raising call skips the element. *)
Definition element_hits (e : Element) : bool :=
  match inner_text e, is_visible e with
  | Some element_text, Some visible =>
      any_in chat_keywords (lower element_text) && visible
  | _, _ => false
  end.

Definition set_chatbot (a : Analysis) (flag : bool) (types : list string)
  : Analysis :=
  {| has_chatbot := flag;
     chatbot_types := types;
     booking_technology := booking_technology a;
     ota_dependencies := ota_dependencies a;
     analysis_details := analysis_details a;
     pages_analyzed := pages_analyzed a |}.

(** [_detect_dynamic_elements(page, analysis)]: the loop over the
    selectors. A raising query leaves the loop; what was already written
    to [analysis] stays. *)
Fixpoint _detect_dynamic_elements (page : PageView) (selectors : list string)
  (analysis : Analysis) : Analysis :=
  match selectors with
  | [] => analysis
  | selector :: rest =>
      match query_selector_all page selector with
      | None => analysis
      | Some elements =>
          _detect_dynamic_elements page rest
            (if existsb element_hits (firstn 3 elements)
             then set_chatbot analysis true
                    (chatbot_types analysis ++ ["dynamic_chat_widget"%string])
             else analysis)
      end
  end.

(** The dictionary [_analyze_network_requests] returns. *)
Record NetworkAnalysis : Type := mkNetwork {
  chatbot_services : list string;
  booking_services : list string;
  ota_services : list string
}.

Definition chatbot_domains : list string :=
  ["chat"; "support"; "widget"; "messenger"; "livechat"; "zendesk";
   "intercom"; "drift"; "crisp"; "tidio"; "tawk"]%string.

Definition booking_domains : list string :=
  ["booking"; "reserv"; "ticket"; "payment"; "checkout"; "stripe";
   "paypal"; "square"]%string.

(** [item.split('_')[0]] *)
Definition before_underscore (item : string) : string :=
  List.hd EmptyString (split "_"%char item).

(** One category of one request: [None] is the [ValueError] of
    [urlparse]. *)
Definition network_tag (keywords : list string) (request_url : string)
  (services : list string) : option (list string) :=
  if any_in keywords (lower request_url) then
    domain ← urlparse_netloc request_url;
    Some (if Analyzer.str_elem domain (List.map before_underscore services)
          then services
          else services ++ ["network_" +:+ domain])
  else Some services.

(** The loop of [_analyze_network_requests]; an exception ends it and
    keeps what was collected. *)
Fixpoint network_loop (requests : list string) (acc : NetworkAnalysis)
  : NetworkAnalysis :=
  match requests with
  | [] => acc
  | request_url :: rest =>
      match network_tag chatbot_domains request_url (chatbot_services acc) with
      | None => acc
      | Some chat =>
          let acc1 := mkNetwork chat (booking_services acc) (ota_services acc) in
          match network_tag booking_domains request_url (booking_services acc1) with
          | None => acc1
          | Some book =>
              network_loop rest (mkNetwork chat book (ota_services acc))
          end
      end
  end.

(** [_analyze_network_requests(page)] *)
Definition _analyze_network_requests (page : PageView) : NetworkAnalysis :=
  match resource_entries page with
  | None => mkNetwork [] [] []
  | Some entries =>
      network_loop (List.filter (str_in "http") entries) (mkNetwork [] [] [])
  end.

(** [analyze_page(page, url, timeout)]: [None] is the dictionary that
    carries an ['error'] key. *)
Definition analyze_page (self : Self) (loaded : option PageView)
  (url : string) : option Analysis :=
  page ← loaded;
  let analysis :=
    analyze_page_content self (content page) (body_text page) url in
  let analysis := _detect_dynamic_elements page chatbot_selectors analysis in
  let network_analysis := _analyze_network_requests page in
  Some {| has_chatbot :=
            if truthy_list (chatbot_services network_analysis) then true
            else has_chatbot analysis;
          chatbot_types :=
            chatbot_types analysis ++ chatbot_services network_analysis;
          booking_technology :=
            booking_technology analysis ++ booking_services network_analysis;
          ota_dependencies :=
            ota_dependencies analysis ++ ota_services network_analysis;
          analysis_details := analysis_details analysis;
          pages_analyzed := pages_analyzed analysis |}.

(** [all_results] before any page was analysed. *)
Definition no_results : Analysis :=
  {| has_chatbot := false;
     chatbot_types := [];
     booking_technology := [];
     ota_dependencies := [];
     analysis_details := ∅;
     pages_analyzed := 0 |}.

(** The update of [all_results] after the main page. *)
Definition take_main (all_results : Analysis) (main_analysis : option Analysis)
  : Analysis :=
  match main_analysis with
  | Some m =>
      {| has_chatbot := has_chatbot m;
         chatbot_types := chatbot_types all_results ++ chatbot_types m;
         booking_technology :=
           booking_technology all_results ++ booking_technology m;
         ota_dependencies := ota_dependencies all_results ++ ota_dependencies m;
         analysis_details := analysis_details m;
         pages_analyzed := pages_analyzed all_results + 1 |}
  | None => all_results
  end.

(** The update of [all_results] after an additional page. *)
Definition take_page (all_results : Analysis) (page_analysis : option Analysis)
  : Analysis :=
  match page_analysis with
  | Some p =>
      {| has_chatbot :=
           if has_chatbot p then true else has_chatbot all_results;
         chatbot_types := chatbot_types all_results ++ chatbot_types p;
         booking_technology :=
           booking_technology all_results ++ booking_technology p;
         ota_dependencies := ota_dependencies all_results ++ ota_dependencies p;
         analysis_details := analysis_details all_results;
         pages_analyzed := pages_analyzed all_results + 1 |}
  | None => all_results
  end.

Definition important_pages : list string :=
  ["/booking"; "/book"; "/tours"; "/experiences"]%string.

(** The first loop that fills [pages_to_check], over [nav_links[:5]].
    [None] is an exception, which the enclosing [try] turns into "no
    additional page". *)
Fixpoint nav_pages (url : string) (links : list Href)
  : option (list string) :=
  match links with
  | [] => Some []
  | link :: rest =>
      match link with
      | HrefRaises => None
      | HrefMissing => nav_pages url rest
      | HrefIs href =>
          if truthy_str href then
            joined ← urljoin url (strip href);
            let full_url := rstrip_slash joined in
            keep ←
              (if startswith full_url "http" then
                 a ← urlparse_netloc full_url;
                 b ← urlparse_netloc url;
                 Some (String.eqb a b)
               else Some false);
            more ← nav_pages url rest;
            Some (if keep : bool then full_url :: more else more)
          else nav_pages url rest
      end
  end.

(** The second loop, over [important_pages]. *)
Fixpoint guessed_pages (url : string) (guesses : list string)
  : option (list string) :=
  match guesses with
  | [] => Some []
  | important_page :: rest =>
      joined ← urljoin url important_page;
      more ← guessed_pages url rest;
      Some (rstrip_slash joined :: more)
  end.

(** [pages_to_check] *)
Definition pages_to_check (site : Site) (url : string) : option (list string) :=
  links ← nav_links site;
  from_nav ← nav_pages url (firstn 5 links);
  guessed ← guessed_pages url important_pages;
  Some (from_nav ++ guessed).

(** The loop over [set(pages_to_check)]. [pages_checked] also numbers the
    navigation. *)
Fixpoint visit_pages (self : Self) (site : Site) (pages : list string)
  (pages_checked : nat) (all_results : Analysis) : Analysis :=
  match pages with
  | [] => all_results
  | page_url :: rest =>
      if max_pages_per_site (current_settings self) <=? pages_checked
      then all_results
      else
        visit_pages self site rest (S pages_checked)
          (take_page all_results
             (analyze_page self (goto site pages_checked page_url) page_url))
  end.

(** The body of the [try] of [analyze_website]. *)
Definition crawl_pages `{SetOrder} (self : Self) (site : Site) (url : string)
  : Analysis :=
  let all_results :=
    take_main no_results (analyze_page self (goto site 0 url) url) in
  if 1 <? max_pages_per_site (current_settings self) then
    match pages_to_check site url with
    | Some pages => visit_pages self site (set_iter pages) 1 all_results
    | None => all_results
    end
  else all_results.

(** [analyze_website(browser, url, timeout)]. The tag sets become lists in
    the order [set_iter] gives. *)
Definition analyze_website `{SetOrder} (self : Self) (site : Site)
  (url : string) : Result Analysis :=
  match new_context site with
  | Some msg => Raise msg
  | None =>
      let all_results := crawl_pages self site url in
      match context_close site with
      | Some msg => Raise msg
      | None =>
          Ok {| has_chatbot := has_chatbot all_results;
                chatbot_types := set_iter (chatbot_types all_results);
                booking_technology :=
                  set_iter (booking_technology all_results);
                ota_dependencies := set_iter (ota_dependencies all_results);
                analysis_details := analysis_details all_results;
                pages_analyzed := pages_analyzed all_results |}
      end
  end.

End Crawler.

(* ===================================================================== *)
(** ** The table of targets, batches and the three-phase scheduler *)
(* ===================================================================== *)

Module Scheduler.
Import PyStr Analyzer Classifier Crawler.

(** A value of a pandas cell. A missing value has no cell. *)
Inductive Cell : Type :=
| CStr (s : string)
| CInt (n : nat).

(** A row: the cells by column name. *)
Abbreviation Row := (gmap string Cell).

(** The [DataFrame]: its column index and its rows under the default
    [RangeIndex] (row [i] has index [i]). *)
Record DataFrame : Type := mkDataFrame {
  columns : list string;
  rows : list Row
}.

(** [col in df.columns] *)
Definition has_column (df : DataFrame) (col : string) : bool :=
  Analyzer.str_elem col (columns df).

(** [df[col] = pd.NA] for a column that may already exist: the column is
    appended to the index when it is new; no cell is created. *)
Definition add_column (df : DataFrame) (col : string) : DataFrame :=
  if has_column df col then df
  else mkDataFrame (columns df ++ [col]) (rows df).

(** [df.loc[index, col] = value]; a new column enlarges the frame. *)
Definition set_cell (df : DataFrame) (index : nat) (col : string)
  (value : Cell) : DataFrame :=
  mkDataFrame (columns (add_column df col))
    (alter (fun row : Row => <[col := value]> row) index (rows df)).

(** [df.loc[index, col] = pd.NA] *)
Definition clear_cell (df : DataFrame) (index : nat) (col : string)
  : DataFrame :=
  mkDataFrame (columns (add_column df col))
    (alter (fun row : Row => delete col row) index (rows df)).

(** [df.loc[index, col]] *)
Definition get_cell (df : DataFrame) (index : nat) (col : string)
  : option Cell :=
  row ← rows df !! index; (row : Row) !! col.

(** [df[mask].index.tolist()] for a mask computed row by row. *)
Definition index_where (mask : Row -> bool) (df : DataFrame) : list nat :=
  List.filter
    (fun index =>
       match rows df !! index with
       | Some row => mask row
       | None => false
       end)
    (seq 0 (length (rows df))).

Definition cell_is (value : string) (c : option Cell) : bool :=
  match c with
  | Some (CStr s) => String.eqb s value
  | _ => false
  end.

Definition cell_isna (c : option Cell) : bool :=
  match c with
  | None => true
  | Some _ => false
  end.

(** [df[df['analysis_status'].isna()].index.tolist()] *)
Definition unprocessed_rows (df : DataFrame) : list nat :=
  index_where (fun row => cell_isna (row !! "analysis_status"%string)) df.

(** [df[df['analysis_status'] == status].index.tolist()] *)
Definition rows_with_status (status : string) (df : DataFrame) : list nat :=
  index_where (fun row => cell_is status (row !! "analysis_status"%string)) df.

(** [df.loc[indices, 'analysis_status'] = pd.NA] *)
Definition reset_status (df : DataFrame) (indices : list nat) : DataFrame :=
  fold_left (fun d index => clear_cell d index "analysis_status") indices df.

Definition analysis_columns : list string :=
  ["has_chatbot"; "chatbot_analysis"; "chatbot_types_detailed";
   "booking_technology_summary"; "booking_technology_detailed";
   "ota_analysis"; "ota_dependencies_detailed";
   "prospect_evaluation"; "pages_analyzed";
   "has_contact_form"; "has_online_booking"; "external_booking_links";
   "analysis_confidence"; "last_analyzed"; "analysis_status"]%string.

(** The loop that initialises the result columns on load. *)
Definition init_columns (df : DataFrame) : DataFrame :=
  fold_left add_column analysis_columns df.

Definition url_columns : list string :=
  ["Website URL"; "website url"; "url"; "domain"; "website"; "company_url";
   "site"; "Website"; "URL"; "Domain"]%string.

(** [next((col for col in url_columns if col in df.columns), None)] *)
Definition find_url_column (df : DataFrame) : option string :=
  List.find (has_column df) url_columns.

(** [str(url)] of a cell. *)
Definition cell_str (c : Cell) : string :=
  match c with
  | CStr s => s
  | CInt n => str_of_nat n
  end.

(** [not url] of a cell. *)
Definition cell_falsy (c : Cell) : bool :=
  match c with
  | CStr s => negb (truthy_str s)
  | CInt n => n =? 0
  end.

(** [clean_url(url)] *)
Definition clean_url (url : option Cell) : option string :=
  match url with
  | None => None
  | Some c =>
      if cell_falsy c then None
      else
        let url := strip (cell_str c) in
        let url :=
          if startswith url "http://" || startswith url "https://"
          then url else "https://" +:+ url in
        Some (rstrip_slash url)
  end.

(** The cleaned URL of a row when [if clean_url:] holds. *)
Definition valid_url (df : DataFrame) (url_column : string) (index : nat)
  : option string :=
  match clean_url (get_cell df index url_column) with
  | Some url => if truthy_str url then Some url else None
  | None => None
  end.

Definition yes_no (b : bool) : Cell := CStr (if b then "Yes" else "No").

(** ['; '.join(tags) if tags else 'None detected'] *)
Definition detailed (tags : list string) : Cell :=
  CStr (if truthy_list tags then join "; " tags else "None detected").

Definition detail_int (details : gmap string PyVal) (key : string) : nat :=
  match details !! key with
  | Some (VInt n) => n
  | Some (VBool b) => if b then 1 else 0
  | None => 0
  end.

(** The writes of the [try] branch of [analyze_with_semaphore]. *)
Definition write_completed (df : DataFrame) (index : nat)
  (analysis : Analysis) (now : string) : DataFrame :=
  let details := analysis_details analysis in
  fold_left (fun d cv => set_cell d index (fst cv) (snd cv))
    [ ("has_chatbot", yes_no (has_chatbot analysis));
      ("chatbot_analysis", CStr (_generate_chatbot_summary analysis));
      ("chatbot_types_detailed", detailed (chatbot_types analysis));
      ("booking_technology_summary", CStr (_generate_booking_summary analysis));
      ("booking_technology_detailed", detailed (booking_technology analysis));
      ("ota_analysis", CStr (_generate_ota_summary analysis));
      ("ota_dependencies_detailed", detailed (ota_dependencies analysis));
      ("prospect_evaluation", CStr (_generate_prospect_evaluation analysis));
      ("pages_analyzed", CInt (pages_analyzed analysis));
      ("has_contact_form",
        yes_no (truthy_val (details !! "has_contact_form"%string)));
      ("has_online_booking",
        yes_no (truthy_val (details !! "has_online_booking"%string)));
      ("external_booking_links",
        CInt (detail_int details "external_booking_links"));
      ("analysis_confidence", CStr (analysis_confidence analysis));
      ("last_analyzed", CStr now);
      ("analysis_status", CStr "COMPLETED") ]%string
    df.

(** The writes of the [except] branch. *)
Definition write_failed (df : DataFrame) (index : nat) (msg now : string)
  : DataFrame :=
  fold_left (fun d cv => set_cell d index (fst cv) (snd cv))
    [ ("has_chatbot", CStr ("Error: " +:+ take 100 msg));
      ("analysis_status", CStr "FAILED");
      ("last_analyzed", CStr now) ]%string
    df.

(** The writes for a row without a usable URL. *)
Definition write_invalid (df : DataFrame) (index : nat) : DataFrame :=
  set_cell (set_cell df index "has_chatbot" (CStr "Invalid URL"))
    index "analysis_status" (CStr "INVALID_URL").

(** The body of [analyze_with_semaphore] between acquiring and releasing
    the semaphore. *)
Definition run_task `{SetOrder} (self : Self) (site : Site)
  (df : DataFrame) (task : nat * string) : DataFrame :=
  match analyze_website self site (snd task) with
  | Ok analysis => write_completed df (fst task) analysis (clock site)
  | Raise msg => write_failed df (fst task) msg (clock site)
  end.

(** The loop of [process_batch] that builds [tasks] and marks the rows
    without a usable URL. *)
Definition dispatch_step (url_column : string)
  (st : DataFrame * list (nat * string)) (index : nat)
  : DataFrame * list (nat * string) :=
  match valid_url (fst st) url_column index with
  | Some url => (fst st, snd st ++ [(index, url)])
  | None => (write_invalid (fst st) index, snd st)
  end.

Definition dispatch (df : DataFrame) (url_column : string)
  (batch_indices : list nat) : DataFrame * list (nat * string) :=
  fold_left (dispatch_step url_column) batch_indices (df, []).

(** What the run does to the outside, in order. *)
Inductive Event : Type :=
| EvBackup (name : string)            (* [backup_progress(df, name)] *)
| EvCrawl (index : nat) (url : string) (* a task handed to [gather] *)
| EvSave                              (* [df.to_csv(output_csv)] *)
| EvSleep (seconds : nat).            (* [asyncio.sleep] between batches *)

(** [process_batch(df, batch_indices, output_csv)]. [world index] is how
    the site of row [index] behaves during this batch. The tasks write
    disjoint rows, so their writes are applied in task order. *)
Definition process_batch `{SetOrder} (self : Self) (world : nat -> Site)
  (df : DataFrame) (batch_indices : list nat) : DataFrame * list Event :=
  match find_url_column df with
  | None => (df, [])
  | Some url_column =>
      let '(df1, tasks) := dispatch df url_column batch_indices in
      let df2 :=
        fold_left (fun d task => run_task self (world (fst task)) d task)
          tasks df1 in
      (df2, List.map (fun task => EvCrawl (fst task) (snd task)) tasks ++ [EvSave])
  end.

(** The three phases; the world says how each site behaves in each. *)
Inductive Phase : Type := Aggressive | ConservativeRetry | PatientRetry.

Definition World : Type := Phase -> nat -> Site.

Definition set_phase (self : Self) (name : string) (settings : Settings)
  : Self :=
  {| aggressive_settings := aggressive_settings self;
     conservative_settings := conservative_settings self;
     patient_settings := patient_settings self;
     current_settings := settings;
     chatbot_patterns := chatbot_patterns self;
     booking_patterns := booking_patterns self;
     ota_patterns := ota_patterns self;
     stats := mkStats (total_companies (stats self)) name |}.

Definition set_total (self : Self) (total : nat) : Self :=
  {| aggressive_settings := aggressive_settings self;
     conservative_settings := conservative_settings self;
     patient_settings := patient_settings self;
     current_settings := current_settings self;
     chatbot_patterns := chatbot_patterns self;
     booking_patterns := booking_patterns self;
     ota_patterns := ota_patterns self;
     stats := mkStats total (phase (stats self)) |}.

(** [[EvSleep delay]] when rows remain. *)
Definition rest_between_batches (self : Self) (unprocessed : list nat)
  : list Event :=
  if truthy_list unprocessed
  then [EvSleep (delay_between_batches (current_settings self))]
  else [].

(** The [while unprocessed:] loop of phase 1. [fuel] bounds the number of
    batches; [None] is a loop that has not ended within it. *)
Fixpoint aggressive_loop `{SetOrder} (fuel : nat) (self : Self)
  (world : nat -> Site) (df : DataFrame) (unprocessed : list nat)
  : option (DataFrame * list Event) :=
  match unprocessed with
  | [] => Some (df, [])
  | _ :: _ =>
      match fuel with
      | 0 => None
      | S fuel' =>
          let size := batch_size (current_settings self) in
          let batch_indices := firstn size unprocessed in
          let '(df1, events) := process_batch self world df batch_indices in
          let unprocessed1 := unprocessed_rows df1 in
          let backup :=
            if length (rows_with_status "COMPLETED" df1) mod (size * 5) =? 0
            then [EvBackup "phase1_progress"] else [] in
          '(df2, later) ← aggressive_loop fuel' self world df1 unprocessed1;
          Some (df2,
                events ++ rest_between_batches self unprocessed1 ++ backup ++
                later)
      end
  end.

(** [df[(df.index.isin(pool)) & (df['analysis_status'].isna())]
     .index.tolist()] *)
Definition unprocessed_in (pool : list nat) (df : DataFrame) : list nat :=
  List.filter (fun index => existsb (Nat.eqb index) pool) (unprocessed_rows df).

(** The [while unprocessed:] loop of phases 2 and 3 over a retry pool. *)
Fixpoint retry_loop `{SetOrder} (fuel : nat) (self : Self)
  (world : nat -> Site) (pool : list nat) (df : DataFrame)
  (unprocessed : list nat) : option (DataFrame * list Event) :=
  match unprocessed with
  | [] => Some (df, [])
  | _ :: _ =>
      match fuel with
      | 0 => None
      | S fuel' =>
          let size := batch_size (current_settings self) in
          let batch_indices := firstn size unprocessed in
          let '(df1, events) := process_batch self world df batch_indices in
          let unprocessed1 := unprocessed_in pool df1 in
          '(df2, later) ← retry_loop fuel' self world pool df1 unprocessed1;
          Some (df2, events ++ rest_between_batches self unprocessed1 ++ later)
      end
  end.

(** The pool a phase boundary forms: the rows whose status is [FAILED]. *)
Definition retry_pool (df : DataFrame) : list nat :=
  rows_with_status "FAILED" df.

(** The frame after a phase boundary:
    [df.loc[failed_companies, 'analysis_status'] = pd.NA]. With an empty
    pool the source skips the assignment, which would change nothing. *)
Definition phase_reset (df : DataFrame) : DataFrame :=
  reset_status df (retry_pool df).

(** One retry phase: collect the rows whose status is [FAILED]; when there
    are any, switch the settings, reset their status and run the loop. *)
Definition retry_phase `{SetOrder} (fuel : nat) (self : Self)
  (world : nat -> Site) (name : string) (settings : Settings)
  (df : DataFrame) : option (Self * DataFrame * list Event) :=
  let failed_companies := retry_pool df in
  if truthy_list failed_companies then
    let self1 := set_phase self name settings in
    let df1 := phase_reset df in
    '(df2, events) ←
      retry_loop fuel self1 world failed_companies df1 failed_companies;
    Some (self1, df2, events)
  else Some (self, df, []).

(** [continuous_process(input_csv, output_csv)] on the frame read from
    [input_csv]. The result is the analyzer, the frame and the trace when
    the final report is reached. *)
Definition continuous_process `{SetOrder} (fuel : nat) (self : Self)
  (world : World) (input : DataFrame)
  : option (Self * DataFrame * list Event) :=
  let self := set_total self (length (rows input)) in
  let df := init_columns input in
  let self := set_phase self "Aggressive Processing" (aggressive_settings self) in
  '(df1, events1) ←
    aggressive_loop fuel self (world Aggressive) df (unprocessed_rows df);
  '(self2, df2, events2) ←
    retry_phase fuel self (world ConservativeRetry) "Conservative Retry"
      (conservative_settings self) df1;
  '(self3, df3, events3) ←
    retry_phase fuel self2 (world PatientRetry) "Patient Processing"
      (patient_settings self2) df2;
  Some (self3, df3, [EvBackup "initial"] ++ events1 ++ events2 ++ events3).

(** The three values the scheduler writes to [analysis_status]. *)
Definition status_terminal (c : option Cell) : Prop :=
  c = Some (CStr "COMPLETED") \/ c = Some (CStr "FAILED") \/
  c = Some (CStr "INVALID_URL").

(** A status cell of a fresh input or of an earlier output: unset or one
    of the three values. *)
Definition status_known (c : option Cell) : Prop :=
  c = None \/ status_terminal c.

(** [df.loc[index, 'analysis_status']] *)
Definition status_of (df : DataFrame) (index : nat) : option Cell :=
  get_cell df index "analysis_status".

(** The frame has all the result columns, as after [init_columns]. *)
Definition has_result_columns (df : DataFrame) : Prop :=
  forall col, col ∈ analysis_columns -> has_column df col = true.

(** The crawls of a trace. *)
Definition crawls (events : list Event) : list (nat * string) :=
  omap (fun e => match e with EvCrawl i u => Some (i, u) | _ => None end)
    events.

(** What running the batches of one phase over the rows [todo] does to a
    frame [df], giving [df'] and the trace [events]: the shape of the frame
    and the cells outside the result columns are kept, rows outside [todo]
    are untouched, every row of [todo] ends [INVALID_URL] without a usable
    URL and [COMPLETED] or [FAILED] with one, and the crawls are rows of
    [todo] under their cleaned URL, each row at most once. *)
Definition phase_outcome (todo : list nat) (url_column : string)
  (df df' : DataFrame) (events : list Event) : Prop :=
  length (rows df') = length (rows df) /\
  columns df' = columns df /\
  (forall j col, col ∉ analysis_columns ->
                 get_cell df' j col = get_cell df j col) /\
  (forall j, j ∉ todo -> rows df' !! j = rows df !! j) /\
  (forall j, j ∈ todo ->
     (valid_url df url_column j = None ->
      status_of df' j = Some (CStr "INVALID_URL")) /\
     (is_Some (valid_url df url_column j) ->
      status_of df' j = Some (CStr "COMPLETED") \/
      status_of df' j = Some (CStr "FAILED"))) /\
  (forall j u, (j, u) ∈ crawls events ->
               j ∈ todo /\ valid_url df url_column j = Some u) /\
  NoDup (List.map fst (crawls events)).

(** [df[col].str.contains('Error', na=False)] on one cell: a missing
    value and a value that is no string count as [False]. *)
Definition contains_error (c : option Cell) : bool :=
  match c with
  | Some (CStr s) => str_in "Error" s
  | _ => false
  end.

(** [len(df[mask])] for a mask computed row by row. *)
Definition count_where (mask : Row -> bool) (df : DataFrame) : nat :=
  length (index_where mask df).

(** The counters [update_statistics] recomputes from the frame. *)
Record Counters : Type := mkCounters {
  high_value_prospects : nat;
  good_prospects : nat;
  medium_prospects : nat;
  non_prospects : nat;
  completed : nat;
  failed : nat
}.

(** [update_statistics(df)], for a [has_chatbot] column that holds strings
    or missing values, as in every frame a batch has written. *)
Definition update_statistics (df : DataFrame) : Counters :=
  let prospects label :=
    count_where
      (fun row => cell_is label (row !! "prospect_evaluation"%string)) df in
  {| high_value_prospects := prospects "HIGH-VALUE PROSPECT"%string;
     good_prospects := prospects "GOOD PROSPECT"%string;
     medium_prospects := prospects "MEDIUM PROSPECT"%string;
     non_prospects := prospects "NOT A PROSPECT"%string;
     completed :=
       count_where
         (fun row =>
            negb (cell_isna (row !! "has_chatbot"%string)) &&
            negb (contains_error (row !! "has_chatbot"%string))) df;
     failed :=
       count_where
         (fun row => contains_error (row !! "has_chatbot"%string)) df |}.

(** The counts [print_final_report] computes before it ranks the booking
    technologies. *)
Record FinalReport : Type := mkFinalReport {
  total_completed : nat;
  total_failed : nat;
  total_invalid : nat;
  total_prospects : nat;
  companies_with_chatbots : nat;
  companies_without_chatbots : nat
}.

(** The arithmetic of [print_final_report(df, output_csv)]: the counts,
    and the [ZeroDivisionError] of the high-value prospect rate, the one
    quotient by [total_completed] that has no guard. The success rate and
    the prospect rate are guarded in the source and cannot raise. *)
Definition print_final_report (df : DataFrame) : Result FinalReport :=
  let stats := update_statistics df in
  let total_completed := length (rows_with_status "COMPLETED" df) in
  let total_failed := length (rows_with_status "FAILED" df) in
  let total_invalid := length (rows_with_status "INVALID_URL" df) in
  let total_prospects :=
    high_value_prospects stats + good_prospects stats +
    medium_prospects stats in
  if total_completed =? 0 then Raise "division by zero"
  else
    Ok {| total_completed := total_completed;
          total_failed := total_failed;
          total_invalid := total_invalid;
          total_prospects := total_prospects;
          companies_with_chatbots :=
            count_where
              (fun row => cell_is "Yes" (row !! "has_chatbot"%string)) df;
          companies_without_chatbots :=
            count_where
              (fun row => cell_is "No" (row !! "has_chatbot"%string)) df |}.

(** The four values of [prospect_evaluation]. *)
Definition prospect_labels : list string :=
  ["HIGH-VALUE PROSPECT"; "GOOD PROSPECT"; "MEDIUM PROSPECT";
   "NOT A PROSPECT"]%string.

(** The [has_chatbot] cell of a failed row: [Error: ] and at most a
    hundred characters of the message. *)
Definition error_cell (c : option Cell) : Prop :=
  exists msg, c = Some (CStr ("Error: " +:+ msg)) /\ String.length msg <= 100.

(** How the result cells of a row go with its status: a completed row has
    a [Yes] or [No] flag and a prospect label, which is [NOT A PROSPECT]
    exactly for [Yes]; no other row has a prospect label; a failed row has
    the error text; an invalid row has [Invalid URL]; a row without status
    has no flag, or the error text of an attempt that is to be retried. *)
Definition row_consistent (row : Row) : Prop :=
  let status : option Cell := row !! "analysis_status"%string in
  let chat : option Cell := row !! "has_chatbot"%string in
  let prospect : option Cell := row !! "prospect_evaluation"%string in
  (status = Some (CStr "COMPLETED") ->
   exists (flag : bool) (label : string),
     (chat = Some (yes_no flag)) /\
     (prospect = Some (CStr label)) /\
     (label ∈ prospect_labels) /\
     (label = "NOT A PROSPECT"%string <-> flag = true)) /\
  (status <> Some (CStr "COMPLETED") -> prospect = None) /\
  (status = Some (CStr "FAILED") -> error_cell chat) /\
  (status = Some (CStr "INVALID_URL") -> chat = Some (CStr "Invalid URL")) /\
  (status = None -> chat = None \/ error_cell chat).

(** Every row of the frame is consistent. *)
Definition frame_consistent (df : DataFrame) : Prop :=
  forall j row, rows df !! j = Some row -> row_consistent row.

End Scheduler.

(* ===================================================================== *)
(** ** The semaphore of [process_batch] as a transition system *)
(* ===================================================================== *)

Module Concurrency.
Import PyStr Analyzer Crawler Scheduler.

(** Where a task of [asyncio.gather] stands: before [async with
    semaphore], inside it, or past it. *)
Inductive TaskState : Type := Waiting | Running | Finished.

Global Instance TaskState_eq_dec : EqDecision TaskState.
Proof. solve_decision. Defined.

(** The semaphore's counter, the state of every task (by position in
    [tasks]) and the shared frame. *)
Record Pool : Type := mkPool {
  value : nat;
  states : list TaskState;
  table : DataFrame
}.

(** The number of crawls in flight. *)
Definition in_flight (p : Pool) : nat :=
  length (List.filter (fun st => bool_decide (st = Running)) (states p)).

(** The state in which [gather] starts the tasks built by [dispatch]. *)
Definition initial_pool (self : Self) (tasks : list (nat * string))
  (df : DataFrame) : Pool :=
  mkPool (concurrency (current_settings self))
    (List.map (fun _ => Waiting) tasks) df.

(** The two moves of a task. [acquire] needs a positive counter and takes
    one unit of it. [release] is the end of the [async with] block: the
    body has written its row, through the [try] branch or through the
    [except] branch, and the unit goes back whichever branch ran. *)
Inductive step `{SetOrder} (self : Self) (world : nat -> Site)
  (tasks : list (nat * string)) : Pool -> Pool -> Prop :=
| acquire (k : nat) (p : Pool) :
    states p !! k = Some Waiting ->
    0 < value p ->
    step self world tasks p
      (mkPool (value p - 1) (<[k := Running]> (states p)) (table p))
| release (k : nat) (task : nat * string) (p : Pool) :
    states p !! k = Some Running ->
    tasks !! k = Some task ->
    step self world tasks p
      (mkPool (value p + 1) (<[k := Finished]> (states p))
         (run_task self (world (fst task)) (table p) task)).

(** The states a batch can reach. *)
Definition reachable `{SetOrder} (self : Self) (world : nat -> Site)
  (tasks : list (nat * string)) (df : DataFrame) (p : Pool) : Prop :=
  rtc (step self world tasks) (initial_pool self tasks df) p.

(** The tasks that have left the semaphore, in the order of [tasks]. *)
Fixpoint finished_tasks (sts : list TaskState) (tasks : list (nat * string))
  : list (nat * string) :=
  match sts, tasks with
  | st :: sts', task :: tasks' =>
      if bool_decide (st = Finished)
      then task :: finished_tasks sts' tasks'
      else finished_tasks sts' tasks'
  | _, _ => []
  end.

(** The moves a task still has to make: acquire and release while it
    waits, release while it runs. *)
Definition moves_of (st : TaskState) : nat :=
  match st with
  | Waiting => 2
  | Running => 1
  | Finished => 0
  end.

(** The moves the batch still has to make. *)
Definition moves_left (p : Pool) : nat :=
  list_sum (List.map moves_of (states p)).

End Concurrency.


(* ===================================================================== *)
(** ** Sample sites and frames *)
(* ===================================================================== *)

Module Fixtures.
Import PyStr Analyzer Crawler Scheduler.

(** A static page: no matching DOM element, no resource entry. *)
Definition static_page (html text : string) : PageView :=
  mkPageView html text (fun _ => Some []) (Some []).

(** A site whose root page times out while every other page loads and
    mentions Zendesk. *)
Definition root_times_out : Site :=
  {| new_context := None;
     goto := fun n _ =>
       match n with
       | 0 => None
       | S _ => Some (static_page "" "we use zendesk")
       end;
     nav_links := Some [];
     context_close := None;
     clock := "2025-07-01 12:00:00" |}.

(** A site none of whose pages loads. *)
Definition unreachable : Site :=
  {| new_context := None;
     goto := fun _ _ => None;
     nav_links := Some [];
     context_close := None;
     clock := "2025-07-01 12:00:00" |}.

(** A crawl for which the browser cannot open a context. *)
Definition no_context : Site :=
  {| new_context := Some "Target closed";
     goto := fun _ _ => None;
     nav_links := Some [];
     context_close := None;
     clock := "2025-07-01 12:00:00" |}.

(** Three fresh rows: a bare domain, a row without URL, and a value that
    is no URL. *)
Definition sample_frame : DataFrame :=
  {| columns := ["Company Name"; "website"]%string;
     rows := [ {[ "Company Name"%string := CStr "Alpha";
                  "website"%string := CStr "alpha.example" ]};
               {[ "Company Name"%string := CStr "Beta" ]};
               {[ "Company Name"%string := CStr "Gamma";
                  "website"%string := CStr "not a url" ]} ] |}.

(** Row 0 cannot be crawled in any phase; the other sites are
    unreachable. *)
Definition sample_world : World :=
  fun _ index =>
    match index with
    | 0 => no_context
    | _ => unreachable
    end.

(** An output of an earlier run in which every row is completed. *)
Definition completed_frame : DataFrame :=
  {| columns := ["website"; "has_chatbot"; "analysis_status"]%string;
     rows := [ {[ "website"%string := CStr "alpha.example";
                  "has_chatbot"%string := CStr "No";
                  "analysis_status"%string := CStr "COMPLETED" ]};
               {[ "website"%string := CStr "beta.example";
                  "has_chatbot"%string := CStr "Yes";
                  "analysis_status"%string := CStr "COMPLETED" ]} ] |}.

(** A frame none of whose columns is a URL column. *)
Definition no_url_frame : DataFrame :=
  {| columns := ["Company Name"; "homepage"]%string;
     rows := [ {[ "Company Name"%string := CStr "Alpha";
                  "homepage"%string := CStr "alpha.example" ]} ] |}.

(** Two fresh rows without a usable URL: no cell, and an empty one. *)
Definition no_site_frame : DataFrame :=
  {| columns := ["Company Name"; "website"]%string;
     rows := [ {[ "Company Name"%string := CStr "Alpha" ]};
               {[ "Company Name"%string := CStr "Beta";
                  "website"%string := CStr EmptyString ]} ] |}.

End Fixtures.

(* ===================================================================== *)
(** * Properties *)
(* ===================================================================== *)

(** ** Strings *)

Module PyStrFacts.
Import PyStr.

Lemma app_cons (c : ascii) (s t : string) :
  String c s +:+ t = String c (s +:+ t).
Proof. reflexivity. Qed.

Lemma app_assoc_str (a b c : string) : (a +:+ b) +:+ c = a +:+ (b +:+ c).
Proof.
  induction a as [|x a IH]; [reflexivity|].
  rewrite !app_cons. now rewrite IH.
Qed.

Lemma lower_app (a b : string) : lower (a +:+ b) = lower a +:+ lower b.
Proof.
  induction a as [|c a IH]; [reflexivity|].
  rewrite app_cons. simpl. rewrite IH. reflexivity.
Qed.

Lemma startswith_app (s t p : string) :
  startswith s p = true -> startswith (s +:+ t) p = true.
Proof.
  revert s; induction p as [|c p IH]; intros s Hs; [reflexivity|].
  destruct s as [|d s]; [discriminate|].
  rewrite app_cons. simpl in *.
  apply andb_true_iff in Hs as [Hc Hp].
  rewrite Hc; simpl. now apply IH.
Qed.

(** An occurrence survives when text is appended. *)
Lemma str_in_app_l (p s t : string) :
  str_in p s = true -> str_in p (s +:+ t) = true.
Proof.
  induction s as [|c s IH]; intros Hin.
  - simpl in Hin. rewrite orb_false_r in Hin.
    destruct p; [|discriminate].
    now destruct t.
  - simpl in Hin. apply orb_true_iff in Hin as [Hp|Hr].
    + apply (startswith_app _ t) in Hp.
      rewrite app_cons in *. simpl. now rewrite Hp.
    + rewrite app_cons. simpl. rewrite (IH Hr). apply orb_true_r.
Qed.

(** An occurrence survives when text is prepended. *)
Lemma str_in_app_r (p s t : string) :
  str_in p t = true -> str_in p (s +:+ t) = true.
Proof.
  intros Hin. induction s as [|c s IH]; [exact Hin|].
  rewrite app_cons. simpl. rewrite IH. apply orb_true_r.
Qed.

Lemma any_in_app_l (ps : list string) (s t : string) :
  any_in ps s = true -> any_in ps (s +:+ t) = true.
Proof.
  unfold any_in. rewrite !existsb_exists.
  intros [p [Hp Hin]]. exists p. split; [assumption|].
  now apply str_in_app_l.
Qed.

Lemma str_elem_true (s : string) (l : list string) :
  Analyzer.str_elem s l = true <-> s ∈ l.
Proof.
  unfold Analyzer.str_elem. rewrite existsb_exists. split.
  - intros [x [Hx Heq]]. apply String.eqb_eq in Heq. subst.
    now apply list_elem_of_In.
  - intros Hin. exists s. split; [now apply list_elem_of_In|].
    apply String.eqb_refl.
Qed.

End PyStrFacts.

(** ** The signal extractor *)

Module ExtractorFacts.
Import PyStr Re Url Analyzer PyStrFacts.

(** The tags a known-signature loop leaves: those it started with and the
    providers with a keyword in the content. *)
Lemma detect_known_elem (table : PatternTable) (content : string)
  (acc : list string) (t : string) :
  t ∈ detect_known table content acc <->
  t ∈ acc \/ exists pats, (t, pats) ∈ table /\ any_in pats content = true.
Proof.
  unfold detect_known. revert acc.
  induction table as [|[ty ps] table IH]; intros acc; simpl.
  - split; [now left|]. intros [H|[pats [H _]]]; [assumption|].
    now apply elem_of_nil in H.
  - rewrite IH. unfold known_step; simpl. split.
    + intros [Hacc|[pats [Hin Hany]]].
      * destruct (any_in ps content) eqn:Hps; [|now left].
        destruct (str_elem ty acc); [now left|].
        apply elem_of_app in Hacc as [Hacc|Hnew]; [now left|].
        apply list_elem_of_singleton in Hnew. subst t.
        right. exists ps. split; [left|assumption].
      * right. exists pats. split; [now right|assumption].
    + intros [Hacc|[pats [Hin Hany]]].
      * left. destruct (any_in ps content); [|assumption].
        destruct (str_elem ty acc); [assumption|].
        apply elem_of_app. now left.
      * apply elem_of_cons in Hin as [Heq|Hin].
        -- injection Heq as -> ->. left. rewrite Hany.
           destruct (str_elem ty acc) eqn:Hel.
           ++ now apply str_elem_true.
           ++ apply elem_of_app. right. now left.
        -- right. exists pats. now split.
Qed.

(** The chatbot loop computes the tags of [detect_known] and raises the
    flag exactly when some provider matches. *)
Lemma chatbot_fold (table : PatternTable) (content : string)
  (flag : bool) (acc : list string) :
  fold_left (chatbot_known_step content) table (flag, acc) =
  (flag || known_hit table content, detect_known table content acc).
Proof.
  unfold detect_known, known_hit. revert flag acc.
  induction table as [|[ty ps] table IH]; intros flag acc; simpl.
  - now rewrite orb_false_r.
  - unfold chatbot_known_step at 2, known_step at 2; simpl.
    destruct (any_in ps content); simpl; rewrite IH.
    + now rewrite orb_true_r.
    + reflexivity.
Qed.

Lemma known_hit_true (table : PatternTable) (content : string) :
  known_hit table content = true <->
  exists ty pats kw,
    (ty, pats) ∈ table /\ kw ∈ pats /\ str_in kw content = true.
Proof.
  unfold known_hit, any_in. rewrite existsb_exists. split.
  - intros [[ty pats] [Hin Hany]]. simpl in Hany.
    apply existsb_exists in Hany as [kw [Hkw Hs]].
    exists ty, pats, kw. repeat split; try assumption;
      now apply list_elem_of_In.
  - intros [ty [pats [kw [Hin [Hkw Hs]]]]].
    exists (ty, pats). split; [now apply list_elem_of_In|].
    simpl. apply existsb_exists. exists kw.
    split; [now apply list_elem_of_In|assumption].
Qed.

(** The second loop of the behavioral detector, in closed form. *)
Lemma text_fold (text_lower : string) (inds : list string)
  (score : nat) (ev : list string) :
  fold_left (text_step text_lower) inds (score, ev) =
  (score + 2 * length (List.filter (fun i => str_in i text_lower) inds),
   ev ++ List.map text_evidence
           (List.filter (fun i => str_in i text_lower) inds)).
Proof.
  revert score ev. induction inds as [|i inds IH]; intros score ev; simpl.
  - f_equal; [lia|now rewrite app_nil_r].
  - unfold text_step at 2. destruct (str_in i text_lower); simpl.
    + rewrite IH. f_equal; [lia|]. now rewrite <- app_assoc.
    + apply IH.
Qed.

Lemma combined_app (html text extra : string) :
  combined html (text +:+ extra) = combined html text +:+ lower extra.
Proof.
  unfold combined. rewrite lower_app.
  now rewrite !app_assoc_str.
Qed.

Lemma filter_length_le {A} (p q : A -> bool) (l : list A) :
  (forall x, p x = true -> q x = true) ->
  length (List.filter p l) <= length (List.filter q l).
Proof.
  intros Hpq. induction l as [|x l IH]; simpl; [lia|].
  destruct (p x) eqn:Hp.
  - rewrite (Hpq x Hp). simpl. lia.
  - destruct (q x); simpl; lia.
Qed.

Lemma filter_elem_mono {A} (p q : A -> bool) (l : list A) (x : A) :
  (forall y, p y = true -> q y = true) ->
  x ∈ List.filter p l -> x ∈ List.filter q l.
Proof.
  intros Hpq Hin. apply list_elem_of_In in Hin.
  apply filter_In in Hin as [Hl Hp].
  apply list_elem_of_In, filter_In. split; [assumption|now apply Hpq].
Qed.

(** The behavioral detector on enlarged visible text: the score does not
    drop and no reported evidence is lost. *)
Lemma behavioral_text_mono (html text extra : string) :
  let d := _detect_unknown_chatbot html text in
  let d' := _detect_unknown_chatbot html (text +:+ extra) in
  (likely_chatbot d = true -> likely_chatbot d' = true) /\
  (forall t, t ∈ evidence d -> t ∈ evidence d').
Proof.
  unfold _detect_unknown_chatbot.
  destruct (fold_left (ui_step html) chat_ui_indicators (0, []))
    as [score ev] eqn:Hui.
  rewrite !text_fold. generalize chat_text_indicators. intros inds.
  cbv zeta. cbn [fst snd likely_chatbot evidence].
  assert (Hmono : forall i, str_in i (lower text) = true ->
                            str_in i (lower (text +:+ extra)) = true).
  { intros i Hi. rewrite lower_app. now apply str_in_app_l. }
  pose proof (filter_length_le _ _ inds Hmono) as Hlen.
  set (hits := List.filter (fun i => str_in i (lower text)) inds) in *.
  set (hits' := List.filter (fun i => str_in i (lower (text +:+ extra))) inds)
    in *.
  split.
  - intros H5. apply Nat.leb_le in H5. apply Nat.leb_le. lia.
  - intros t Ht.
    destruct (5 <=? score + 2 * length hits) eqn:H5;
      [|now apply elem_of_nil in Ht].
    apply Nat.leb_le in H5.
    assert (H5' : (5 <=? score + 2 * length hits') = true)
      by (apply Nat.leb_le; lia).
    rewrite H5'.
    apply elem_of_app in Ht as [Ht|Ht]; apply elem_of_app; [now left|right].
    apply list_elem_of_fmap in Ht as [i [-> Hi]].
    apply list_elem_of_fmap. exists i. split; [reflexivity|].
    now apply (filter_elem_mono _ _ _ _ Hmono).
Qed.

Lemma detect_known_mono (table : PatternTable) (content extra t : string) :
  t ∈ detect_known table content [] ->
  t ∈ detect_known table (content +:+ extra) [].
Proof.
  rewrite !detect_known_elem. intros [H|[pats [Hin Hany]]]; [now left|].
  right. exists pats. split; [assumption|now apply any_in_app_l].
Qed.

Lemma known_hit_mono (table : PatternTable) (content extra : string) :
  known_hit table content = true ->
  known_hit table (content +:+ extra) = true.
Proof.
  unfold known_hit. rewrite !existsb_exists.
  intros [e [He Hany]]. exists e. split; [assumption|].
  now apply any_in_app_l.
Qed.

(** Steps 1 and 2 of the extractor in closed form. *)
Lemma chatbot_signals_eq (self : Self) (html text : string) :
  chatbot_signals self html text =
  let content := combined html text in
  let known := detect_known (chatbot_patterns self) content [] in
  if known_hit (chatbot_patterns self) content then (true, known)
  else if likely_chatbot (_detect_unknown_chatbot html text)
       then (true, known ++ evidence (_detect_unknown_chatbot html text))
       else (false, known).
Proof.
  unfold chatbot_signals. rewrite chatbot_fold. cbv zeta. simpl fst. simpl snd.
  simpl orb.
  destruct (known_hit (chatbot_patterns self) (combined html text));
    reflexivity.
Qed.

(** *** Claims about the extractor *)

(** C7. The extractor is a function of the page inputs and of the three
    pattern tables alone: two analyzer objects that carry the same tables,
    whatever their current settings, phase or counters, return the same
    signals on the same (html, text, url). *)
Theorem analyze_page_content_deterministic
  (self1 self2 : Self) (html1 text1 url1 html2 text2 url2 : string) :
  chatbot_patterns self1 = chatbot_patterns self2 ->
  booking_patterns self1 = booking_patterns self2 ->
  ota_patterns self1 = ota_patterns self2 ->
  html1 = html2 -> text1 = text2 -> url1 = url2 ->
  analyze_page_content self1 html1 text1 url1 =
  analyze_page_content self2 html2 text2 url2.
Proof.
  intros Hc Hb Ho -> -> ->.
  unfold analyze_page_content, chatbot_signals.
  now rewrite Hc, Hb, Ho.
Qed.

(** The same page seen by the analyzer in its first phase on a large
    machine and in its last phase on a small one. *)
Lemma analyze_page_content_deterministic_witness :
  analyze_page_content (__init__ 48) "<p>zendesk</p>" "Book now"
    "https://example.com" =
  analyze_page_content
    (Scheduler.set_phase (__init__ 16) "Patient Processing"
       (patient_settings (__init__ 16)))
    "<p>zendesk</p>" "Book now" "https://example.com".
Proof.
  apply (analyze_page_content_deterministic (__init__ 48)
           (Scheduler.set_phase (__init__ 16) "Patient Processing"
              (patient_settings (__init__ 16))));
    reflexivity.
Defined.

(** C4, as stated, fails: three chat phrases in the visible text pass the
    behavioral threshold and are reported; once the word "zendesk" is
    appended, the known-signature tier fires, the behavioral tier is
    skipped, and the three evidence tags are gone. *)
Lemma known_keyword_drops_behavioral_tags :
  chatbot_types
    (analyze_page_content (__init__ 48) ""
       "live chat start chat chat now" "https://example.com") =
  ["chat_text: 'start chat'"; "chat_text: 'live chat'";
   "chat_text: 'chat now'"]%string /\
  chatbot_types
    (analyze_page_content (__init__ 48) ""
       ("live chat start chat chat now" +:+ " zendesk")
       "https://example.com") =
  ["zendesk"%string].
Proof. split; vm_compute; reflexivity. Qed.

(** C4, amended. Appending text to the visible text of a page never
    turns [has_chatbot] off, never removes a known-provider chatbot tag and
    never removes a booking or OTA tag; the behavioral chatbot evidence is
    kept as long as no known chatbot signature occurs in the enlarged
    content. *)
Theorem appended_text_keeps_tags
  (self : Self) (html text extra url : string) :
  let a := analyze_page_content self html text url in
  let a' := analyze_page_content self html (text +:+ extra) url in
  (has_chatbot a = true -> has_chatbot a' = true) /\
  (forall t,
      t ∈ detect_known (chatbot_patterns self) (combined html text) [] ->
      t ∈ chatbot_types a') /\
  (known_hit (chatbot_patterns self) (combined html (text +:+ extra)) = false ->
   forall t, t ∈ chatbot_types a -> t ∈ chatbot_types a') /\
  (forall t, t ∈ booking_technology a -> t ∈ booking_technology a') /\
  (forall t, t ∈ ota_dependencies a -> t ∈ ota_dependencies a').
Proof.
  cbv zeta. unfold analyze_page_content.
  cbn [has_chatbot chatbot_types booking_technology ota_dependencies].
  rewrite !chatbot_signals_eq. cbv zeta. rewrite !combined_app.
  set (content := combined html text).
  set (table := chatbot_patterns self).
  pose proof (behavioral_text_mono html text extra) as [Hlikely Hev].
  cbv zeta in Hlikely, Hev.
  set (d := _detect_unknown_chatbot html text) in *.
  set (d' := _detect_unknown_chatbot html (text +:+ extra)) in *.
  pose proof (known_hit_mono table content (lower extra)) as Hhit.
  pose proof (detect_known_mono table content (lower extra)) as Hknown.
  repeat split.
  - destruct (known_hit table content) eqn:H1.
    + now rewrite (Hhit eq_refl).
    + destruct (known_hit table (content +:+ lower extra)); [reflexivity|].
      destruct (likely_chatbot d) eqn:H2; [|discriminate].
      now rewrite (Hlikely eq_refl).
  - intros t Ht. apply Hknown in Ht.
    destruct (known_hit table (content +:+ lower extra)); [exact Ht|].
    destruct (likely_chatbot d'); [|exact Ht].
    apply elem_of_app. now left.
  - intros Hno t. rewrite Hno.
    destruct (known_hit table content) eqn:H1;
      [rewrite (Hhit eq_refl) in Hno; discriminate|].
    destruct (likely_chatbot d) eqn:H2.
    + rewrite (Hlikely eq_refl). cbn [snd]. intros Ht.
      apply elem_of_app in Ht as [Ht|Ht]; apply elem_of_app;
        [left; now apply Hknown|right; now apply Hev].
    + cbn [snd]. intros Ht. apply Hknown in Ht.
      destruct (likely_chatbot d'); [|exact Ht].
      apply elem_of_app. now left.
  - intros t Ht.
    apply elem_of_app in Ht as [Ht|Ht]; apply elem_of_app;
      [left; now apply detect_known_mono|now right].
  - intros t Ht.
    apply elem_of_app in Ht as [Ht|Ht]; apply elem_of_app;
      [left; now apply detect_known_mono|now right].
Qed.

End ExtractorFacts.

(** ** The prospect classifier *)

Module ClassifierFacts.
Import PyStr Analyzer Classifier.

Lemma tier_label_inj (t1 t2 : Tier) : tier_label t1 = tier_label t2 -> t1 = t2.
Proof. destruct t1, t2; simpl; intros H; try reflexivity; discriminate. Qed.

(** The truth table: the first matching rule for each of the eight
    combinations. *)
Lemma first_matching_tier_table :
  first_matching_tier false true true = Some HIGH_VALUE /\
  first_matching_tier false true false = Some GOOD /\
  first_matching_tier false false true = Some MEDIUM /\
  first_matching_tier false false false = Some MEDIUM /\
  first_matching_tier true true true = Some NOT_A_PROSPECT /\
  first_matching_tier true true false = Some NOT_A_PROSPECT /\
  first_matching_tier true false true = Some NOT_A_PROSPECT /\
  first_matching_tier true false false = Some NOT_A_PROSPECT.
Proof. repeat split. Qed.

(** C3. For every analysis the classifier returns the label of exactly one
    tier, and that tier is the first rule of the priority list that
    matches ([hasChatbot], [bookingPresent], [otaPresent]). *)
Theorem classifier_first_matching_rule (analysis : Analysis) :
  exists tier : Tier,
    first_matching_tier (has_chatbot analysis) (booking_present analysis)
      (ota_present analysis) = Some tier /\
    _generate_prospect_evaluation analysis = tier_label tier /\
    (forall other : Tier,
        _generate_prospect_evaluation analysis = tier_label other ->
        other = tier).
Proof.
  unfold _generate_prospect_evaluation, booking_present, ota_present.
  destruct (has_chatbot analysis);
    destruct (truthy_list (booking_technology analysis) ||
              truthy_val (analysis_details analysis !! "has_online_booking"%string));
    destruct (truthy_list (ota_dependencies analysis));
    cbn [negb];
    match goal with
    | |- exists tier, first_matching_tier ?c ?b ?o = _ /\ _ =>
        let r := eval vm_compute in (first_matching_tier c b o) in
        match r with
        | Some ?t => exists t
        end
    end;
    (split; [reflexivity|split; [reflexivity|]]);
    intros other Heq; symmetry; now apply tier_label_inj.
Qed.

End ClassifierFacts.

(** ** The page analysis and the site crawler *)

Module CrawlerFacts.
Import PyStr Re Url Analyzer Classifier Crawler PyStrFacts ExtractorFacts.

(** The dynamic pass only ever appends the tag [dynamic_chat_widget]. *)
Lemma dynamic_types (page : PageView) (selectors : list string)
  (analysis : Analysis) (t : string) :
  t ∈ chatbot_types (_detect_dynamic_elements page selectors analysis) ->
  t ∈ chatbot_types analysis \/ t = "dynamic_chat_widget"%string.
Proof.
  revert analysis. induction selectors as [|sel rest IH]; intros a Ht.
  - now left.
  - simpl in Ht. destruct (query_selector_all page sel) as [els|];
      [|now left].
    apply IH in Ht as [Ht|Ht]; [|now right].
    destruct (existsb element_hits (firstn 3 els)); [|now left].
    cbn [set_chatbot chatbot_types] in Ht.
    apply elem_of_app in Ht as [Ht|Ht]; [now left|right].
    now apply list_elem_of_singleton in Ht.
Qed.

Lemma network_prefix (domain : string) :
  startswith ("network_" +:+ domain) "network_" = true.
Proof. reflexivity. Qed.

Lemma network_tag_elem (keywords : list string) (request_url : string)
  (services services' : list string) (t : string) :
  network_tag keywords request_url services = Some services' ->
  t ∈ services' ->
  t ∈ services \/ startswith t "network_" = true.
Proof.
  unfold network_tag.
  destruct (any_in keywords (lower request_url));
    [|intros [= <-]; now left].
  destruct (urlparse_netloc request_url) as [domain|]; [|discriminate].
  simpl. intros [= <-].
  destruct (str_elem domain (List.map before_underscore services));
    [now left|].
  intros Ht. apply elem_of_app in Ht as [Ht|Ht]; [now left|right].
  apply list_elem_of_singleton in Ht. subst t. reflexivity.
Qed.

(** Every chatbot tag of the network pass starts with [network_]. *)
Lemma network_loop_chat (requests : list string) (acc : NetworkAnalysis)
  (t : string) :
  t ∈ chatbot_services (network_loop requests acc) ->
  t ∈ chatbot_services acc \/ startswith t "network_" = true.
Proof.
  revert acc. induction requests as [|r rest IH]; intros acc Ht;
    [now left|].
  simpl in Ht.
  destruct (network_tag chatbot_domains r (chatbot_services acc))
    as [chat|] eqn:Hchat; [|now left].
  cbn [booking_services] in Ht.
  destruct (network_tag booking_domains r (booking_services acc))
    as [book|] eqn:Hbook.
  - apply IH in Ht as [Ht|Ht]; [|now right].
    cbn [chatbot_services] in Ht.
    now apply (network_tag_elem _ _ _ _ _ Hchat).
  - cbn [chatbot_services] in Ht.
    now apply (network_tag_elem _ _ _ _ _ Hchat).
Qed.

Lemma network_chat (page : PageView) (t : string) :
  t ∈ chatbot_services (_analyze_network_requests page) ->
  startswith t "network_" = true.
Proof.
  unfold _analyze_network_requests.
  destruct (resource_entries page) as [entries|];
    [|intros Ht; now apply elem_of_nil in Ht].
  intros Ht. apply network_loop_chat in Ht as [Ht|Ht]; [|assumption].
  now apply elem_of_nil in Ht.
Qed.

Lemma network_not_behavioral (t : string) :
  startswith t "network_" = true -> is_behavioral_evidence t = false.
Proof.
  destruct t as [|c t]; [discriminate|].
  cbn [startswith]. intros H. apply andb_true_iff in H as [Hc _].
  apply Ascii.eqb_eq in Hc. subst c. reflexivity.
Qed.

(** No provider name of the chatbot table looks like behavioral
    evidence. *)
Lemma providers_not_behavioral (t : string) :
  t ∈ List.map fst the_chatbot_patterns -> is_behavioral_evidence t = false.
Proof.
  intros Ht. apply list_elem_of_In in Ht. simpl in Ht.
  repeat (destruct Ht as [<-|Ht]; [reflexivity|]). destruct Ht.
Qed.

(** What the behavioral detector reports does have that shape. *)
Lemma evidence_is_behavioral (html text t : string) :
  t ∈ evidence (_detect_unknown_chatbot html text) ->
  is_behavioral_evidence t = true.
Proof.
  unfold _detect_unknown_chatbot.
  assert (Hui : forall pats st,
             (forall x, x ∈ snd st -> is_behavioral_evidence x = true) ->
             forall x, x ∈ snd (fold_left (ui_step html) pats st) ->
                       is_behavioral_evidence x = true).
  { induction pats as [|p pats IH]; intros st Hst x Hx; [now apply Hst|].
    simpl in Hx. apply IH in Hx; [assumption|].
    intros y Hy. unfold ui_step in Hy.
    destruct (0 <? findall_count p html); [|now apply Hst].
    cbn [snd] in Hy. apply elem_of_app in Hy as [Hy|Hy]; [now apply Hst|].
    apply list_elem_of_singleton in Hy. subst y. reflexivity. }
  destruct (fold_left (ui_step html) chat_ui_indicators (0, []))
    as [score ev] eqn:Hfold.
  rewrite text_fold. cbn [fst snd evidence].
  destruct (5 <=? _); [|intros Ht; now apply elem_of_nil in Ht].
  intros Ht. apply elem_of_app in Ht as [Ht|Ht].
  - apply (Hui chat_ui_indicators (0, [])).
    + intros x Hx. now apply elem_of_nil in Hx.
    + now rewrite Hfold.
  - apply list_elem_of_fmap in Ht as [i [-> _]]. reflexivity.
Qed.

(** C10. When a keyword of the chatbot table occurs in the combined
    lower-cased content, the chatbot tags of the extractor are those of the
    known-signature loop alone, all of them provider names; and the tags of
    the whole page analysis are provider names, [dynamic_chat_widget] or
    [network_...] tags, none of them a behavioral evidence string. *)
Theorem known_signature_skips_behavioral
  (self : Self) (page : PageView) (url provider keyword : string)
  (keywords : list string) :
  chatbot_patterns self = the_chatbot_patterns ->
  (provider, keywords) ∈ the_chatbot_patterns ->
  keyword ∈ keywords ->
  str_in keyword (combined (content page) (body_text page)) = true ->
  let a := analyze_page_content self (content page) (body_text page) url in
  has_chatbot a = true /\
  chatbot_types a =
    detect_known the_chatbot_patterns
      (combined (content page) (body_text page)) [] /\
  (forall t, t ∈ chatbot_types a -> t ∈ List.map fst the_chatbot_patterns) /\
  exists a',
    analyze_page self (Some page) url = Some a' /\
    forall t, t ∈ chatbot_types a' ->
      is_behavioral_evidence t = false /\
      (t ∈ List.map fst the_chatbot_patterns \/
       t = "dynamic_chat_widget"%string \/
       startswith t "network_" = true).
Proof.
  intros Htable Hprov Hkw Hin. cbv zeta.
  assert (Hhit : known_hit the_chatbot_patterns
                   (combined (content page) (body_text page)) = true).
  { apply known_hit_true. exists provider, keywords, keyword. auto. }
  assert (Hsig : chatbot_signals self (content page) (body_text page) =
                 (true, detect_known the_chatbot_patterns
                          (combined (content page) (body_text page)) [])).
  { rewrite chatbot_signals_eq. cbv zeta. rewrite Htable, Hhit. reflexivity. }
  assert (Hnames : forall t,
             t ∈ detect_known the_chatbot_patterns
                   (combined (content page) (body_text page)) [] ->
             t ∈ List.map fst the_chatbot_patterns).
  { intros t Ht. apply detect_known_elem in Ht as [Ht|[pats [Ht _]]];
      [now apply elem_of_nil in Ht|].
    apply list_elem_of_fmap. exists (t, pats). now split. }
  assert (Htypes : chatbot_types
            (analyze_page_content self (content page) (body_text page) url) =
          detect_known the_chatbot_patterns
            (combined (content page) (body_text page)) []).
  { unfold analyze_page_content. cbn [chatbot_types]. now rewrite Hsig. }
  split; [unfold analyze_page_content; cbn [has_chatbot]; now rewrite Hsig|].
  split; [exact Htypes|].
  split; [intros t; rewrite Htypes; apply Hnames|].
  unfold analyze_page. cbn [mbind option_bind].
  eexists. split; [reflexivity|].
  cbn [chatbot_types]. intros t Ht.
  assert (Hcases : t ∈ List.map fst the_chatbot_patterns \/
                   t = "dynamic_chat_widget"%string \/
                   startswith t "network_" = true).
  { apply elem_of_app in Ht as [Ht|Ht].
    - apply dynamic_types in Ht as [Ht|Ht]; [left|right; now left].
      rewrite Htypes in Ht. now apply Hnames.
    - right; right. now apply network_chat in Ht. }
  split; [|exact Hcases].
  destruct Hcases as [H|[->|H]];
    [now apply providers_not_behavioral|reflexivity|
     now apply network_not_behavioral].
Qed.

(** A static page whose visible text mentions Zendesk. *)
Lemma known_signature_skips_behavioral_witness :
  let page := Fixtures.static_page "" "we use zendesk" in
  let a :=
    analyze_page_content (__init__ 48) (content page) (body_text page)
      "https://alpha.example" in
  has_chatbot a = true /\
  chatbot_types a =
    detect_known the_chatbot_patterns
      (combined (content page) (body_text page)) [] /\
  (forall t, t ∈ chatbot_types a -> t ∈ List.map fst the_chatbot_patterns) /\
  exists a',
    analyze_page (__init__ 48) (Some page) "https://alpha.example" = Some a' /\
    forall t, t ∈ chatbot_types a' ->
      is_behavioral_evidence t = false /\
      (t ∈ List.map fst the_chatbot_patterns \/
       t = "dynamic_chat_widget"%string \/
       startswith t "network_" = true).
Proof.
  cbv zeta.
  apply (known_signature_skips_behavioral (__init__ 48)
           (Fixtures.static_page "" "we use zendesk") "https://alpha.example"
           "zendesk" "zendesk" ["zendesk"; "zopim"; "zdchat"]%string).
  - reflexivity.
  - apply list_elem_of_further, list_elem_of_here.
  - apply list_elem_of_here.
  - vm_compute. reflexivity.
Defined.

End CrawlerFacts.

(** ** The table of targets *)

Module FrameFacts.
Import PyStr Analyzer Classifier Crawler Scheduler PyStrFacts.

Lemma rows_set_cell (df : DataFrame) (i : nat) (col : string) (v : Cell) :
  rows (set_cell df i col v) =
  alter (fun row : Row => <[col := v]> row) i (rows df).
Proof. reflexivity. Qed.

Lemma length_set_cell (df : DataFrame) (i : nat) (col : string) (v : Cell) :
  length (rows (set_cell df i col v)) = length (rows df).
Proof. simpl. apply length_alter. Qed.

(** A write is read back when the row exists. *)
Lemma get_set_cell_eq (df : DataFrame) (i : nat) (col : string) (v : Cell) :
  i < length (rows df) -> get_cell (set_cell df i col v) i col = Some v.
Proof.
  intros Hi. unfold get_cell. simpl.
  rewrite list_lookup_alter_eq.
  destruct (lookup_lt_is_Some_2 (rows df) i Hi) as [row Hrow].
  rewrite Hrow. simpl. apply lookup_insert_eq.
Qed.

(** A write leaves every other cell as it was. *)
Lemma get_set_cell_ne (df : DataFrame) (i j : nat) (col col' : string)
  (v : Cell) :
  i <> j \/ col <> col' ->
  get_cell (set_cell df i col v) j col' = get_cell df j col'.
Proof.
  intros Hne. unfold get_cell. simpl.
  destruct (decide (i = j)) as [->|Hij].
  - destruct Hne as [Hne|Hne]; [congruence|].
    rewrite list_lookup_alter_eq.
    destruct (rows df !! j) as [row|]; simpl; [|reflexivity].
    now apply lookup_insert_ne.
  - now rewrite list_lookup_alter_ne.
Qed.

Lemma row_set_cell_ne (df : DataFrame) (i j : nat) (col : string) (v : Cell) :
  i <> j -> rows (set_cell df i col v) !! j = rows df !! j.
Proof. intros Hij. simpl. now rewrite list_lookup_alter_ne. Qed.

Lemma has_column_true (df : DataFrame) (col : string) :
  has_column df col = true <-> col ∈ columns df.
Proof. apply str_elem_true. Qed.

Lemma columns_set_cell (df : DataFrame) (i : nat) (col : string) (v : Cell) :
  has_column df col = true -> columns (set_cell df i col v) = columns df.
Proof. intros H. simpl. unfold add_column. now rewrite H. Qed.

Lemma columns_clear_cell (df : DataFrame) (i : nat) (col : string) :
  has_column df col = true -> columns (clear_cell df i col) = columns df.
Proof. intros H. simpl. unfold add_column. now rewrite H. Qed.

Lemma get_clear_cell_eq (df : DataFrame) (i : nat) (col : string) :
  get_cell (clear_cell df i col) i col = None.
Proof.
  unfold get_cell. simpl. rewrite list_lookup_alter_eq.
  destruct (rows df !! i) as [row|]; simpl; [|reflexivity].
  apply lookup_delete_eq.
Qed.

Lemma get_clear_cell_ne (df : DataFrame) (i j : nat) (col col' : string) :
  i <> j \/ col <> col' ->
  get_cell (clear_cell df i col) j col' = get_cell df j col'.
Proof.
  intros Hne. unfold get_cell. simpl.
  destruct (decide (i = j)) as [->|Hij].
  - destruct Hne as [Hne|Hne]; [congruence|].
    rewrite list_lookup_alter_eq.
    destruct (rows df !! j) as [row|]; simpl; [|reflexivity].
    now apply lookup_delete_ne.
  - now rewrite list_lookup_alter_ne.
Qed.

(** [df[mask].index.tolist()] lists exactly the rows on which the mask
    holds. *)
Lemma index_where_elem (mask : Row -> bool) (df : DataFrame) (i : nat) :
  i ∈ index_where mask df <->
  exists row, rows df !! i = Some row /\ mask row = true.
Proof.
  unfold index_where. rewrite list_elem_of_In, filter_In, in_seq. split.
  - intros [_ H]. destruct (rows df !! i) as [row|]; [|discriminate].
    now exists row.
  - intros [row [Hrow Hm]]. split.
    + apply lookup_lt_Some in Hrow. lia.
    + now rewrite Hrow.
Qed.

Lemma index_where_lt (mask : Row -> bool) (df : DataFrame) (i : nat) :
  i ∈ index_where mask df -> i < length (rows df).
Proof.
  intros H. apply index_where_elem in H as [row [Hrow _]].
  now apply lookup_lt_Some in Hrow.
Qed.

Lemma cell_is_true (value : string) (c : option Cell) :
  cell_is value c = true <-> c = Some (CStr value).
Proof.
  destruct c as [[s|n]|]; simpl; split; try discriminate.
  - intros H. apply String.eqb_eq in H. now subst.
  - intros [= ->]. apply String.eqb_refl.
Qed.

Lemma cell_isna_true (c : option Cell) : cell_isna c = true <-> c = None.
Proof. destruct c; simpl; split; congruence. Qed.

(** The rows with a given status, read through [get_cell]. *)
Lemma rows_with_status_elem (status : string) (df : DataFrame) (i : nat) :
  i ∈ rows_with_status status df <->
  get_cell df i "analysis_status" = Some (CStr status).
Proof.
  unfold rows_with_status, get_cell. rewrite index_where_elem. split.
  - intros [row [Hrow Hm]]. rewrite Hrow. simpl. now apply cell_is_true.
  - destruct (rows df !! i) as [row|]; simpl; [|discriminate].
    intros H. exists row. split; [reflexivity|]. now apply cell_is_true.
Qed.

(** The unprocessed rows are the existing rows without a status. *)
Lemma unprocessed_rows_elem (df : DataFrame) (i : nat) :
  i ∈ unprocessed_rows df <->
  i < length (rows df) /\ status_of df i = None.
Proof.
  unfold unprocessed_rows, status_of, get_cell. rewrite index_where_elem.
  split.
  - intros [row [Hrow Hm]]. split; [now apply lookup_lt_Some in Hrow|].
    rewrite Hrow. simpl. now apply cell_isna_true.
  - intros [Hi H]. destruct (lookup_lt_is_Some_2 (rows df) i Hi) as [row Hrow].
    exists row. split; [assumption|]. rewrite Hrow in H. simpl in H.
    now apply cell_isna_true.
Qed.

(** The rows of a frame after [df.loc[indices, 'analysis_status'] = pd.NA]. *)
Lemma reset_status_spec (indices : list nat) (df : DataFrame) :
  length (rows (reset_status df indices)) = length (rows df) /\
  (forall i col,
      get_cell (reset_status df indices) i col =
      if bool_decide (i ∈ indices /\ col = "analysis_status"%string)
      then None else get_cell df i col) /\
  (forall i, i ∉ indices -> rows (reset_status df indices) !! i = rows df !! i).
Proof.
  unfold reset_status. revert df.
  induction indices as [|k indices IH]; intros df; cbn [fold_left].
  - split; [reflexivity|]. split; [|reflexivity].
    intros i col.
    destruct (decide (i ∈ @nil nat /\ col = "analysis_status"%string))
      as [[H _]|H]; [now apply elem_of_nil in H|].
    now rewrite (bool_decide_eq_false_2 _ H).
  - destruct (IH (clear_cell df k "analysis_status")) as [Hlen [Hget Hrow]].
    split; [rewrite Hlen; simpl; apply length_alter|]. split.
    + intros i col. rewrite Hget.
      destruct (decide (i ∈ indices /\ col = "analysis_status"%string))
        as [H1|H1];
        destruct (decide (i ∈ k :: indices /\ col = "analysis_status"%string))
          as [H2|H2];
        rewrite ?(bool_decide_eq_true_2 _ H1), ?(bool_decide_eq_false_2 _ H1),
          ?(bool_decide_eq_true_2 _ H2), ?(bool_decide_eq_false_2 _ H2);
        try reflexivity.
      * exfalso. apply H2. destruct H1 as [H1 ->]. split; [now right|reflexivity].
      * destruct H2 as [H2 ->].
        apply elem_of_cons in H2 as [->|H2];
          [|exfalso; apply H1; now split].
        apply get_clear_cell_eq.
      * apply get_clear_cell_ne.
        destruct (decide (k = i)) as [->|Hki]; [|now left].
        right. intros <-. apply H2. split; [now left|reflexivity].
    + intros i Hi. rewrite Hrow.
      * simpl. apply list_lookup_alter_ne. intros ->. apply Hi. now left.
      * intros H. apply Hi. now right.
Qed.

End FrameFacts.

(** ** Phase boundaries and the writes of a batch *)

Module SchedulerFacts.
Import PyStr Analyzer Classifier Crawler Scheduler PyStrFacts FrameFacts.


(** A sequence of writes to one row. *)
Lemma write_fold_spec (cvs : list (string * Cell)) (df : DataFrame)
  (i : nat) :
  let d := fold_left (fun d cv => set_cell d i (fst cv) (snd cv)) cvs df in
  length (rows d) = length (rows df) /\
  (forall j, j <> i -> rows d !! j = rows df !! j) /\
  (forall j col, col ∉ List.map fst cvs -> get_cell d j col = get_cell df j col) /\
  ((forall c, c ∈ List.map fst cvs -> has_column df c = true) ->
   columns d = columns df).
Proof.
  cbv zeta. revert df. induction cvs as [|[c v] cvs IH]; intros df.
  - simpl. repeat split; reflexivity.
  - cbn [fold_left fst snd].
    destruct (IH (set_cell df i c v)) as [Hlen [Hrow [Hget Hcols]]].
    split; [now rewrite Hlen, length_set_cell|]. split; [|split].
    + intros j Hj. rewrite (Hrow j Hj). now apply row_set_cell_ne.
    + intros j col Hcol. rewrite Hget.
      * apply get_set_cell_ne. right. intros ->. apply Hcol.
        cbn [List.map fst]. now left.
      * intros Hin. apply Hcol. cbn [List.map]. now right.
    + intros Hall. rewrite Hcols.
      * apply columns_set_cell. apply Hall. cbn [List.map fst]. now left.
      * intros c' Hc'. unfold has_column.
        rewrite (columns_set_cell df i c v).
        -- apply Hall. cbn [List.map]. now right.
        -- apply Hall. cbn [List.map fst]. now left.
Qed.

(** The last write to a column is the one that is read. *)
Lemma write_fold_last (cvs cvs' : list (string * Cell)) (df : DataFrame)
  (i : nat) (col : string) (v : Cell) :
  i < length (rows df) ->
  col ∉ List.map fst cvs' ->
  get_cell
    (fold_left (fun d cv => set_cell d i (fst cv) (snd cv))
       (cvs ++ (col, v) :: cvs') df) i col = Some v.
Proof.
  intros Hi Hcol. rewrite fold_left_app. cbn [fold_left fst snd].
  destruct (write_fold_spec cvs df i) as [Hlen _].
  destruct (write_fold_spec cvs'
              (set_cell
                 (fold_left (fun d cv => set_cell d i (fst cv) (snd cv)) cvs df)
                 i col v) i) as [_ [_ [Hget _]]].
  cbv zeta in Hlen, Hget. rewrite (Hget i col Hcol).
  apply get_set_cell_eq. now rewrite Hlen.
Qed.

Lemma analysis_columns_elem (c : string) :
  Analyzer.str_elem c analysis_columns = true -> c ∈ analysis_columns.
Proof. apply str_elem_true. Qed.

(** What one task does to the frame: it writes the result columns of its
    own row and ends with the status [COMPLETED], or [FAILED] when the
    crawl raised. *)
Lemma run_task_spec `{SetOrder} (self : Self) (site : Site) (df : DataFrame)
  (i : nat) (u : string) :
  let d := run_task self site df (i, u) in
  length (rows d) = length (rows df) /\
  (forall j, j <> i -> rows d !! j = rows df !! j) /\
  (forall j col, col ∉ analysis_columns -> get_cell d j col = get_cell df j col) /\
  (has_result_columns df -> columns d = columns df) /\
  (i < length (rows df) ->
   status_of d i =
   Some (CStr (match analyze_website self site u with
               | Ok _ => "COMPLETED"
               | Raise _ => "FAILED"
               end))).
Proof.
  cbv zeta. unfold run_task. cbn [fst snd].
  destruct (analyze_website self site u) as [a|msg].
  - unfold write_completed.
    match goal with
    | |- context [fold_left _ ?l df] => set (cvs := l)
    end.
    destruct (write_fold_spec cvs df i) as [Hlen [Hrow [Hget Hcols]]].
    cbv zeta in Hlen, Hrow, Hget, Hcols.
    assert (Hsub : forall c, c ∈ List.map fst cvs -> c ∈ analysis_columns).
    { intros c Hc. apply analysis_columns_elem.
      apply list_elem_of_In in Hc. cbn in Hc.
      repeat (destruct Hc as [<-|Hc]; [reflexivity|]). destruct Hc. }
    split; [exact Hlen|]. split; [exact Hrow|]. split; [|split].
    + intros j col Hcol. apply Hget. intros Hin. apply Hcol. now apply Hsub.
    + intros Hwf. apply Hcols. intros c Hc. apply Hwf. now apply Hsub.
    + intros Hi. unfold status_of.
      apply (write_fold_last (removelast cvs) [] df i "analysis_status"
               (CStr "COMPLETED") Hi).
      intros Hin. now apply elem_of_nil in Hin.
  - unfold write_failed.
    match goal with
    | |- context [fold_left _ ?l df] => set (cvs := l)
    end.
    destruct (write_fold_spec cvs df i) as [Hlen [Hrow [Hget Hcols]]].
    cbv zeta in Hlen, Hrow, Hget, Hcols.
    assert (Hsub : forall c, c ∈ List.map fst cvs -> c ∈ analysis_columns).
    { intros c Hc. apply analysis_columns_elem.
      apply list_elem_of_In in Hc. cbn in Hc.
      repeat (destruct Hc as [<-|Hc]; [reflexivity|]). destruct Hc. }
    split; [exact Hlen|]. split; [exact Hrow|]. split; [|split].
    + intros j col Hcol. apply Hget. intros Hin. apply Hcol. now apply Hsub.
    + intros Hwf. apply Hcols. intros c Hc. apply Hwf. now apply Hsub.
    + intros Hi. unfold status_of.
      apply (write_fold_last [("has_chatbot"%string, CStr ("Error: " +:+ take 100 msg))]
               [("last_analyzed"%string, CStr (clock site))] df i
               "analysis_status" (CStr "FAILED") Hi).
      intros Hin. apply list_elem_of_In in Hin. cbn in Hin.
      destruct Hin as [Hin|[]]. discriminate.
Qed.

(** What marking a row without a usable URL does to the frame. *)
Lemma write_invalid_spec (df : DataFrame) (i : nat) :
  let d := write_invalid df i in
  length (rows d) = length (rows df) /\
  (forall j, j <> i -> rows d !! j = rows df !! j) /\
  (forall j col, col ∉ analysis_columns -> get_cell d j col = get_cell df j col) /\
  (has_result_columns df -> columns d = columns df) /\
  (i < length (rows df) -> status_of d i = Some (CStr "INVALID_URL")).
Proof.
  cbv zeta.
  change (write_invalid df i) with
    (fold_left (fun d cv => set_cell d i (fst cv) (snd cv))
       [("has_chatbot"%string, CStr "Invalid URL");
        ("analysis_status"%string, CStr "INVALID_URL")] df).
  match goal with
  | |- context [fold_left _ ?l df] => set (cvs := l)
  end.
  destruct (write_fold_spec cvs df i) as [Hlen [Hrow [Hget Hcols]]].
  cbv zeta in Hlen, Hrow, Hget, Hcols.
  assert (Hsub : forall c, c ∈ List.map fst cvs -> c ∈ analysis_columns).
  { intros c Hc. apply analysis_columns_elem.
    apply list_elem_of_In in Hc. cbn in Hc.
    repeat (destruct Hc as [<-|Hc]; [reflexivity|]). destruct Hc. }
  split; [exact Hlen|]. split; [exact Hrow|]. split; [|split].
  - intros j col Hcol. apply Hget. intros Hin. apply Hcol. now apply Hsub.
  - intros Hwf. apply Hcols. intros c Hc. apply Hwf. now apply Hsub.
  - intros Hi. unfold status_of.
    apply (write_fold_last [("has_chatbot"%string, CStr "Invalid URL")] []
             df i "analysis_status" (CStr "INVALID_URL") Hi).
    intros Hin. now apply elem_of_nil in Hin.
Qed.

(** The URL column is never one of the result columns. *)
Lemma url_column_not_result (df : DataFrame) (uc : string) :
  find_url_column df = Some uc -> uc ∉ analysis_columns.
Proof.
  unfold find_url_column. intros Hfind.
  apply find_some in Hfind as [Hin _].
  intros Hres. apply str_elem_true in Hres.
  cbn in Hin.
  repeat (destruct Hin as [<-|Hin]; [discriminate|]). destruct Hin.
Qed.

Lemma valid_url_ext (d d' : DataFrame) (uc : string) (j : nat) :
  get_cell d' j uc = get_cell d j uc -> valid_url d' uc j = valid_url d uc j.
Proof. unfold valid_url. now intros ->. Qed.

Lemma has_result_columns_ext (d d' : DataFrame) :
  columns d' = columns d -> has_result_columns d -> has_result_columns d'.
Proof.
  intros Hc Hwf col Hcol. unfold has_column. rewrite Hc. now apply Hwf.
Qed.

Lemma status_of_row (d d' : DataFrame) (j : nat) :
  rows d' !! j = rows d !! j -> status_of d' j = status_of d j.
Proof. unfold status_of, get_cell. now intros ->. Qed.

Lemma omap_cons_eq {A B} (f : A -> option B) (x : A) (l : list A) :
  omap f (x :: l) =
  match f x with Some y => y :: omap f l | None => omap f l end.
Proof. reflexivity. Qed.

(** The loop that builds the task list: one task per row with a usable
    URL, in batch order; every other row of the batch is marked
    [INVALID_URL]; nothing else changes. *)
Lemma dispatch_spec (uc : string) (batch : list nat) (d : DataFrame)
  (acc : list (nat * string)) :
  uc ∉ analysis_columns ->
  has_result_columns d ->
  let r := fold_left (dispatch_step uc) batch (d, acc) in
  length (rows (fst r)) = length (rows d) /\
  (forall j col, col ∉ analysis_columns ->
                 get_cell (fst r) j col = get_cell d j col) /\
  columns (fst r) = columns d /\
  (forall j, j ∉ batch \/ is_Some (valid_url d uc j) ->
             rows (fst r) !! j = rows d !! j) /\
  (forall j, j ∈ batch -> j < length (rows d) -> valid_url d uc j = None ->
             status_of (fst r) j = Some (CStr "INVALID_URL")) /\
  snd r = acc ++ omap (fun j => pair j <$> valid_url d uc j) batch.
Proof.
  intros Huc. cbv zeta. revert d acc.
  induction batch as [|k rest IH]; intros d acc Hwf.
  - cbn [fold_left fst snd omap]. rewrite app_nil_r.
    repeat split; try reflexivity.
    intros j Hj. now apply elem_of_nil in Hj.
  - cbn [fold_left]. rewrite omap_cons_eq.
    destruct (valid_url d uc k) as [u|] eqn:Hk.
    + assert (Hstep : dispatch_step uc (d, acc) k = (d, acc ++ [(k, u)]))
        by (unfold dispatch_step; cbn [fst snd]; now rewrite Hk).
      rewrite Hstep.
      destruct (IH d (acc ++ [(k, u)]) Hwf)
        as [Hlen [Hget [Hcols [Hrow [Hinv Htasks]]]]].
      split; [exact Hlen|]. split; [exact Hget|]. split; [exact Hcols|].
      split; [|split].
      * intros j [Hj|Hj]; apply Hrow; [left|now right].
        intros Hin. apply Hj. now right.
      * intros j Hj Hlt Hnone. apply Hinv; try assumption.
        apply elem_of_cons in Hj as [->|Hj]; [congruence|assumption].
      * rewrite Htasks. cbn [fmap option_fmap option_map].
        now rewrite <- app_assoc.
    + assert (Hstep : dispatch_step uc (d, acc) k = (write_invalid d k, acc))
        by (unfold dispatch_step; cbn [fst snd]; now rewrite Hk).
      rewrite Hstep.
      destruct (write_invalid_spec d k) as [Wlen [Wrow [Wget [Wcols Wst]]]].
      cbv zeta in Wlen, Wrow, Wget, Wcols, Wst.
      assert (Hwf' : has_result_columns (write_invalid d k))
        by (apply (has_result_columns_ext d); auto).
      assert (Hvalid : forall j, valid_url (write_invalid d k) uc j =
                                 valid_url d uc j)
        by (intros j; apply valid_url_ext, Wget, Huc).
      destruct (IH (write_invalid d k) acc Hwf')
        as [Hlen [Hget [Hcols [Hrow [Hinv Htasks]]]]].
      split; [now rewrite Hlen|]. split; [|split; [|split; [|split]]].
      * intros j col Hcol. rewrite Hget by assumption. now apply Wget.
      * rewrite Hcols. now apply Wcols.
      * intros j Hj.
        assert (Hjk : j <> k).
        { destruct Hj as [Hj|[u Hj]]; intros ->;
            [apply Hj; now left|congruence]. }
        rewrite Hrow; [now apply Wrow|].
        destruct Hj as [Hj|Hj]; [left|right; now rewrite Hvalid].
        intros Hin. apply Hj. now right.
      * intros j Hj Hlt Hnone.
        destruct (decide (j ∈ rest)) as [Hin|Hout].
        -- apply Hinv; [assumption|now rewrite Wlen|now rewrite Hvalid].
        -- apply elem_of_cons in Hj as [->|Hj]; [|contradiction].
           rewrite (status_of_row (write_invalid d k)); [now apply Wst|].
           apply Hrow. now left.
      * rewrite Htasks. f_equal. cbn [fmap option_fmap option_map].
        clear -Hvalid. induction rest as [|x rest IHr]; [reflexivity|].
        rewrite !omap_cons_eq, Hvalid, IHr. reflexivity.
Qed.
(** The tasks of a batch, run one after the other: each writes its own
    row, which ends [COMPLETED] or [FAILED]. *)
Lemma run_tasks_spec `{SetOrder} (self : Self) (world : nat -> Site)
  (tasks : list (nat * string)) (d : DataFrame) :
  has_result_columns d ->
  let r := fold_left (fun d t => run_task self (world (fst t)) d t) tasks d in
  length (rows r) = length (rows d) /\
  (forall j col, col ∉ analysis_columns -> get_cell r j col = get_cell d j col) /\
  columns r = columns d /\
  (forall j, j ∉ List.map fst tasks -> rows r !! j = rows d !! j) /\
  (forall j, j ∈ List.map fst tasks -> j < length (rows d) ->
             status_of r j = Some (CStr "COMPLETED") \/
             status_of r j = Some (CStr "FAILED")).
Proof.
  cbv zeta. revert d. induction tasks as [|[k u] tasks IH]; intros d Hwf.
  - cbn [fold_left List.map]. repeat split; try reflexivity.
    intros j Hj. now apply elem_of_nil in Hj.
  - cbn [fold_left List.map fst].
    destruct (run_task_spec self (world k) d k u)
      as [Tlen [Trow [Tget [Tcols Tst]]]].
    cbv zeta in Tlen, Trow, Tget, Tcols, Tst.
    set (d1 := run_task self (world k) d (k, u)) in *.
    assert (Hwf1 : has_result_columns d1)
      by (apply (has_result_columns_ext d); auto).
    destruct (IH d1 Hwf1) as [Hlen [Hget [Hcols [Hrow Hst]]]].
    split; [now rewrite Hlen|]. split; [|split; [|split]].
    + intros j col Hcol. rewrite Hget by assumption. now apply Tget.
    + rewrite Hcols. now apply Tcols.
    + intros j Hj. rewrite Hrow.
      * apply Trow. intros ->. apply Hj. now left.
      * intros Hin. apply Hj. now right.
    + intros j Hj Hlt.
      destruct (decide (j ∈ List.map fst tasks)) as [Hin|Hout].
      * apply Hst; [assumption|now rewrite Tlen].
      * apply elem_of_cons in Hj as [->|Hj]; [|contradiction].
        rewrite (status_of_row d1) by now apply Hrow.
        rewrite (Tst Hlt).
        destruct (analyze_website self (world k) u); [now left|now right].
Qed.

Lemma crawls_batch_events (tasks : list (nat * string)) :
  crawls (List.map (fun task => EvCrawl (fst task) (snd task)) tasks ++ [EvSave])
  = tasks.
Proof.
  unfold crawls. induction tasks as [|[k u] tasks IH]; [reflexivity|].
  cbn [List.map app fst snd]. rewrite omap_cons_eq. now rewrite IH.
Qed.

Lemma crawls_app (e1 e2 : list Event) : crawls (e1 ++ e2) = crawls e1 ++ crawls e2.
Proof. unfold crawls. apply omap_app. Qed.

Lemma task_indices (df : DataFrame) (uc : string) (batch : list nat) (j : nat) :
  j ∈ List.map fst (omap (fun j => pair j <$> valid_url df uc j) batch) <->
  j ∈ batch /\ is_Some (valid_url df uc j).
Proof.
  rewrite list_elem_of_fmap. split.
  - intros [[k u] [-> Hin]]. apply list_elem_of_omap in Hin as [x [Hx Hv]].
    destruct (valid_url df uc x) as [u'|] eqn:Hux; [|discriminate].
    cbn in Hv. injection Hv as <- <-. cbn [fst]. split; [assumption|].
    rewrite Hux. now exists u'.
  - intros [Hin [u Hu]]. exists (j, u). split; [reflexivity|].
    apply list_elem_of_omap. exists j. split; [assumption|].
    now rewrite Hu.
Qed.

(** One batch. The frame keeps its shape; rows outside the batch are
    untouched; every row of the batch ends with one of the three statuses:
    [INVALID_URL] without a usable URL, else [COMPLETED] or [FAILED]; and
    the crawls are exactly the rows of the batch with a usable URL. *)
Lemma process_batch_spec `{SetOrder} (self : Self) (world : nat -> Site)
  (df : DataFrame) (batch : list nat) (uc : string) :
  find_url_column df = Some uc ->
  has_result_columns df ->
  let r := process_batch self world df batch in
  length (rows (fst r)) = length (rows df) /\
  (forall j col, col ∉ analysis_columns ->
                 get_cell (fst r) j col = get_cell df j col) /\
  columns (fst r) = columns df /\
  (forall j, j ∉ batch -> rows (fst r) !! j = rows df !! j) /\
  (forall j, j ∈ batch -> j < length (rows df) ->
     (valid_url df uc j = None ->
      status_of (fst r) j = Some (CStr "INVALID_URL")) /\
     (is_Some (valid_url df uc j) ->
      status_of (fst r) j = Some (CStr "COMPLETED") \/
      status_of (fst r) j = Some (CStr "FAILED"))) /\
  crawls (snd r) = omap (fun j => pair j <$> valid_url df uc j) batch.
Proof.
  intros Hfind Hwf. cbv zeta. unfold process_batch. rewrite Hfind.
  pose proof (url_column_not_result df uc Hfind) as Huc.
  destruct (dispatch_spec uc batch df [] Huc Hwf)
    as [Dlen [Dget [Dcols [Drow [Dinv Dtasks]]]]].
  cbv zeta in Dlen, Dget, Dcols, Drow, Dinv, Dtasks.
  unfold dispatch.
  destruct (fold_left (dispatch_step uc) batch (df, [])) as [df1 tasks] eqn:Hd.
  cbn [fst snd] in *. rewrite app_nil_l in Dtasks.
  assert (Hwf1 : has_result_columns df1)
    by (apply (has_result_columns_ext df); auto).
  destruct (run_tasks_spec self world tasks df1 Hwf1)
    as [Rlen [Rget [Rcols [Rrow Rst]]]].
  cbv zeta in Rlen, Rget, Rcols, Rrow, Rst.
  split; [now rewrite Rlen|]. split; [|split; [|split; [|split]]].
  - intros j col Hcol. rewrite Rget by assumption. now apply Dget.
  - now rewrite Rcols.
  - intros j Hj. rewrite Rrow.
    + apply Drow. now left.
    + rewrite Dtasks, task_indices. now intros [Hin _].
  - intros j Hj Hlt. split.
    + intros Hnone. rewrite (status_of_row df1).
      * now apply Dinv.
      * apply Rrow. rewrite Dtasks, task_indices. intros [_ [u Hu]]. congruence.
    + intros Hsome. apply Rst; [|now rewrite Dlen].
      rewrite Dtasks, task_indices. now split.
  - rewrite crawls_batch_events. exact Dtasks.
Qed.

Lemma NoDup_index_where (mask : Row -> bool) (df : DataFrame) :
  NoDup (index_where mask df).
Proof.
  unfold index_where. apply NoDup_ListNoDup, List.NoDup_filter.
  apply NoDup_ListNoDup, NoDup_seq.
Qed.

Lemma unprocessed_in_elem (pool : list nat) (df : DataFrame) (j : nat) :
  j ∈ unprocessed_in pool df <-> j ∈ pool /\ j ∈ unprocessed_rows df.
Proof.
  unfold unprocessed_in. rewrite list_elem_of_In, filter_In, existsb_exists.
  rewrite <- list_elem_of_In. split.
  - intros [Hu [x [Hx Heq]]]. apply Nat.eqb_eq in Heq. subst x.
    split; [now apply list_elem_of_In|assumption].
  - intros [Hp Hu]. split; [assumption|]. exists j.
    split; [now apply list_elem_of_In|apply Nat.eqb_refl].
Qed.

Lemma NoDup_unprocessed_in (pool : list nat) (df : DataFrame) :
  NoDup (unprocessed_in pool df).
Proof.
  unfold unprocessed_in. apply NoDup_ListNoDup, List.NoDup_filter.
  apply NoDup_ListNoDup, NoDup_index_where.
Qed.

(** A list without repetition that avoids the head of another and lies
    inside it is strictly shorter. *)
Lemma shorter_without_head (l1 : list nat) (h : nat) (t : list nat) :
  NoDup l1 ->
  (forall x, x ∈ l1 -> x ∈ h :: t /\ x <> h) ->
  length l1 < length (h :: t).
Proof.
  intros Hnd Hsub.
  assert (Hle : length l1 <= length t).
  { apply submseteq_length, NoDup_submseteq; [assumption|].
    intros x Hx. destruct (Hsub x Hx) as [Hin Hne].
    apply elem_of_cons in Hin as [->|Hin]; [contradiction|assumption]. }
  simpl. lia.
Qed.

Lemma take_head_elem (n h : nat) (t : list nat) : 0 < n -> h ∈ firstn n (h :: t).
Proof. destruct n; [lia|]. intros _. simpl. now left. Qed.

Lemma take_subset (n : nat) (l : list nat) (x : nat) : x ∈ firstn n l -> x ∈ l.
Proof.
  intros H. apply elem_of_take in H as [i [Hi _]].
  now apply list_elem_of_lookup_2 in Hi.
Qed.

(** After a batch taken from the unprocessed rows, the unprocessed rows
    are the earlier ones minus the batch. *)
Lemma batch_unprocessed `{SetOrder} (self : Self) (world : nat -> Site)
  (df : DataFrame) (batch : list nat) (uc : string) (j : nat) :
  find_url_column df = Some uc ->
  has_result_columns df ->
  j ∈ unprocessed_rows (fst (process_batch self world df batch)) <->
  j ∈ unprocessed_rows df /\ j ∉ batch.
Proof.
  intros Hfind Hwf.
  destruct (process_batch_spec self world df batch uc Hfind Hwf)
    as [Hlen [_ [_ [Hrow [Hst _]]]]].
  cbv zeta in Hlen, Hrow, Hst. rewrite !unprocessed_rows_elem, Hlen.
  destruct (decide (j ∈ batch)) as [Hin|Hout].
  - split; [|now intros [_ ?]].
    intros [Hlt Hnone]. exfalso.
    destruct (Hst j Hin Hlt) as [Hinv Hok].
    destruct (valid_url df uc j) as [u|] eqn:Hu.
    + destruct Hok as [Hok|Hok]; [now exists u| |]; congruence.
    + rewrite Hinv in Hnone by reflexivity. discriminate.
  - rewrite (status_of_row df) by now apply Hrow. tauto.
Qed.

Lemma NoDup_task_indices (df : DataFrame) (uc : string) (batch : list nat) :
  NoDup batch ->
  NoDup (List.map fst (omap (fun j => pair j <$> valid_url df uc j) batch)).
Proof.
  induction 1 as [|k rest Hk Hnd IH]; [constructor|].
  rewrite omap_cons_eq. destruct (valid_url df uc k) as [u|]; [|exact IH].
  cbn [fmap option_fmap option_map List.map fst]. constructor; [|exact IH].
  rewrite task_indices. now intros [Hin _].
Qed.

Lemma NoDup_firstn (n : nat) (l : list nat) : NoDup l -> NoDup (firstn n l).
Proof. intros Hnd. apply (sublist_NoDup _ l Hnd), sublist_take. Qed.

(** One batch over the first rows of a work list, followed by a run that
    achieves [phase_outcome] on what is left, achieves it on the whole
    list. *)
Lemma phase_outcome_step `{SetOrder} (self : Self) (world : nat -> Site)
  (df df' : DataFrame) (todo rest : list nat) (n : nat) (uc : string)
  (later : list Event) :
  find_url_column df = Some uc ->
  has_result_columns df ->
  NoDup todo ->
  (forall j, j ∈ todo -> j < length (rows df)) ->
  (forall j, j ∈ rest <-> j ∈ todo /\ j ∉ firstn n todo) ->
  phase_outcome rest uc (fst (process_batch self world df (firstn n todo)))
    df' later ->
  forall extra : list Event,
    crawls extra = [] ->
    phase_outcome todo uc df df'
      (snd (process_batch self world df (firstn n todo)) ++ extra ++ later).
Proof.
  intros Hfind Hwf Hnd Hlt Hrest Hout extra Hextra.
  destruct (process_batch_spec self world df (firstn n todo) uc Hfind Hwf)
    as [Blen [Bget [Bcols [Brow [Bst Bcrawls]]]]].
  cbv zeta in Blen, Bget, Bcols, Brow, Bst, Bcrawls.
  set (df1 := fst (process_batch self world df (firstn n todo))) in *.
  destruct Hout as [Olen [Ocols [Oget [Orow [Ost [Ocrawls Ond]]]]]].
  assert (Hvalid : forall j, valid_url df1 uc j = valid_url df uc j).
  { intros j. apply valid_url_ext, Bget.
    now apply (url_column_not_result df). }
  unfold phase_outcome.
  split; [now rewrite Olen|]. split; [now rewrite Ocols|].
  split; [|split; [|split; [|split]]].
  - intros j col Hcol. rewrite Oget by assumption. now apply Bget.
  - intros j Hj. rewrite Orow.
    + apply Brow. intros Hin. apply Hj. now apply take_subset in Hin.
    + rewrite Hrest. now intros [Hin _].
  - intros j Hj.
    destruct (decide (j ∈ firstn n todo)) as [Hin|Hnotin].
    + assert (Hsame : status_of df' j = status_of df1 j).
      { apply status_of_row, Orow. rewrite Hrest. now intros [_ ?]. }
      rewrite Hsame. apply Bst; [assumption|now apply Hlt].
    + rewrite <- Hvalid. apply Ost. apply Hrest. now split.
  - intros j u. rewrite !crawls_app, Hextra, app_nil_l, Bcrawls.
    intros Hin. apply elem_of_app in Hin as [Hin|Hin].
    + apply list_elem_of_omap in Hin as [x [Hx Hv]].
      destruct (valid_url df uc x) as [u'|] eqn:Hu; [|discriminate].
      cbn in Hv. injection Hv as <- <-.
      split; [now apply take_subset in Hx|assumption].
    + apply Ocrawls in Hin as [Hin Hu]. rewrite Hvalid in Hu.
      split; [|assumption]. now apply Hrest in Hin as [? _].
  - rewrite !crawls_app, Hextra, app_nil_l, Bcrawls, map_app.
    apply NoDup_app. split; [|split].
    + apply NoDup_task_indices. now apply NoDup_firstn.
    + intros j Hj Hj'. apply task_indices in Hj as [Hj _].
      apply list_elem_of_fmap in Hj' as [[j' u] [-> Hin]].
      apply Ocrawls in Hin as [Hin _]. apply Hrest in Hin as [_ Hin].
      now apply Hin.
    + exact Ond.
Qed.

Lemma find_url_column_ext (d d' : DataFrame) :
  columns d' = columns d -> find_url_column d' = find_url_column d.
Proof.
  intros Hc. unfold find_url_column. f_equal.
  unfold has_column. now rewrite Hc.
Qed.

Lemma phase_outcome_nil (uc : string) (df : DataFrame) :
  phase_outcome [] uc df df [].
Proof.
  unfold phase_outcome.
  split; [reflexivity|]. split; [reflexivity|]. split; [reflexivity|].
  split; [reflexivity|]. split; [|split].
  - intros j Hj. now apply elem_of_nil in Hj.
  - intros j u Hj. now apply elem_of_nil in Hj.
  - constructor.
Qed.

Lemma crawls_rest (self : Self) (l : list nat) :
  crawls (rest_between_batches self l) = [].
Proof. unfold rest_between_batches. now destruct (truthy_list l). Qed.

(** The loop of a retry phase ends within as many batches as it has rows
    to process, and achieves [phase_outcome] on them. *)
Lemma retry_loop_spec `{SetOrder} (self : Self) (world : nat -> Site)
  (pool : list nat) (uc : string) :
  0 < batch_size (current_settings self) ->
  forall (fuel : nat) (df : DataFrame),
    find_url_column df = Some uc ->
    has_result_columns df ->
    length (unprocessed_in pool df) <= fuel ->
    exists df' events,
      retry_loop fuel self world pool df (unprocessed_in pool df) =
      Some (df', events) /\
      phase_outcome (unprocessed_in pool df) uc df df' events.
Proof.
  intros Hsize. induction fuel as [|fuel IH]; intros df Hfind Hwf Hfuel.
  - destruct (unprocessed_in pool df) as [|h t]; [|simpl in Hfuel; lia].
    exists df, []. split; [reflexivity|apply phase_outcome_nil].
  - destruct (unprocessed_in pool df) as [|h t] eqn:HU.
    { exists df, []. split; [reflexivity|apply phase_outcome_nil]. }
    cbn [retry_loop].
    set (size := batch_size (current_settings self)) in *.
    destruct (process_batch self world df (firstn size (h :: t)))
      as [df1 events] eqn:Hpb.
    destruct (process_batch_spec self world df (firstn size (h :: t)) uc
                Hfind Hwf) as [Blen [_ [Bcols _]]].
    cbv zeta in Blen, Bcols. rewrite Hpb in Blen, Bcols. cbn [fst] in *.
    assert (Hrest : forall j, j ∈ unprocessed_in pool df1 <->
                              j ∈ h :: t /\ j ∉ firstn size (h :: t)).
    { intros j.
      assert (HUj : j ∈ h :: t <-> j ∈ pool /\ j ∈ unprocessed_rows df)
        by (rewrite <- HU; apply unprocessed_in_elem).
      pose proof (batch_unprocessed self world df (firstn size (h :: t)) uc j
                    Hfind Hwf) as Hb.
      rewrite Hpb in Hb. cbn [fst] in Hb.
      rewrite unprocessed_in_elem, Hb, HUj. tauto. }
    assert (Hshort : length (unprocessed_in pool df1) < length (h :: t)).
    { apply shorter_without_head; [apply NoDup_unprocessed_in|].
      intros x Hx. apply Hrest in Hx as [Hin Hout]. split; [assumption|].
      intros ->. apply Hout. now apply take_head_elem. }
    destruct (IH df1) as [df' [later [Hloop Hout]]].
    + now rewrite (find_url_column_ext df).
    + now apply (has_result_columns_ext df).
    + simpl in Hshort, Hfuel. lia.
    + rewrite Hloop. cbn.
      eexists _, _. split; [reflexivity|].
      pose proof (phase_outcome_step self world df df' (h :: t)
                    (unprocessed_in pool df1) size uc later Hfind Hwf) as Hstep.
      rewrite Hpb in Hstep. cbn [fst snd] in Hstep.
      apply Hstep; try assumption.
      * rewrite <- HU. apply NoDup_unprocessed_in.
      * intros j Hj. rewrite <- HU in Hj.
        apply unprocessed_in_elem in Hj as [_ Hj].
        now apply unprocessed_rows_elem in Hj as [? _].
      * apply crawls_rest.
Qed.

(** The loop of the first phase, likewise, on the unprocessed rows. *)
Lemma aggressive_loop_spec `{SetOrder} (self : Self) (world : nat -> Site)
  (uc : string) :
  0 < batch_size (current_settings self) ->
  forall (fuel : nat) (df : DataFrame),
    find_url_column df = Some uc ->
    has_result_columns df ->
    length (unprocessed_rows df) <= fuel ->
    exists df' events,
      aggressive_loop fuel self world df (unprocessed_rows df) =
      Some (df', events) /\
      phase_outcome (unprocessed_rows df) uc df df' events.
Proof.
  intros Hsize. induction fuel as [|fuel IH]; intros df Hfind Hwf Hfuel.
  - destruct (unprocessed_rows df) as [|h t]; [|simpl in Hfuel; lia].
    exists df, []. split; [reflexivity|apply phase_outcome_nil].
  - destruct (unprocessed_rows df) as [|h t] eqn:HU.
    { exists df, []. split; [reflexivity|apply phase_outcome_nil]. }
    cbn [aggressive_loop].
    set (size := batch_size (current_settings self)) in *.
    destruct (process_batch self world df (firstn size (h :: t)))
      as [df1 events] eqn:Hpb.
    destruct (process_batch_spec self world df (firstn size (h :: t)) uc
                Hfind Hwf) as [Blen [_ [Bcols _]]].
    cbv zeta in Blen, Bcols. rewrite Hpb in Blen, Bcols. cbn [fst] in *.
    assert (Hrest : forall j, j ∈ unprocessed_rows df1 <->
                              j ∈ h :: t /\ j ∉ firstn size (h :: t)).
    { intros j.
      pose proof (batch_unprocessed self world df (firstn size (h :: t)) uc j
                    Hfind Hwf) as Hb.
      rewrite Hpb in Hb. cbn [fst] in Hb. rewrite Hb, HU. tauto. }
    assert (Hshort : length (unprocessed_rows df1) < length (h :: t)).
    { apply shorter_without_head; [apply NoDup_index_where|].
      intros x Hx. apply Hrest in Hx as [Hin Hout]. split; [assumption|].
      intros ->. apply Hout. now apply take_head_elem. }
    destruct (IH df1) as [df' [later [Hloop Hout]]].
    + now rewrite (find_url_column_ext df).
    + now apply (has_result_columns_ext df).
    + simpl in Hshort, Hfuel. lia.
    + rewrite Hloop. cbn.
      eexists _, _. split; [reflexivity|].
      pose proof (phase_outcome_step self world df df' (h :: t)
                    (unprocessed_rows df1) size uc later Hfind Hwf) as Hstep.
      rewrite Hpb in Hstep. cbn [fst snd] in Hstep.
      rewrite (app_assoc (rest_between_batches self (unprocessed_rows df1))).
      apply Hstep; try assumption.
      * rewrite <- HU. apply NoDup_index_where.
      * intros j Hj. rewrite <- HU in Hj.
        now apply unprocessed_rows_elem in Hj as [? _].
      * rewrite crawls_app, crawls_rest.
        now destruct (_ =? 0).
Qed.

Lemma filter_filter_and {A} (f g : A -> bool) (l : list A) :
  List.filter f (List.filter g l) = List.filter (fun x => g x && f x) l.
Proof.
  induction l as [|x l IH]; [reflexivity|]. simpl.
  destruct (g x); simpl; [|exact IH]. destruct (f x); now rewrite IH.
Qed.

Lemma status_analysis_column : "analysis_status"%string ∈ analysis_columns.
Proof. apply str_elem_true. reflexivity. Qed.

Lemma columns_reset_status (df : DataFrame) (indices : list nat) :
  has_result_columns df -> columns (reset_status df indices) = columns df.
Proof.
  unfold reset_status. revert df.
  induction indices as [|k indices IH]; intros df Hwf; [reflexivity|].
  cbn [fold_left].
  assert (Hc : columns (clear_cell df k "analysis_status") = columns df)
    by (apply columns_clear_cell, Hwf, status_analysis_column).
  rewrite IH; [exact Hc|]. now apply (has_result_columns_ext df).
Qed.

(** The rows a retry loop finds unprocessed in its pool right after the
    phase boundary are the pool itself, in the same order. *)
Lemma retry_pool_unprocessed (df : DataFrame) :
  unprocessed_in (retry_pool df) (phase_reset df) = retry_pool df.
Proof.
  destruct (reset_status_spec (retry_pool df) df) as [Hlen [Hget _]].
  fold (phase_reset df) in Hlen, Hget.
  set (pool := retry_pool df) in *.
  transitivity
    (List.filter
       (fun index =>
          match rows df !! index with
          | Some row => cell_is "FAILED" (row !! "analysis_status"%string)
          | None => false
          end) (seq 0 (length (rows df)))); [|reflexivity].
  unfold unprocessed_in, unprocessed_rows, index_where.
  rewrite filter_filter_and, Hlen. subst pool.
  apply List.filter_ext_in. intros x Hx. apply in_seq in Hx as [_ Hx].
  cbn [Nat.add] in Hx.
  assert (Hpool : x ∈ retry_pool df <->
                  get_cell df x "analysis_status" = Some (CStr "FAILED"))
    by apply rows_with_status_elem.
  assert (Hex : existsb (Nat.eqb x) (retry_pool df) = true <->
                x ∈ retry_pool df).
  { rewrite existsb_exists. split.
    - intros [y [Hy Heq]]. apply Nat.eqb_eq in Heq. subst y.
      now apply list_elem_of_In.
    - intros Hin. exists x. split; [now apply list_elem_of_In|].
      apply Nat.eqb_refl. }
  pose proof (Hget x "analysis_status"%string) as Hgx.
  unfold get_cell in Hgx, Hpool.
  destruct (lookup_lt_is_Some_2 (rows df) x Hx) as [row Hrow].
  assert (Hx' : x < length (rows (phase_reset df))) by now rewrite Hlen.
  destruct (lookup_lt_is_Some_2 (rows (phase_reset df)) x Hx') as [row' Hrow'].
  rewrite Hrow in Hpool. rewrite Hrow, Hrow' in Hgx |- *.
  cbn [mbind option_bind] in Hgx, Hpool.
  destruct (cell_is "FAILED" (row !! "analysis_status"%string)) eqn:Hf.
  - apply cell_is_true in Hf. apply Hpool in Hf as Hin.
    rewrite (proj2 Hex Hin), andb_true_r.
    rewrite bool_decide_eq_true_2 in Hgx by now split.
    now rewrite Hgx.
  - destruct (existsb (Nat.eqb x) (retry_pool df)) eqn:He;
      [|apply andb_false_r].
    pose proof (proj1 Hex eq_refl) as Hin. apply Hpool in Hin.
    apply cell_is_true in Hin. congruence.
Qed.

(** The frame right after a phase boundary. *)
Lemma phase_reset_spec (df : DataFrame) :
  has_result_columns df ->
  length (rows (phase_reset df)) = length (rows df) /\
  columns (phase_reset df) = columns df /\
  (forall j col, col <> "analysis_status"%string ->
                 get_cell (phase_reset df) j col = get_cell df j col) /\
  (forall j, j ∉ retry_pool df -> rows (phase_reset df) !! j = rows df !! j).
Proof.
  intros Hwf. unfold phase_reset.
  destruct (reset_status_spec (retry_pool df) df) as [Hlen [Hget Hrow]].
  split; [exact Hlen|]. split; [now apply columns_reset_status|].
  split; [|exact Hrow].
  intros j col Hcol. rewrite Hget.
  rewrite bool_decide_eq_false_2; [reflexivity|]. now intros [_ ?].
Qed.

(** A retry phase ends within as many batches as its pool has rows and
    achieves [phase_outcome] on the pool, from the frame of the phase
    boundary. *)
Lemma retry_phase_spec `{SetOrder} (self : Self) (world : nat -> Site)
  (name : string) (settings : Settings) (df : DataFrame) (uc : string)
  (fuel : nat) :
  0 < batch_size settings ->
  find_url_column df = Some uc ->
  has_result_columns df ->
  length (rows df) <= fuel ->
  exists self' df' events,
    retry_phase fuel self world name settings df = Some (self', df', events) /\
    (self' = self \/ self' = set_phase self name settings) /\
    phase_outcome (retry_pool df) uc (phase_reset df) df' events.
Proof.
  intros Hsize Hfind Hwf Hfuel. unfold retry_phase.
  destruct (retry_pool df) as [|h t] eqn:Hpool.
  - cbn [truthy_list]. exists self, df, []. split; [reflexivity|].
    split; [now left|].
    assert (Hid : phase_reset df = df)
      by (unfold phase_reset; now rewrite Hpool).
    rewrite Hid. apply phase_outcome_nil.
  - cbn [truthy_list]. rewrite <- Hpool.
    destruct (phase_reset_spec df Hwf) as [Rlen [Rcols _]].
    pose proof (retry_loop_spec (set_phase self name settings) world
                  (retry_pool df) uc Hsize fuel (phase_reset df)) as Hloop.
    rewrite retry_pool_unprocessed in Hloop.
    destruct Hloop as [df' [events [Hrun Hout]]].
    + now rewrite (find_url_column_ext df).
    + now apply (has_result_columns_ext df).
    + pose proof (NoDup_index_where
                    (fun row => cell_is "FAILED" (row !! "analysis_status"%string))
                    df) as Hnd.
      fold (rows_with_status "FAILED" df) in Hnd. fold (retry_pool df) in Hnd.
      assert (Hle : length (retry_pool df) <= length (seq 0 (length (rows df)))).
      { apply submseteq_length, NoDup_submseteq; [assumption|].
        intros x Hx. apply index_where_lt in Hx.
        apply list_elem_of_In, in_seq. lia. }
      rewrite length_seq in Hle. lia.
    + rewrite Hrun. cbn.
      exists (set_phase self name settings), df', events.
      split; [reflexivity|]. split; [now right|assumption].
Qed.

Lemma NoDup_analysis_columns : NoDup analysis_columns.
Proof.
  apply (bool_decide_unpack (NoDup analysis_columns)).
  vm_compute. exact I.
Qed.

(** Adding a list of distinct columns appends those that are new, in
    order, and creates no cell. *)
Lemma add_columns_spec (cols : list string) (df : DataFrame) :
  NoDup cols ->
  rows (fold_left add_column cols df) = rows df /\
  columns (fold_left add_column cols df) =
  columns df ++ List.filter (fun c => negb (has_column df c)) cols.
Proof.
  intros Hnd. revert df. induction Hnd as [|c cols Hc Hnd IH]; intros df.
  - cbn. now rewrite app_nil_r.
  - cbn [fold_left List.filter].
    destruct (IH (add_column df c)) as [Hrows Hcols].
    rewrite Hrows, Hcols. clear Hrows Hcols.
    destruct (has_column df c) eqn:Hhas; cbn [negb].
    + assert (Hadd : add_column df c = df)
        by (unfold add_column; now rewrite Hhas).
      now rewrite Hadd.
    + assert (Hadd : add_column df c = mkDataFrame (columns df ++ [c]) (rows df))
        by (unfold add_column; now rewrite Hhas).
      rewrite Hadd. cbn [rows columns]. split; [reflexivity|].
      rewrite <- app_assoc. cbn [app]. do 2 f_equal.
      apply List.filter_ext_in. intros c' Hc'. f_equal.
      unfold has_column. cbn [columns].
      apply eq_true_iff_eq. rewrite !str_elem_true, elem_of_app.
      rewrite list_elem_of_singleton. split; [|now left].
      intros [H|Heq]; [assumption|]. subst c'. exfalso. apply Hc.
      now apply list_elem_of_In.
Qed.

(** Loading a frame: no cell changes, the result columns are appended
    when absent and only then, and all of them exist afterwards. *)
Lemma init_columns_spec (df : DataFrame) :
  rows (init_columns df) = rows df /\
  columns (init_columns df) =
    columns df ++
    List.filter (fun c => negb (has_column df c)) analysis_columns /\
  has_result_columns (init_columns df).
Proof.
  destruct (add_columns_spec analysis_columns df NoDup_analysis_columns)
    as [Hrows Hcols].
  unfold has_result_columns, init_columns.
  split; [exact Hrows|]. split; [exact Hcols|].
  intros c Hc. apply has_column_true. rewrite Hcols, elem_of_app.
  destruct (has_column df c) eqn:Hhas.
  - left. now apply has_column_true.
  - right. apply list_elem_of_In, filter_In.
    split; [now apply list_elem_of_In|now rewrite Hhas].
Qed.

Lemma init_columns_cells (df : DataFrame) (j : nat) (col : string) :
  get_cell (init_columns df) j col = get_cell df j col.
Proof.
  unfold get_cell. destruct (init_columns_spec df) as [-> _]. reflexivity.
Qed.

Lemma find_url_column_init (df : DataFrame) :
  find_url_column (init_columns df) = find_url_column df.
Proof.
  unfold find_url_column.
  destruct (init_columns_spec df) as [_ [Hcols _]].
  assert (Hext : forall c, In c url_columns ->
                           has_column (init_columns df) c = has_column df c).
  { intros c Hc. apply eq_true_iff_eq.
    rewrite !has_column_true, Hcols, elem_of_app. split; [|now left].
    intros [H|H]; [assumption|]. exfalso.
    apply list_elem_of_In, filter_In in H as [H _].
    cbn in Hc, H.
    repeat (destruct Hc as [<-|Hc];
            [repeat (destruct H as [H|H]; [discriminate|]); destruct H|]).
    destruct Hc. }
  induction url_columns as [|c l IH]; [reflexivity|].
  cbn [List.find]. rewrite Hext by now left.
  destruct (has_column df c); [reflexivity|].
  apply IH. intros c' Hc'. apply Hext. now right.
Qed.

Lemma index_where_length (mask : Row -> bool) (df : DataFrame) :
  length (index_where mask df) <= length (rows df).
Proof.
  assert (Hle : length (index_where mask df) <=
                length (seq 0 (length (rows df)))).
  { apply submseteq_length, NoDup_submseteq; [apply NoDup_index_where|].
    intros x Hx. apply index_where_lt in Hx.
    apply list_elem_of_In, in_seq. lia. }
  now rewrite length_seq in Hle.
Qed.

(** A row is crawled at most once in a list of crawls with distinct
    indices. *)
Lemma crawl_count_NoDup (l : list (nat * string)) (j : nat) :
  NoDup (List.map fst l) ->
  length (List.filter (fun t => fst t =? j) l) <= 1.
Proof.
  induction l as [|[k u] l IH]; intros Hnd; [simpl; lia|].
  cbn [List.map fst] in Hnd. apply NoDup_cons in Hnd as [Hk Hnd].
  cbn [List.filter fst]. destruct (k =? j) eqn:Hkj; [|now apply IH].
  apply Nat.eqb_eq in Hkj. subst k. cbn [length].
  assert (Hnone : List.filter (fun t => fst t =? j) l = []).
  { clear -Hk. induction l as [|[k u] l IH]; [reflexivity|].
    cbn [List.filter fst]. destruct (k =? j) eqn:Hkj.
    - apply Nat.eqb_eq in Hkj. subst k. exfalso. apply Hk.
      cbn [List.map fst]. now left.
    - apply IH. intros Hin. apply Hk. cbn [List.map]. now right. }
  rewrite Hnone. simpl. lia.
Qed.

Lemma terminal_not_none (c : option Cell) : status_terminal c -> c <> None.
Proof. intros [-> | [-> | ->]]; discriminate. Qed.

(** What a retry phase does to the statuses: a terminal status stays
    terminal, and a row that is not [FAILED] is not touched. *)
Lemma retry_phase_statuses (uc : string) (d d' : DataFrame)
  (events : list Event) :
  uc ∉ analysis_columns ->
  has_result_columns d ->
  phase_outcome (retry_pool d) uc (phase_reset d) d' events ->
  length (rows d') = length (rows d) /\
  columns d' = columns d /\
  (forall j col, col ∉ analysis_columns ->
                 get_cell d' j col = get_cell d j col) /\
  (forall j, status_of d j <> Some (CStr "FAILED") ->
             rows d' !! j = rows d !! j) /\
  (forall j, status_terminal (status_of d j) ->
             status_terminal (status_of d' j)) /\
  (forall j, is_Some (valid_url d uc j) ->
             status_of d j = Some (CStr "COMPLETED") \/
             status_of d j = Some (CStr "FAILED") ->
             status_of d' j = Some (CStr "COMPLETED") \/
             status_of d' j = Some (CStr "FAILED")) /\
  (forall j u, (j, u) ∈ crawls events ->
               status_of d j = Some (CStr "FAILED") /\
               valid_url d uc j = Some u).
Proof.
  intros Huc Hwf [Olen [Ocols [Oget [Orow [Ost [Ocrawls _]]]]]].
  destruct (phase_reset_spec d Hwf) as [Rlen [Rcols [Rget Rrow]]].
  assert (Hpool : forall j, j ∈ retry_pool d <->
                            status_of d j = Some (CStr "FAILED"))
    by (intros j; apply rows_with_status_elem).
  assert (Hnotstatus : forall col, col ∉ analysis_columns ->
                                   col <> "analysis_status"%string).
  { intros col Hcol ->. apply Hcol, status_analysis_column. }
  assert (Hvalid : forall j, valid_url (phase_reset d) uc j = valid_url d uc j)
    by (intros j; apply valid_url_ext, Rget, Hnotstatus, Huc).
  split; [now rewrite Olen|]. split; [now rewrite Ocols|].
  split; [|split; [|split; [|split]]].
  - intros j col Hcol. rewrite Oget by assumption.
    now apply Rget, Hnotstatus.
  - intros j Hj.
    assert (Hout : j ∉ retry_pool d) by (intros Hin; now apply Hpool in Hin).
    rewrite Orow by assumption. now apply Rrow.
  - intros j Hterm.
    destruct (decide (j ∈ retry_pool d)) as [Hin|Hout].
    + destruct (Ost j Hin) as [Hinv Hok].
      destruct (valid_url (phase_reset d) uc j) as [u|].
      * destruct Hok as [Hok|Hok]; [now exists u| |]; rewrite Hok;
          [now left|right; now left].
      * rewrite Hinv by reflexivity. right; now right.
    + rewrite (status_of_row d); [assumption|].
      rewrite Orow by assumption. now apply Rrow.
  - intros j Hsome Hcf.
    destruct (decide (j ∈ retry_pool d)) as [Hin|Hout].
    + destruct (Ost j Hin) as [_ Hok]. apply Hok. now rewrite Hvalid.
    + rewrite (status_of_row d); [assumption|].
      rewrite Orow by assumption. now apply Rrow.
  - intros j u Hin. apply Ocrawls in Hin as [Hin Hu].
    split; [now apply Hpool|now rewrite <- Hvalid].
Qed.

(** The whole run, for an analyzer whose three batch sizes are positive
    and a frame with a URL column: it reaches the final report within one
    batch per row and phase, and satisfies the properties below. *)
Lemma continuous_process_spec `{SetOrder} (self : Self) (world : World)
  (input : DataFrame) (uc : string) :
  find_url_column input = Some uc ->
  0 < batch_size (aggressive_settings self) ->
  0 < batch_size (conservative_settings self) ->
  0 < batch_size (patient_settings self) ->
  exists self' df events,
    continuous_process (length (rows input)) self world input =
    Some (self', df, events) /\
    length (rows df) = length (rows input) /\
    columns df = columns (init_columns input) /\
    (forall j col, col ∉ analysis_columns ->
                   get_cell df j col = get_cell input j col) /\
    (forall j, j < length (rows input) ->
               status_known (status_of input j) ->
               status_terminal (status_of df j)) /\
    (forall j, j < length (rows input) ->
               status_of input j = None ->
               valid_url input uc j = None ->
               status_of df j = Some (CStr "INVALID_URL")) /\
    (forall j, j < length (rows input) ->
               status_of input j = None ->
               is_Some (valid_url input uc j) ->
               status_of df j = Some (CStr "COMPLETED") \/
               status_of df j = Some (CStr "FAILED")) /\
    (forall j, status_of input j = Some (CStr "COMPLETED") \/
               status_of input j = Some (CStr "INVALID_URL") ->
               rows df !! j = rows input !! j) /\
    (forall j u, (j, u) ∈ crawls events -> valid_url input uc j = Some u) /\
    (forall j, length (List.filter (fun t => fst t =? j) (crawls events)) <= 3).
Proof.
  intros Hfind Hs1 Hs2 Hs3. unfold continuous_process.
  set (n := length (rows input)).
  set (self0 := set_phase (set_total self n) "Aggressive Processing"
                  (aggressive_settings (set_total self n))).
  set (df0 := init_columns input).
  destruct (init_columns_spec input) as [Irows [Icols Iwf]].
  fold df0 in Irows, Icols, Iwf.
  assert (Hfind0 : find_url_column df0 = Some uc)
    by (unfold df0; now rewrite find_url_column_init).
  pose proof (url_column_not_result input uc Hfind) as Huc.
  (* phase 1 *)
  destruct (aggressive_loop_spec self0 (world Aggressive) uc Hs1 n df0
              Hfind0 Iwf) as [df1 [ev1 [Hrun1 O1]]].
  { unfold n. rewrite <- Irows. apply index_where_length. }
  rewrite Hrun1. cbn [mbind option_bind].
  destruct O1 as [L1 [C1 [G1 [R1 [S1 [K1 N1]]]]]].
  assert (Hwf1 : has_result_columns df1)
    by (now apply (has_result_columns_ext df0)).
  assert (Hfind1 : find_url_column df1 = Some uc)
    by (now rewrite (find_url_column_ext df0)).
  (* phase 2 *)
  destruct (retry_phase_spec self0 (world ConservativeRetry)
              "Conservative Retry" (conservative_settings self0) df1 uc n
              Hs2 Hfind1 Hwf1) as [self2 [df2 [ev2 [Hrun2 [Hself2 O2]]]]].
  { unfold n. rewrite L1, Irows. lia. }
  rewrite Hrun2. cbn [mbind option_bind].
  pose proof O2 as [_ [_ [_ [_ [_ [_ N2]]]]]].
  destruct (retry_phase_statuses uc df1 df2 ev2 Huc Hwf1 O2)
    as [L2 [C2 [G2 [R2 [T2 [F2 K2]]]]]].
  assert (Hwf2 : has_result_columns df2)
    by (now apply (has_result_columns_ext df1)).
  assert (Hfind2 : find_url_column df2 = Some uc)
    by (now rewrite (find_url_column_ext df1)).
  (* phase 3 *)
  assert (Hs3' : 0 < batch_size (patient_settings self2))
    by (destruct Hself2 as [Heq|Heq]; rewrite Heq; exact Hs3).
  destruct (retry_phase_spec self2 (world PatientRetry)
              "Patient Processing" (patient_settings self2) df2 uc n
              Hs3' Hfind2 Hwf2) as [self3 [df3 [ev3 [Hrun3 [Hself3 O3]]]]].
  { unfold n. rewrite L2, L1, Irows. lia. }
  rewrite Hrun3. cbn [mbind option_bind].
  pose proof O3 as [_ [_ [_ [_ [_ [_ N3]]]]]].
  destruct (retry_phase_statuses uc df2 df3 ev3 Huc Hwf2 O3)
    as [L3 [C3 [G3 [R3 [T3 [F3 K3]]]]]].
  exists self3, df3, ([EvBackup "initial"] ++ ev1 ++ ev2 ++ ev3).
  split; [reflexivity|].
  assert (Hst0 : forall j, status_of df0 j = status_of input j)
    by (intros j; apply init_columns_cells).
  assert (Hv0 : forall j, valid_url df0 uc j = valid_url input uc j)
    by (intros j; apply valid_url_ext, init_columns_cells).
  assert (Hv1 : forall j, valid_url df1 uc j = valid_url input uc j)
    by (intros j; rewrite <- Hv0; apply valid_url_ext, G1, Huc).
  assert (Hv2 : forall j, valid_url df2 uc j = valid_url input uc j)
    by (intros j; rewrite <- Hv1; apply valid_url_ext, G2, Huc).
  split; [now rewrite L3, L2, L1, Irows|].
  split; [now rewrite C3, C2, C1|].
  split; [|split; [|split; [|split; [|split; [|split]]]]].
  - intros j col Hcol.
    rewrite G3, G2, G1 by assumption. apply init_columns_cells.
  - intros j Hj Hknown. apply T3, T2.
    destruct Hknown as [Hnone|Hterm].
    + assert (Hin : j ∈ unprocessed_rows df0).
      { apply unprocessed_rows_elem. rewrite Irows, Hst0. now split. }
      destruct (S1 j Hin) as [Hinv Hok].
      destruct (valid_url df0 uc j) as [u|].
      * destruct Hok as [Hok|Hok]; [now exists u| |]; rewrite Hok;
          [now left|right; now left].
      * rewrite Hinv by reflexivity. right; now right.
    + rewrite (status_of_row df0), Hst0; [assumption|].
      apply R1. rewrite unprocessed_rows_elem, Hst0. intros [_ Hnone].
      now apply terminal_not_none in Hterm.
  - intros j Hj Hnone Hinvalid.
    assert (Hin : j ∈ unprocessed_rows df0).
    { apply unprocessed_rows_elem. rewrite Irows, Hst0. now split. }
    destruct (S1 j Hin) as [Hinv _].
    rewrite Hv0 in Hinv. specialize (Hinv Hinvalid).
    assert (H2 : status_of df2 j = Some (CStr "INVALID_URL")).
    { rewrite (status_of_row df1); [assumption|].
      apply R2. rewrite Hinv. discriminate. }
    rewrite (status_of_row df2); [assumption|].
    apply R3. rewrite H2. discriminate.
  - intros j Hj Hnone Hsome.
    assert (Hin : j ∈ unprocessed_rows df0).
    { apply unprocessed_rows_elem. rewrite Irows, Hst0. now split. }
    destruct (S1 j Hin) as [_ Hok]. rewrite Hv0 in Hok.
    apply F3; [now rewrite Hv2|]. apply F2; [now rewrite Hv1|].
    now apply Hok.
  - intros j Hst.
    assert (H1 : rows df1 !! j = rows input !! j).
    { rewrite R1, Irows; [reflexivity|].
      rewrite unprocessed_rows_elem, Hst0. intros [_ Hnone].
      destruct Hst as [Hst|Hst]; congruence. }
    assert (Hs1j : status_of df1 j = status_of input j)
      by (rewrite <- Hst0; unfold status_of, get_cell; now rewrite H1, Irows).
    assert (H2 : rows df2 !! j = rows df1 !! j).
    { apply R2. rewrite Hs1j. destruct Hst as [Hst|Hst]; congruence. }
    assert (Hs2j : status_of df2 j = status_of input j)
      by (rewrite <- Hs1j; now apply status_of_row).
    rewrite R3, H2, H1; [reflexivity|].
    rewrite Hs2j. destruct Hst as [Hst|Hst]; congruence.
  - intros j u. rewrite !crawls_app. cbn [crawls omap list_omap app].
    change (omap _ ev1) with (crawls ev1).
    intros Hin. rewrite !elem_of_app in Hin.
    destruct Hin as [Hin|[Hin|Hin]].
    + apply K1 in Hin as [_ Hu]. now rewrite <- Hv0.
    + apply K2 in Hin as [_ Hu]. now rewrite <- Hv1.
    + apply K3 in Hin as [_ Hu]. now rewrite <- Hv2.
  - intros j. rewrite !crawls_app. cbn [crawls omap list_omap app].
    rewrite !List.filter_app, !length_app.
    pose proof (crawl_count_NoDup (crawls ev1) j N1).
    pose proof (crawl_count_NoDup (crawls ev2) j N2).
    pose proof (crawl_count_NoDup (crawls ev3) j N3).
    unfold crawls in *. lia.
Qed.


(** *** Claims about the scheduler *)

Lemma init_batch_sizes (ram_gb : nat) :
  0 < batch_size (aggressive_settings (__init__ ram_gb)) /\
  0 < batch_size (conservative_settings (__init__ ram_gb)) /\
  0 < batch_size (patient_settings (__init__ ram_gb)).
Proof. unfold __init__. destruct (32 <=? ram_gb); simpl; lia. Qed.

(** C5. On a frame with a URL column whose status cells are unset or
    hold one of the three written values, the run reaches its final report
    (within one batch per row in each phase), every row then has status
    [COMPLETED], [FAILED] or [INVALID_URL] and none is unset, and no row
    was crawled more than three times: a row that still fails in the
    patient phase stays [FAILED]. *)
Theorem run_ends_with_terminal_statuses `{SetOrder}
  (ram_gb : nat) (world : World) (input : DataFrame) (url_column : string) :
  find_url_column input = Some url_column ->
  (forall j, j < length (rows input) -> status_known (status_of input j)) ->
  exists self' df events,
    continuous_process (length (rows input)) (__init__ ram_gb) world input =
    Some (self', df, events) /\
    length (rows df) = length (rows input) /\
    (forall j, j < length (rows df) -> status_terminal (status_of df j)) /\
    (forall j, status_of df j <> None \/ length (rows df) <= j) /\
    (forall j,
        length (List.filter (fun t => fst t =? j) (crawls events)) <= 3).
Proof.
  intros Hfind Hknown.
  destruct (init_batch_sizes ram_gb) as [H1 [H2 H3]].
  destruct (continuous_process_spec (__init__ ram_gb) world input url_column
              Hfind H1 H2 H3)
    as [self' [df [events [Hrun [Hlen [_ [_ [Hterm [_ [_ [_ [_ Hcount]]]]]]]]]]]].
  exists self', df, events. split; [exact Hrun|]. split; [exact Hlen|].
  assert (Hall : forall j, j < length (rows df) ->
                           status_terminal (status_of df j)).
  { intros j Hj. rewrite Hlen in Hj. apply Hterm; [assumption|].
    now apply Hknown. }
  split; [exact Hall|]. split; [|exact Hcount].
  intros j. destruct (decide (j < length (rows df))) as [Hj|Hj]; [left|right; lia].
  now apply terminal_not_none, Hall.
Qed.

(** Three fresh rows, the first of which fails in all three phases. *)
Lemma run_ends_with_terminal_statuses_witness :
  exists self' df events,
    @continuous_process insertion_order
      (length (rows Fixtures.sample_frame)) (__init__ 48)
      Fixtures.sample_world Fixtures.sample_frame =
    Some (self', df, events) /\
    length (rows df) = length (rows Fixtures.sample_frame) /\
    (forall j, j < length (rows df) -> status_terminal (status_of df j)) /\
    (forall j, status_of df j <> None \/ length (rows df) <= j) /\
    (forall j,
        length (List.filter (fun t => fst t =? j) (crawls events)) <= 3).
Proof.
  apply (@run_ends_with_terminal_statuses insertion_order 48
           Fixtures.sample_world Fixtures.sample_frame "website").
  - reflexivity.
  - intros j Hj. left.
    destruct j as [|[|[|j]]]; [reflexivity..|simpl in Hj; lia].
Defined.

(** The sample run in full: the row that cannot be crawled is tried once
    per phase and ends [FAILED]. *)
Example sample_run_statuses :
  (fun r => match r with
            | Some (_, df, events) =>
                (List.map (fun j => status_of df j) [0; 1; 2],
                 List.map fst (crawls events))
            | None => ([], [])
            end)
    (@continuous_process insertion_order 3 (__init__ 48)
       Fixtures.sample_world Fixtures.sample_frame) =
  ([Some (CStr "FAILED"); Some (CStr "INVALID_URL"); Some (CStr "COMPLETED")],
   [0; 2; 0; 0]).
Proof. vm_compute. reflexivity. Qed.

Lemma bind_some {A B} (x : A) (f : A -> option B) : Some x ≫= f = f x.
Proof. reflexivity. Qed.

Lemma aggressive_loop_nil `{SetOrder} (fuel : nat) (self : Self)
  (world : nat -> Site) (df : DataFrame) :
  aggressive_loop fuel self world df [] = Some (df, []).
Proof. now destruct fuel. Qed.

Lemma retry_phase_empty `{SetOrder} (fuel : nat) (self : Self)
  (world : nat -> Site) (name : string) (settings : Settings)
  (df : DataFrame) :
  retry_pool df = [] ->
  retry_phase fuel self world name settings df = Some (self, df, []).
Proof. intros Hnil. unfold retry_phase. now rewrite Hnil. Qed.

Lemma index_where_none (mask : Row -> bool) (df : DataFrame) :
  (forall j row, rows df !! j = Some row -> mask row = false) ->
  index_where mask df = [].
Proof.
  intros Hall. apply elem_of_nil_inv. intros j Hj.
  apply index_where_elem in Hj as [row [Hrow Hm]].
  rewrite (Hall j row Hrow) in Hm. discriminate.
Qed.

(** C6. When every row of the loaded table already has status
    [COMPLETED], the unprocessed pool is empty, the run dispatches no crawl
    (its trace is the initial backup alone) and returns the loaded frame:
    the cells are those of the input, and the result columns that were
    absent, and only those, have been appended to the column index. *)
Theorem completed_table_dispatches_nothing `{SetOrder}
  (fuel : nat) (self : Self) (world : World) (input : DataFrame) :
  (forall j row, rows input !! j = Some row ->
                 row !! "analysis_status"%string = Some (CStr "COMPLETED")) ->
  unprocessed_rows (init_columns input) = [] /\
  (exists self',
      continuous_process fuel self world input =
      Some (self', init_columns input, [EvBackup "initial"])) /\
  crawls [EvBackup "initial"] = [] /\
  rows (init_columns input) = rows input /\
  columns (init_columns input) =
    columns input ++
    List.filter (fun c => negb (has_column input c)) analysis_columns.
Proof.
  intros Hall.
  destruct (init_columns_spec input) as [Irows [Icols _]].
  assert (Hun : unprocessed_rows (init_columns input) = []).
  { apply index_where_none. rewrite Irows. intros j row Hrow.
    now rewrite (Hall j row Hrow). }
  assert (Hpool : retry_pool (init_columns input) = []).
  { apply index_where_none. rewrite Irows. intros j row Hrow.
    now rewrite (Hall j row Hrow). }
  split; [exact Hun|]. split; [|split; [reflexivity|split; assumption]].
  unfold continuous_process.
  generalize dependent (init_columns input). intros df0 _ _ Hun Hpool.
  rewrite Hun, aggressive_loop_nil, bind_some.
  rewrite (retry_phase_empty _ _ _ _ _ _ Hpool), bind_some.
  rewrite (retry_phase_empty _ _ _ _ _ _ Hpool), bind_some.
  eexists. reflexivity.
Qed.

Lemma completed_table_dispatches_nothing_witness :
  unprocessed_rows (init_columns Fixtures.completed_frame) = [] /\
  (exists self',
      @continuous_process insertion_order 5 (__init__ 48)
        Fixtures.sample_world Fixtures.completed_frame =
      Some (self', init_columns Fixtures.completed_frame,
            [EvBackup "initial"])) /\
  crawls [EvBackup "initial"] = [] /\
  rows (init_columns Fixtures.completed_frame) = rows Fixtures.completed_frame /\
  columns (init_columns Fixtures.completed_frame) =
    columns Fixtures.completed_frame ++
    List.filter (fun c => negb (has_column Fixtures.completed_frame c))
      analysis_columns.
Proof.
  apply (@completed_table_dispatches_nothing insertion_order 5 (__init__ 48)
           Fixtures.sample_world Fixtures.completed_frame).
  intros j row Hrow.
  destruct j as [|[|j]]; simpl in Hrow; [| |discriminate];
    injection Hrow as <-; reflexivity.
Defined.


Lemma clean_url_none (c : option Cell) :
  clean_url c = None <->
  c = None \/ c = Some (CStr "") \/ c = Some (CInt 0).
Proof.
  destruct c as [[s|n]|]; cbn.
  - destruct s; cbn; split; try discriminate; intros; auto.
    destruct H as [H|[H|H]]; discriminate.
  - destruct n; cbn; split; try discriminate; intros; auto.
    destruct H as [H|[H|H]]; discriminate.
  - split; auto.
Qed.




(** *** The root page of a crawl *)







End SchedulerFacts.

(** ** The semaphore of a batch *)

Module ConcurrencyFacts.
Import PyStr Analyzer Crawler Scheduler Concurrency FrameFacts SchedulerFacts.

Lemma in_flight_cons (st : TaskState) (l : list TaskState) (v : nat)
  (t : DataFrame) :
  in_flight (mkPool v (st :: l) t) =
  (if bool_decide (st = Running) then 1 else 0) + in_flight (mkPool v l t).
Proof.
  unfold in_flight. cbn [states List.filter].
  now destruct (bool_decide (st = Running)).
Qed.

(** Changing the state of one task changes the number in flight by the
    difference between its new and its old state. *)
Lemma in_flight_insert (l : list TaskState) (k : nat) (old new : TaskState)
  (v v' : nat) (t t' : DataFrame) :
  l !! k = Some old ->
  in_flight (mkPool v' (<[k := new]> l) t') +
    (if bool_decide (old = Running) then 1 else 0) =
  in_flight (mkPool v l t) + (if bool_decide (new = Running) then 1 else 0).
Proof.
  revert k. induction l as [|st l IH]; intros k Hk; [discriminate|].
  destruct k as [|k].
  - cbn in Hk. injection Hk as ->.
    change (<[0 := new]> (old :: l)) with (new :: l).
    rewrite !in_flight_cons. unfold in_flight. cbn [states].
    destruct (bool_decide (old = Running)), (bool_decide (new = Running)); lia.
  - cbn in Hk. change (<[S k := new]> (st :: l)) with (st :: <[k := new]> l).
    rewrite !in_flight_cons. specialize (IH k Hk). lia.
Qed.

Lemma in_flight_initial (self : Self) (tasks : list (nat * string))
  (df : DataFrame) :
  in_flight (initial_pool self tasks df) = 0.
Proof.
  unfold initial_pool, in_flight. cbn [states].
  induction tasks as [|t tasks IH]; [reflexivity|]. exact IH.
Qed.

(** The invariant of the semaphore: free units plus crawls in flight make
    up the configured concurrency, and every task has a state. *)
Lemma reachable_invariant `{SetOrder} (self : Self) (world : nat -> Site)
  (tasks : list (nat * string)) (df : DataFrame) (p : Pool) :
  reachable self world tasks df p ->
  value p + in_flight p = concurrency (current_settings self) /\
  length (states p) = length tasks.
Proof.
  unfold reachable. intros Hreach.
  apply rtc_ind_r with
    (P := fun p => value p + in_flight p = concurrency (current_settings self)
                   /\ length (states p) = length tasks)
    (x := initial_pool self tasks df) in Hreach; [exact Hreach| |].
  - rewrite in_flight_initial. unfold initial_pool. cbn [value states].
    split; [lia|apply length_map].
  - intros q r _ Hstep [Hval Hlen]. destruct Hstep as [k q Hk Hpos|k task q Hk Htask].
    + cbn [value states]. rewrite length_insert. split; [|exact Hlen].
      pose proof (in_flight_insert (states q) k Waiting Running (value q)
                    (value q - 1) (table q) (table q) Hk) as Hins.
      rewrite bool_decide_eq_false_2, bool_decide_eq_true_2 in Hins
        by congruence.
      destruct q as [v l t]. cbn [value states table] in *. lia.
    + cbn [value states]. rewrite length_insert. split; [|exact Hlen].
      pose proof (in_flight_insert (states q) k Running Finished (value q)
                    (value q + 1) (table q)
                    (run_task self (world (fst task)) (table q) task) Hk)
        as Hins.
      rewrite bool_decide_eq_true_2, bool_decide_eq_false_2 in Hins
        by congruence.
      destruct q as [v l t]. cbn [value states table] in *. lia.
Qed.



End ConcurrencyFacts.

(** ** Cleaning a URL cell *)

Module CleanUrlFacts.
Import PyStr Analyzer Crawler Scheduler PyStrFacts FrameFacts SchedulerFacts.

(** What [rstrip] leaves does not end with a stripped character. *)
Lemma rstrip_by_last (f : ascii -> bool) (s : string) (c : ascii) :
  last_char (rstrip_by f s) = Some c -> f c = false.
Proof.
  induction s as [|a s IH]; [discriminate|].
  cbn [rstrip_by]. destruct (rstrip_by f s) as [|b r] eqn:Hr.
  - destruct (f a) eqn:Hfa; [discriminate|].
    cbn. now intros [= <-].
  - cbn [last_char]. exact IH.
Qed.

(** [rstrip] keeps a prefix whose last character is not stripped. *)
Lemma rstrip_by_prefix (f : ascii -> bool) (s p : string) (c : ascii) :
  startswith s p = true ->
  last_char p = Some c ->
  f c = false ->
  startswith (rstrip_by f s) p = true.
Proof.
  revert s. induction p as [|a p IH]; intros s Hs Hlast Hf; [reflexivity|].
  destruct s as [|d s]; [discriminate|].
  cbn [startswith] in Hs. apply andb_true_iff in Hs as [Had Hs].
  apply Ascii.eqb_eq in Had. subst d.
  cbn [rstrip_by]. destruct p as [|b p].
  - cbn in Hlast. injection Hlast as ->. rewrite Hf.
    destruct (rstrip_by f s); cbn [startswith]; now rewrite Ascii.eqb_refl.
  - assert (Hlast' : last_char (String b p) = Some c) by exact Hlast.
    specialize (IH s Hs Hlast' Hf).
    destruct (rstrip_by f s) as [|e r]; [discriminate|].
    cbn [startswith] in *. now rewrite Ascii.eqb_refl, IH.
Qed.

Lemma startswith_shorter (s p q : string) :
  startswith s (p +:+ q) = true -> startswith s p = true.
Proof.
  revert s. induction p as [|a p IH]; intros s Hs; [reflexivity|].
  rewrite app_cons in Hs. destruct s as [|d s]; [discriminate|].
  cbn [startswith] in *. apply andb_true_iff in Hs as [Had Hs].
  now rewrite Had, (IH s Hs).
Qed.

Lemma startswith_nonempty (s p : string) :
  startswith s p = true -> truthy_str p = true -> truthy_str s = true.
Proof. destruct p; [discriminate|]. now destruct s. Qed.

(** X1. [clean_url] rejects exactly the missing, empty and zero cells. Any
    other value gets a result that is not empty (so the [if clean_url:]
    test can only fail on [None]), does not end with a slash and starts
    with [http:] or [https:]; a value made of white space alone is cleaned
    to the bare scheme [https:]. *)
Theorem clean_url_shape (c : option Cell) :
  (clean_url c = None <->
   c = None \/ c = Some (CStr "") \/ c = Some (CInt 0)) /\
  (forall u, clean_url c = Some u ->
     truthy_str u = true /\
     last_char u <> Some "/"%char /\
     (startswith u "http:" = true \/ startswith u "https:" = true)) /\
  (forall s, c = Some (CStr s) -> truthy_str s = true -> strip s = ""%string ->
             clean_url c = Some "https:"%string).
Proof.
  split; [apply clean_url_none|]. split.
  - intros u Hu. unfold clean_url in Hu.
    destruct c as [c|]; [|discriminate].
    destruct (cell_falsy c); [discriminate|].
    injection Hu as <-. unfold rstrip_slash.
    set (raw := strip (cell_str c)).
    assert (Hprefix :
      startswith
        (rstrip_by (Ascii.eqb "/")
           (if startswith raw "http://" || startswith raw "https://"
            then raw else "https://" +:+ raw)) "http:" = true \/
      startswith
        (rstrip_by (Ascii.eqb "/")
           (if startswith raw "http://" || startswith raw "https://"
            then raw else "https://" +:+ raw)) "https:" = true).
    { destruct (startswith raw "http://") eqn:H1; cbn [orb].
      - left. apply (rstrip_by_prefix _ _ _ ":"%char); try reflexivity.
        now apply (startswith_shorter raw "http:" "//").
      - destruct (startswith raw "https://") eqn:H2; right;
          apply (rstrip_by_prefix _ _ _ ":"%char); try reflexivity.
        now apply (startswith_shorter raw "https:" "//"). }
    split; [|split; [|exact Hprefix]].
    + destruct Hprefix as [H|H];
        now apply (startswith_nonempty _ _ H).
    + intros Hlast. apply rstrip_by_last in Hlast. discriminate.
  - intros s -> Hs Hstrip. unfold clean_url. cbn [cell_falsy cell_str].
    rewrite Hs, Hstrip. reflexivity.
Qed.

End CleanUrlFacts.

(** ** Resuming and finishing a run *)

Module RunFacts.
Import PyStr Analyzer Crawler Scheduler PyStrFacts FrameFacts SchedulerFacts.

(** Every crawl of a run is for a row that had no status, or the status
    [FAILED], when the run started. *)
Lemma continuous_process_crawled `{SetOrder} (self : Self) (world : World)
  (input : DataFrame) (uc : string) :
  find_url_column input = Some uc ->
  0 < batch_size (aggressive_settings self) ->
  0 < batch_size (conservative_settings self) ->
  0 < batch_size (patient_settings self) ->
  exists self' df events,
    continuous_process (length (rows input)) self world input =
    Some (self', df, events) /\
    (forall j u, (j, u) ∈ crawls events ->
                 status_of input j = None \/
                 status_of input j = Some (CStr "FAILED")).
Proof.
  intros Hfind Hs1 Hs2 Hs3. unfold continuous_process.
  set (n := length (rows input)).
  set (self0 := set_phase (set_total self n) "Aggressive Processing"
                  (aggressive_settings (set_total self n))).
  destruct (init_columns_spec input) as [Irows [Icols Iwf]].
  assert (Hfind0 : find_url_column (init_columns input) = Some uc)
    by now rewrite find_url_column_init.
  assert (Hst0 : forall j, status_of (init_columns input) j = status_of input j)
    by (intros j; apply init_columns_cells).
  generalize dependent (init_columns input). intros df0 Irows _ Iwf Hfind0 Hst0.
  pose proof (url_column_not_result input uc Hfind) as Huc.
  destruct (aggressive_loop_spec self0 (world Aggressive) uc Hs1 n df0
              Hfind0 Iwf) as [df1 [ev1 [Hrun1 O1]]].
  { unfold n. rewrite <- Irows. apply index_where_length. }
  rewrite Hrun1, bind_some.
  destruct O1 as [L1 [C1 [G1 [R1 [S1 [K1 N1]]]]]].
  assert (Hwf1 : has_result_columns df1)
    by (now apply (has_result_columns_ext df0)).
  assert (Hfind1 : find_url_column df1 = Some uc)
    by (now rewrite (find_url_column_ext df0)).
  destruct (retry_phase_spec self0 (world ConservativeRetry)
              "Conservative Retry" (conservative_settings self0) df1 uc n
              Hs2 Hfind1 Hwf1) as [self2 [df2 [ev2 [Hrun2 [Hself2 O2]]]]].
  { unfold n. rewrite L1, Irows. lia. }
  rewrite Hrun2, bind_some.
  destruct (retry_phase_statuses uc df1 df2 ev2 Huc Hwf1 O2)
    as [L2 [C2 [G2 [R2 [T2 [F2 K2]]]]]].
  assert (Hwf2 : has_result_columns df2)
    by (now apply (has_result_columns_ext df1)).
  assert (Hfind2 : find_url_column df2 = Some uc)
    by (now rewrite (find_url_column_ext df1)).
  assert (Hs3' : 0 < batch_size (patient_settings self2))
    by (destruct Hself2 as [Heq|Heq]; rewrite Heq; exact Hs3).
  destruct (retry_phase_spec self2 (world PatientRetry)
              "Patient Processing" (patient_settings self2) df2 uc n
              Hs3' Hfind2 Hwf2) as [self3 [df3 [ev3 [Hrun3 [Hself3 O3]]]]].
  { unfold n. rewrite L2, L1, Irows. lia. }
  rewrite Hrun3, bind_some.
  destruct (retry_phase_statuses uc df2 df3 ev3 Huc Hwf2 O3)
    as [L3 [C3 [G3 [R3 [T3 [F3 K3]]]]]].
  exists self3, df3, ([EvBackup "initial"] ++ ev1 ++ ev2 ++ ev3).
  split; [reflexivity|].
  assert (Hfailed1 : forall j, status_of df1 j = Some (CStr "FAILED") ->
             status_of input j = None \/
             status_of input j = Some (CStr "FAILED")).
  { intros j Hf. destruct (decide (j ∈ unprocessed_rows df0)) as [Hin|Hout].
    - left. apply unprocessed_rows_elem in Hin as [_ Hnone].
      now rewrite <- Hst0.
    - right. rewrite <- Hst0, <- Hf. symmetry.
      now apply status_of_row, R1. }
  intros j u Hin. rewrite !crawls_app in Hin.
  change (crawls [EvBackup "initial"]) with (@nil (nat * string)) in Hin.
  rewrite app_nil_l, !elem_of_app in Hin.
  destruct Hin as [Hin|[Hin|Hin]].
  - apply K1 in Hin as [Hin _]. left.
    apply unprocessed_rows_elem in Hin as [_ Hnone]. now rewrite <- Hst0.
  - apply K2 in Hin as [Hf _]. now apply Hfailed1.
  - apply K3 in Hin as [Hf _]. apply Hfailed1.
    destruct (decide (j ∈ retry_pool df1)) as [Hp|Hp].
    + now apply rows_with_status_elem in Hp.
    + rewrite <- Hf. symmetry. apply status_of_row, R2.
      intros Hcontra. apply Hp. now apply rows_with_status_elem.
Qed.

(** X2. Resuming never redoes finished work: a row that is [COMPLETED] or
    [INVALID_URL] when the run starts keeps all its cells and is not
    crawled in any phase. *)
Theorem resumed_rows_are_left_alone `{SetOrder}
  (ram_gb : nat) (world : World) (input : DataFrame) (url_column : string)
  (j : nat) :
  find_url_column input = Some url_column ->
  status_of input j = Some (CStr "COMPLETED") \/
  status_of input j = Some (CStr "INVALID_URL") ->
  exists self' df events,
    continuous_process (length (rows input)) (__init__ ram_gb) world input =
    Some (self', df, events) /\
    rows df !! j = rows input !! j /\
    (forall u, (j, u) ∉ crawls events).
Proof.
  intros Hfind Hst.
  destruct (init_batch_sizes ram_gb) as [H1 [H2 H3]].
  destruct (continuous_process_spec (__init__ ram_gb) world input url_column
              Hfind H1 H2 H3)
    as [self' [df [events [Hrun [_ [_ [_ [_ [_ [_ [Hkeep _]]]]]]]]]]].
  destruct (continuous_process_crawled (__init__ ram_gb) world input
              url_column Hfind H1 H2 H3)
    as [self'' [df' [events' [Hrun' Hcr]]]].
  rewrite Hrun in Hrun'. injection Hrun' as <- <- <-.
  exists self', df, events. split; [exact Hrun|]. split; [now apply Hkeep|].
  intros u Hin. apply Hcr in Hin.
  destruct Hst as [Hst|Hst], Hin as [Hin|Hin]; congruence.
Qed.

Lemma resumed_rows_are_left_alone_witness :
  exists self' df events,
    @continuous_process insertion_order
      (length (rows Fixtures.completed_frame)) (__init__ 48)
      Fixtures.sample_world Fixtures.completed_frame =
    Some (self', df, events) /\
    rows df !! 1 = rows Fixtures.completed_frame !! 1 /\
    (forall u, (1, u) ∉ crawls events).
Proof.
  apply (@resumed_rows_are_left_alone insertion_order 48
           Fixtures.sample_world Fixtures.completed_frame "website" 1).
  - reflexivity.
  - left. reflexivity.
Defined.

(** X3. A run never alters the input data: the frame keeps its rows, every
    cell outside the fifteen result columns is as in the input, and the
    column index is the input's followed by the result columns that were
    absent. *)
Theorem input_data_is_preserved `{SetOrder}
  (ram_gb : nat) (world : World) (input : DataFrame) (url_column : string) :
  find_url_column input = Some url_column ->
  exists self' df events,
    continuous_process (length (rows input)) (__init__ ram_gb) world input =
    Some (self', df, events) /\
    length (rows df) = length (rows input) /\
    columns df =
      columns input ++
      List.filter (fun c => negb (has_column input c)) analysis_columns /\
    (forall j col, col ∉ analysis_columns ->
                   get_cell df j col = get_cell input j col).
Proof.
  intros Hfind.
  destruct (init_batch_sizes ram_gb) as [H1 [H2 H3]].
  destruct (continuous_process_spec (__init__ ram_gb) world input url_column
              Hfind H1 H2 H3)
    as [self' [df [events [Hrun [Hlen [Hcols [Hget _]]]]]]].
  exists self', df, events. split; [exact Hrun|]. split; [exact Hlen|].
  split; [|exact Hget].
  rewrite Hcols. apply init_columns_spec.
Qed.

Lemma input_data_is_preserved_witness :
  exists self' df events,
    @continuous_process insertion_order
      (length (rows Fixtures.sample_frame)) (__init__ 48)
      Fixtures.sample_world Fixtures.sample_frame =
    Some (self', df, events) /\
    length (rows df) = length (rows Fixtures.sample_frame) /\
    columns df =
      columns Fixtures.sample_frame ++
      List.filter (fun c => negb (has_column Fixtures.sample_frame c))
        analysis_columns /\
    (forall j col, col ∉ analysis_columns ->
                   get_cell df j col = get_cell Fixtures.sample_frame j col).
Proof.
  apply (@input_data_is_preserved insertion_order 48 Fixtures.sample_world
           Fixtures.sample_frame "website").
  reflexivity.
Defined.

(** X4. A pending row with a usable URL is never marked [INVALID_URL]: it
    ends [COMPLETED] or [FAILED]; and every crawl of the run is made under
    the cleaned URL of its own row. *)
Theorem usable_url_is_crawled `{SetOrder}
  (ram_gb : nat) (world : World) (input : DataFrame) (url_column : string) :
  find_url_column input = Some url_column ->
  exists self' df events,
    continuous_process (length (rows input)) (__init__ ram_gb) world input =
    Some (self', df, events) /\
    (forall j, j < length (rows input) ->
               status_of input j = None ->
               is_Some (valid_url input url_column j) ->
               status_of df j = Some (CStr "COMPLETED") \/
               status_of df j = Some (CStr "FAILED")) /\
    (forall j u, (j, u) ∈ crawls events ->
                 valid_url input url_column j = Some u).
Proof.
  intros Hfind.
  destruct (init_batch_sizes ram_gb) as [H1 [H2 H3]].
  destruct (continuous_process_spec (__init__ ram_gb) world input url_column
              Hfind H1 H2 H3)
    as [self' [df [events [Hrun [_ [_ [_ [_ [_ [Hcf [_ [Hcr _]]]]]]]]]]]].
  exists self', df, events. split; [exact Hrun|]. now split.
Qed.

Lemma usable_url_is_crawled_witness :
  exists self' df events,
    @continuous_process insertion_order
      (length (rows Fixtures.sample_frame)) (__init__ 48)
      Fixtures.sample_world Fixtures.sample_frame =
    Some (self', df, events) /\
    (forall j, j < length (rows Fixtures.sample_frame) ->
               status_of Fixtures.sample_frame j = None ->
               is_Some (valid_url Fixtures.sample_frame "website" j) ->
               status_of df j = Some (CStr "COMPLETED") \/
               status_of df j = Some (CStr "FAILED")) /\
    (forall j u, (j, u) ∈ crawls events ->
                 valid_url Fixtures.sample_frame "website" j = Some u).
Proof.
  apply (@usable_url_is_crawled insertion_order 48 Fixtures.sample_world
           Fixtures.sample_frame "website").
  reflexivity.
Defined.

(** Without a URL column a batch does nothing at all. *)
Lemma process_batch_without_url_column `{SetOrder} (self : Self)
  (world : nat -> Site) (df : DataFrame) (batch : list nat) :
  find_url_column df = None -> process_batch self world df batch = (df, []).
Proof. intros Hnone. unfold process_batch. now rewrite Hnone. Qed.

Lemma aggressive_loop_stuck `{SetOrder} (self : Self) (world : nat -> Site)
  (df : DataFrame) (fuel : nat) :
  find_url_column df = None ->
  unprocessed_rows df <> [] ->
  aggressive_loop fuel self world df (unprocessed_rows df) = None.
Proof.
  intros Hnone Hrows. induction fuel as [|fuel IH].
  - destruct (unprocessed_rows df); [contradiction|reflexivity].
  - destruct (unprocessed_rows df) as [|h t] eqn:HU; [contradiction|].
    cbn [aggressive_loop]. rewrite process_batch_without_url_column by assumption.
    rewrite HU, IH. reflexivity.
Qed.

(** X5. When the frame has none of the ten URL column names and at least one
    row without a status, every batch returns at once without writing, the
    same rows are found unprocessed again, and the run never reaches its
    final report: no number of batches suffices. *)
Theorem missing_url_column_never_ends `{SetOrder}
  (fuel : nat) (self : Self) (world : World) (input : DataFrame) :
  find_url_column input = None ->
  unprocessed_rows input <> [] ->
  continuous_process fuel self world input = None.
Proof.
  intros Hnone Hrows. unfold continuous_process.
  assert (Hnone0 : find_url_column (init_columns input) = None)
    by now rewrite find_url_column_init.
  assert (Hrows0 : unprocessed_rows (init_columns input) <> []).
  { unfold unprocessed_rows, index_where in *.
    destruct (init_columns_spec input) as [-> _]. exact Hrows. }
  generalize dependent (init_columns input). intros df0 Hnone0 Hrows0.
  now rewrite aggressive_loop_stuck.
Qed.

Lemma missing_url_column_never_ends_witness :
  @continuous_process insertion_order 1000 (__init__ 48)
    Fixtures.sample_world Fixtures.no_url_frame = None.
Proof.
  apply (@missing_url_column_never_ends insertion_order 1000 (__init__ 48)
           Fixtures.sample_world Fixtures.no_url_frame).
  - reflexivity.
  - discriminate.
Defined.

End RunFacts.
(** ** What a page and a site analysis report *)

Module PageFacts.
Import PyStr Re Url Analyzer Classifier Crawler PyStrFacts ExtractorFacts
  CrawlerFacts.

Lemma detect_known_closed (table : PatternTable) (content : string)
  (acc : list string) :
  NoDup (List.map fst table) ->
  (forall t, t ∈ List.map fst table -> t ∉ acc) ->
  detect_known table content acc =
  acc ++ List.map fst
           (List.filter (fun entry => any_in (snd entry) content) table).
Proof.
  unfold detect_known. revert acc.
  induction table as [|[ty ps] table IH]; intros acc Hnd Hacc.
  - simpl. now rewrite app_nil_r.
  - cbn [List.map fst] in Hnd. apply NoDup_cons in Hnd as [Hty Hnd].
    cbn [fold_left List.filter snd]. unfold known_step at 2. cbn [fst snd].
    destruct (any_in ps content) eqn:Hps.
    + assert (Hel : str_elem ty acc = false).
      { destruct (str_elem ty acc) eqn:Hel; [|reflexivity].
        apply str_elem_true in Hel. exfalso. apply (Hacc ty); [|assumption].
        cbn [List.map fst]. now left. }
      rewrite Hel, IH; [|assumption|].
      * cbn [List.map fst]. now rewrite <- app_assoc.
      * intros t Ht Hin. apply elem_of_app in Hin as [Hin|Hin].
        -- apply (Hacc t); [|assumption]. cbn [List.map]. now right.
        -- apply list_elem_of_singleton in Hin. now subst t.
    + apply IH; [assumption|].
      intros t Ht. apply Hacc. cbn [List.map]. now right.
Qed.

Lemma NoDup_fst_filter {A B} (p : A * B -> bool) (l : list (A * B)) :
  NoDup (List.map fst l) -> NoDup (List.map fst (List.filter p l)).
Proof.
  induction l as [|x l IH]; intros Hnd; [constructor|].
  cbn [List.map] in Hnd. apply NoDup_cons in Hnd as [Hx Hnd].
  cbn [List.filter]. destruct (p x); [|now apply IH].
  cbn [List.map]. apply NoDup_cons. split; [|now apply IH].
  intros Hin. apply Hx. apply list_elem_of_fmap in Hin as [y [Hy Hin]].
  apply list_elem_of_fmap. exists y. split; [assumption|].
  apply list_elem_of_In in Hin. apply filter_In in Hin as [Hin _].
  now apply list_elem_of_In.
Qed.

(** X6. A known-signature loop over a table with distinct keys reports
    the providers with a keyword in the content, each once and in the
    order of the table; the booking and OTA tags of a page are these
    followed by the tags of the behavioral detectors. *)
Theorem known_tags_follow_the_table (self : Self)
  (html_content page_text page_url : string) :
  NoDup (List.map fst (booking_patterns self)) ->
  NoDup (List.map fst (ota_patterns self)) ->
  let content := combined html_content page_text in
  let hits (table : PatternTable) :=
    List.map fst
      (List.filter (fun entry => any_in (snd entry) content) table) in
  let a := analyze_page_content self html_content page_text page_url in
  booking_technology a =
    hits (booking_patterns self) ++
    _detect_unknown_booking_system html_content page_text /\
  ota_dependencies a =
    hits (ota_patterns self) ++
    _detect_unknown_ota_integration html_content page_text page_url /\
  NoDup (hits (booking_patterns self)) /\
  NoDup (hits (ota_patterns self)).
Proof.
  intros Hb Ho. cbv zeta. unfold analyze_page_content.
  cbn [booking_technology ota_dependencies].
  rewrite !detect_known_closed; try assumption;
    try (intros t _ Hin; now apply elem_of_nil in Hin).
  cbn [app]. split; [reflexivity|]. split; [reflexivity|].
  split; now apply NoDup_fst_filter.
Qed.

Lemma known_tags_follow_the_table_witness :
  let self := __init__ 48 in
  let content := combined "<a class='fh-button'>" "Pay with PayPal" in
  let hits (table : PatternTable) :=
    List.map fst
      (List.filter (fun entry => any_in (snd entry) content) table) in
  let a :=
    analyze_page_content self "<a class='fh-button'>" "Pay with PayPal"
      "https://alpha.example" in
  booking_technology a =
    hits (booking_patterns self) ++
    _detect_unknown_booking_system "<a class='fh-button'>" "Pay with PayPal" /\
  ota_dependencies a =
    hits (ota_patterns self) ++
    _detect_unknown_ota_integration "<a class='fh-button'>" "Pay with PayPal"
      "https://alpha.example" /\
  NoDup (hits (booking_patterns self)) /\
  NoDup (hits (ota_patterns self)).
Proof.
  apply (known_tags_follow_the_table (__init__ 48) "<a class='fh-button'>"
           "Pay with PayPal" "https://alpha.example").
  - apply NoDup_ListNoDup. vm_compute. repeat constructor; simpl; intuition discriminate.
  - apply NoDup_ListNoDup. vm_compute. repeat constructor; simpl; intuition discriminate.
Defined.

(** The first loop of the behavioral detector, in closed form. *)
Lemma ui_fold (html : string) (pats : list re) (score : nat)
  (ev : list string) :
  fold_left (ui_step html) pats (score, ev) =
  (score + list_sum (List.map (fun p => findall_count p html) pats),
   ev ++ List.map ui_evidence
           (List.filter (fun n => 0 <? n)
              (List.map (fun p => findall_count p html) pats))).
Proof.
  revert score ev. induction pats as [|p pats IH]; intros score ev.
  - simpl. f_equal; [lia|now rewrite app_nil_r].
  - cbn [fold_left List.map List.filter].
    change (list_sum (findall_count p html ::
                      List.map (fun p => findall_count p html) pats))
      with (findall_count p html +
            list_sum (List.map (fun p => findall_count p html) pats)).
    unfold ui_step at 2. cbn [fst snd].
    destruct (0 <? findall_count p html) eqn:Hn.
    + rewrite IH. f_equal; [lia|].
      cbn [List.map]. now rewrite <- app_assoc.
    + apply Nat.ltb_ge in Hn. rewrite IH. f_equal. lia.
Qed.

Lemma positive_sum_has_positive (l : list nat) :
  0 < list_sum l -> List.filter (fun n => 0 <? n) l <> [].
Proof.
  induction l as [|n l IH]; simpl; [lia|].
  destruct n as [|n]; simpl; [exact IH|discriminate].
Qed.

(** X7. The behavioral chatbot detector in closed form: the score is the
    number of matches of the fifteen UI patterns plus two for every text
    phrase found; a chatbot is likely from five points on; the evidence is
    one entry per UI pattern that matched and one per phrase found, and is
    withheld below five points. Text alone needs three phrases. *)
Theorem behavioral_score_closed_form (html_content page_text : string) :
  let matches :=
    List.map (fun pattern => findall_count pattern html_content)
      chat_ui_indicators in
  let phrases :=
    List.filter (fun indicator => str_in indicator (lower page_text))
      chat_text_indicators in
  let d := _detect_unknown_chatbot html_content page_text in
  confidence_score d = list_sum matches + 2 * length phrases /\
  likely_chatbot d = (5 <=? confidence_score d) /\
  evidence d =
    (if likely_chatbot d
     then List.map ui_evidence (List.filter (fun n => 0 <? n) matches) ++
          List.map text_evidence phrases
     else []) /\
  (likely_chatbot d = true -> evidence d <> []) /\
  (likely_chatbot d = true -> list_sum matches = 0 -> 3 <= length phrases).
Proof.
  cbv zeta. unfold _detect_unknown_chatbot.
  rewrite ui_fold, text_fold. cbn [fst snd confidence_score likely_chatbot evidence app].
  rewrite Nat.add_0_l.
  set (matches := List.map (fun p => findall_count p html_content)
                    chat_ui_indicators).
  set (phrases := List.filter (fun i => str_in i (lower page_text))
                    chat_text_indicators).
  split; [reflexivity|]. split; [reflexivity|]. split; [reflexivity|].
  split.
  - intros Hlikely. rewrite Hlikely. apply Nat.leb_le in Hlikely.
    destruct phrases as [|i phrases].
    + change (length (@nil string)) with 0 in Hlikely.
      rewrite app_nil_r.
      intros Hnil. apply fmap_nil_inv in Hnil.
      revert Hnil. apply positive_sum_has_positive. lia.
    + intros Hnil. apply app_eq_nil in Hnil as [_ Hnil]. discriminate.
  - intros Hlikely Hzero. apply Nat.leb_le in Hlikely. lia.
Qed.

Lemma startswith_split (s p : string) :
  startswith s p = true -> exists r, s = p +:+ r.
Proof.
  revert s. induction p as [|c p IH]; intros s Hs.
  - now exists s.
  - destruct s as [|d s]; [discriminate|]. simpl in Hs.
    apply andb_true_iff in Hs as [Hc Hp].
    apply Ascii.eqb_eq in Hc. subst d.
    destruct (IH s Hp) as [r ->]. exists r. reflexivity.
Qed.

(** The key the duplicate test of the network pass compares with: for
    every tag the pass has built it is the word before the underscore. *)
Lemma before_underscore_network (s : string) :
  startswith s "network_" = true -> before_underscore s = "network"%string.
Proof.
  intros Hs. apply startswith_split in Hs as [r ->].
  unfold before_underscore. reflexivity.
Qed.

Lemma network_tag_appends (keywords : list string)
  (request_url domain : string) (services : list string) :
  Forall (fun s => startswith s "network_" = true) services ->
  any_in keywords (lower request_url) = true ->
  urlparse_netloc request_url = Some domain ->
  domain <> "network"%string ->
  network_tag keywords request_url services =
  Some (services ++ ["network_" +:+ domain]).
Proof.
  intros Hall Hany Hnet Hdom. unfold network_tag. rewrite Hany, Hnet.
  simpl.
  assert (Hel : Analyzer.str_elem domain (List.map before_underscore services)
                = false).
  { destruct (Analyzer.str_elem domain _) eqn:Hel; [|reflexivity].
    apply str_elem_true in Hel. apply list_elem_of_fmap in Hel as [s [Hs Hin]].
    rewrite Forall_forall in Hall.
    rewrite (before_underscore_network s (Hall s Hin)) in Hs.
    contradiction. }
  now rewrite Hel.
Qed.

Lemma network_tag_skips (keywords : list string) (request_url : string)
  (services : list string) :
  any_in keywords (lower request_url) = false ->
  network_tag keywords request_url services = Some services.
Proof. intros Hany. unfold network_tag. now rewrite Hany. Qed.

(** The tag the network pass builds for a request. *)
Lemma network_loop_closed (requests : list string) (acc : NetworkAnalysis) :
  (forall r, r ∈ requests ->
             exists domain, urlparse_netloc r = Some domain /\
                            domain <> "network"%string) ->
  Forall (fun s => startswith s "network_" = true) (chatbot_services acc) ->
  Forall (fun s => startswith s "network_" = true) (booking_services acc) ->
  let tag r :=
    "network_" +:+ default EmptyString (urlparse_netloc r) in
  network_loop requests acc =
  mkNetwork
    (chatbot_services acc ++
     List.map tag
       (List.filter (fun r => any_in chatbot_domains (lower r)) requests))
    (booking_services acc ++
     List.map tag
       (List.filter (fun r => any_in booking_domains (lower r)) requests))
    (ota_services acc).
Proof.
  cbv zeta. revert acc.
  induction requests as [|r rest IH]; intros acc Hreq Hchat Hbook.
  - simpl. rewrite !app_nil_r. now destruct acc.
  - destruct (Hreq r) as [domain [Hnet Hdom]]; [now left|].
    assert (Hrest : forall r', r' ∈ rest ->
               exists domain, urlparse_netloc r' = Some domain /\
                              domain <> "network"%string)
      by (intros r' Hr'; apply Hreq; now right).
    cbn [network_loop List.filter].
    destruct (any_in chatbot_domains (lower r)) eqn:Hc;
      destruct (any_in booking_domains (lower r)) eqn:Hb;
      rewrite ?(network_tag_appends _ _ _ _ Hchat Hc Hnet Hdom),
        ?(network_tag_skips _ _ _ Hc);
      cbn [booking_services chatbot_services ota_services];
      rewrite ?(network_tag_appends _ _ _ _ Hbook Hb Hnet Hdom),
        ?(network_tag_skips _ _ _ Hb);
      rewrite IH; cbn [booking_services chatbot_services ota_services];
      try assumption;
      try (apply Forall_app; split; [assumption|];
           apply Forall_cons; split; [reflexivity|constructor]);
      cbn [List.map]; rewrite ?Hnet; cbn [default];
      rewrite <- ?app_assoc; reflexivity.
Qed.

(** X8. The network pass reports one tag per matching request and
    repeats it for repeated hosts: its duplicate test compares the host
    with the word before the underscore of the tags already listed, which
    is always [network]. It never reports an OTA service. *)
Theorem network_tags_are_not_deduplicated (page : PageView)
  (entries : list string) :
  resource_entries page = Some entries ->
  (forall r, r ∈ entries -> str_in "http" r = true ->
             exists domain, urlparse_netloc r = Some domain /\
                            domain <> "network"%string) ->
  let requests := List.filter (str_in "http") entries in
  let tag r :=
    "network_" +:+ default EmptyString (urlparse_netloc r) in
  let n := _analyze_network_requests page in
  chatbot_services n =
    List.map tag
      (List.filter (fun r => any_in chatbot_domains (lower r)) requests) /\
  booking_services n =
    List.map tag
      (List.filter (fun r => any_in booking_domains (lower r)) requests) /\
  ota_services n = [].
Proof.
  intros Hentries Hreq. cbv zeta. unfold _analyze_network_requests.
  rewrite Hentries. rewrite network_loop_closed.
  - cbn [chatbot_services booking_services ota_services app].
    split; [reflexivity|]. split; reflexivity.
  - intros r Hr. apply list_elem_of_In in Hr. apply filter_In in Hr as [Hr Hh].
    apply Hreq; [now apply list_elem_of_In|assumption].
  - constructor.
  - constructor.
Qed.

Lemma network_tags_are_not_deduplicated_witness :
  let page :=
    mkPageView "" "" (fun _ => Some [])
      (Some ["https://widget.intercom.io/a.js";
             "https://widget.intercom.io/b.js"]%string) in
  let requests :=
    List.filter (str_in "http")
      ["https://widget.intercom.io/a.js";
       "https://widget.intercom.io/b.js"]%string in
  let tag r :=
    "network_" +:+ default EmptyString (urlparse_netloc r) in
  let n := _analyze_network_requests page in
  chatbot_services n =
    List.map tag
      (List.filter (fun r => any_in chatbot_domains (lower r)) requests) /\
  booking_services n =
    List.map tag
      (List.filter (fun r => any_in booking_domains (lower r)) requests) /\
  ota_services n = [].
Proof.
  apply (network_tags_are_not_deduplicated
           (mkPageView "" "" (fun _ => Some [])
              (Some ["https://widget.intercom.io/a.js";
                     "https://widget.intercom.io/b.js"]%string))
           ["https://widget.intercom.io/a.js";
            "https://widget.intercom.io/b.js"]%string).
  - reflexivity.
  - intros r Hr _. exists "widget.intercom.io"%string.
    apply list_elem_of_In in Hr. simpl in Hr.
    destruct Hr as [<-|[<-|[]]]; (split; [vm_compute; reflexivity|discriminate]).
Defined.

Lemma known_hit_tags (table : PatternTable) (content : string) :
  known_hit table content = true <-> detect_known table content [] <> [].
Proof.
  split.
  - intros Hhit Hnil. unfold known_hit in Hhit.
    apply existsb_exists in Hhit as [[ty pats] [Hin Hany]].
    assert (Hty : ty ∈ detect_known table content []).
    { apply detect_known_elem. right. exists pats.
      split; [now apply list_elem_of_In|exact Hany]. }
    rewrite Hnil in Hty. now apply elem_of_nil in Hty.
  - intros Hne. destruct (detect_known table content []) as [|t l] eqn:Hk;
      [contradiction|].
    assert (Ht : t ∈ detect_known table content []) by (rewrite Hk; now left).
    apply detect_known_elem in Ht as [Ht|[pats [Hin Hany]]];
      [now apply elem_of_nil in Ht|].
    unfold known_hit. apply existsb_exists. exists (t, pats).
    split; [now apply list_elem_of_In|exact Hany].
Qed.

Lemma likely_has_evidence (html text : string) :
  likely_chatbot (_detect_unknown_chatbot html text) = true ->
  evidence (_detect_unknown_chatbot html text) <> [].
Proof.
  unfold _detect_unknown_chatbot. rewrite ui_fold, text_fold.
  cbn [fst snd likely_chatbot evidence app]. rewrite Nat.add_0_l.
  intros Hlikely. rewrite Hlikely. apply Nat.leb_le in Hlikely.
  destruct (List.filter (fun i => str_in i (lower text)) chat_text_indicators)
    as [|i phrases].
  - change (length (@nil string)) with 0 in Hlikely. rewrite app_nil_r.
    intros Hnil. apply fmap_nil_inv in Hnil.
    revert Hnil. apply positive_sum_has_positive. lia.
  - intros Hnil. apply app_eq_nil in Hnil as [_ Hnil]. discriminate.
Qed.

(** The extractor raises the chatbot flag exactly when it lists a tag. *)
Lemma chatbot_signals_flag (self : Self) (html text : string) :
  fst (chatbot_signals self html text) = true <->
  snd (chatbot_signals self html text) <> [].
Proof.
  rewrite chatbot_signals_eq. cbv zeta.
  destruct (known_hit (chatbot_patterns self) (combined html text)) eqn:Hhit.
  - cbn [fst snd]. split; [intros _|reflexivity]. now apply known_hit_tags.
  - assert (Hnil : detect_known (chatbot_patterns self) (combined html text) []
                   = []).
    { destruct (detect_known _ _ _) as [|t l] eqn:Hk; [reflexivity|].
      assert (Hne : detect_known (chatbot_patterns self) (combined html text) []
                    <> []) by (rewrite Hk; discriminate).
      apply known_hit_tags in Hne. congruence. }
    rewrite Hnil.
    destruct (likely_chatbot (_detect_unknown_chatbot html text)) eqn:Hl;
      cbn [fst snd app].
    + split; [intros _|reflexivity]. now apply likely_has_evidence.
    + split; [discriminate|intros H; now contradiction H].
Qed.

(** What the DOM pass does to an analysis: it appends its tag once per
    selector with a visible chat element, raises the flag when it does,
    and touches nothing else. *)
Lemma dynamic_spec (page : PageView) (selectors : list string)
  (analysis : Analysis) :
  let a := _detect_dynamic_elements page selectors analysis in
  exists n,
    n <= length selectors /\
    chatbot_types a =
      chatbot_types analysis ++ replicate n "dynamic_chat_widget"%string /\
    has_chatbot a = (if n =? 0 then has_chatbot analysis else true) /\
    booking_technology a = booking_technology analysis /\
    ota_dependencies a = ota_dependencies analysis /\
    analysis_details a = analysis_details analysis /\
    pages_analyzed a = pages_analyzed analysis.
Proof.
  cbv zeta. revert analysis.
  induction selectors as [|selector rest IH]; intros analysis.
  - exists 0. cbn [_detect_dynamic_elements replicate Nat.eqb length].
    rewrite app_nil_r. repeat split. lia.
  - cbn [_detect_dynamic_elements].
    destruct (query_selector_all page selector) as [elements|].
    + destruct (existsb element_hits (firstn 3 elements)).
      * destruct (IH (set_chatbot analysis true
                        (chatbot_types analysis ++
                         ["dynamic_chat_widget"%string])))
          as [n [Hn [Ht [Hf [Hb [Ho [Hd Hp]]]]]]].
        exists (S n). cbn [length]. split; [lia|].
        rewrite Ht, Hf, Hb, Ho, Hd, Hp.
        cbn [set_chatbot chatbot_types has_chatbot booking_technology
             ota_dependencies analysis_details pages_analyzed replicate
             Nat.eqb].
        rewrite <- app_assoc. cbn [app].
        split; [reflexivity|]. split; [now destruct (n =? 0)|].
        repeat split.
      * destruct (IH analysis) as [n [Hn H']].
        exists n. cbn [length]. split; [lia|exact H'].
    + exists 0. cbn [replicate Nat.eqb length]. rewrite app_nil_r.
      repeat split. lia.
Qed.

(** The network pass never lists an OTA service, whatever the requests. *)
Lemma network_loop_ota (requests : list string) (acc : NetworkAnalysis) :
  ota_services (network_loop requests acc) = ota_services acc.
Proof.
  revert acc. induction requests as [|r rest IH]; intros acc; [reflexivity|].
  cbn [network_loop].
  destruct (network_tag chatbot_domains r (chatbot_services acc));
    [|reflexivity].
  cbn [booking_services].
  destruct (network_tag booking_domains r (booking_services acc));
    [|reflexivity].
  now rewrite IH.
Qed.

Lemma network_ota (page : PageView) :
  ota_services (_analyze_network_requests page) = [].
Proof.
  unfold _analyze_network_requests.
  destruct (resource_entries page); [|reflexivity].
  now rewrite network_loop_ota.
Qed.

(** X9. A page that loads is analysed in three passes, and the DOM and
    network passes only add to what the extractor found: the flag is never
    lowered, the extractor's tags stay in front, every further chatbot tag
    is [dynamic_chat_widget] or a [network_] tag, and the OTA tags and the
    details are the extractor's. A page that fails to load yields no
    analysis. *)
Theorem later_passes_only_add (self : Self) (page : PageView) (url : string) :
  let s := analyze_page_content self (content page) (body_text page) url in
  analyze_page self None url = None /\
  exists a,
    analyze_page self (Some page) url = Some a /\
    (has_chatbot s = true -> has_chatbot a = true) /\
    chatbot_types s `prefix_of` chatbot_types a /\
    (forall t, t ∈ chatbot_types a ->
               t ∈ chatbot_types s \/ t = "dynamic_chat_widget"%string \/
               startswith t "network_" = true) /\
    booking_technology s `prefix_of` booking_technology a /\
    ota_dependencies a = ota_dependencies s /\
    analysis_details a = analysis_details s.
Proof.
  cbv zeta. split; [reflexivity|].
  unfold analyze_page. cbn [mbind option_bind].
  set (s := analyze_page_content self (content page) (body_text page) url).
  destruct (dynamic_spec page chatbot_selectors s)
    as [n [_ [Ht [Hf [Hb [Ho [Hd _]]]]]]].
  cbv zeta in Ht, Hf, Hb, Ho, Hd.
  eexists. split; [reflexivity|].
  cbn [has_chatbot chatbot_types booking_technology ota_dependencies
       analysis_details].
  rewrite Ht, Hf, Hb, Ho, Hd, network_ota, app_nil_r.
  split; [|split; [|split; [|split; [|split]]]].
  - intros Hs. rewrite Hs.
    destruct (truthy_list _); [reflexivity|]. now destruct (n =? 0).
  - rewrite <- app_assoc. now eexists.
  - intros t Hin. apply elem_of_app in Hin as [Hin|Hin].
    + apply elem_of_app in Hin as [Hin|Hin]; [now left|].
      right. left. now apply elem_of_replicate in Hin as [-> _].
    + right. right. now apply network_chat in Hin.
  - now eexists.
  - reflexivity.
  - reflexivity.
Qed.

(** A page analysis raises the chatbot flag exactly when it lists a tag. *)
Lemma analyze_page_flag (self : Self) (page : PageView) (url : string)
  (a : Analysis) :
  analyze_page self (Some page) url = Some a ->
  (has_chatbot a = true <-> chatbot_types a <> []).
Proof.
  unfold analyze_page. cbn [mbind option_bind].
  set (s := analyze_page_content self (content page) (body_text page) url).
  destruct (dynamic_spec page chatbot_selectors s)
    as [n [_ [Ht [Hf _]]]].
  cbv zeta in Ht, Hf.
  generalize dependent (_detect_dynamic_elements page chatbot_selectors s).
  intros d Ht Hf [= <-].
  cbn [has_chatbot chatbot_types]. rewrite Ht, Hf.
  assert (Hs : has_chatbot s = true <-> chatbot_types s <> [])
    by apply chatbot_signals_flag.
  destruct (_analyze_network_requests page) as [chat book ota].
  cbn [chatbot_services].
  destruct chat as [|c chat]; cbn [truthy_list].
  - rewrite app_nil_r. destruct n as [|n]; cbn [Nat.eqb replicate].
    + now rewrite app_nil_r.
    + split; [intros _|reflexivity].
      intros Hnil. apply app_eq_nil in Hnil as [_ Hnil]. discriminate.
  - split; [intros _|reflexivity].
    intros Hnil. apply app_eq_nil in Hnil as [_ Hnil]. discriminate.
Qed.

Lemma take_page_flag (self : Self) (loaded : option PageView) (url : string)
  (all_results : Analysis) :
  (has_chatbot all_results = true <-> chatbot_types all_results <> []) ->
  let r := take_page all_results (analyze_page self loaded url) in
  has_chatbot r = true <-> chatbot_types r <> [].
Proof.
  intros Hall. cbv zeta.
  destruct loaded as [page|]; [|exact Hall].
  destruct (analyze_page self (Some page) url) as [p|] eqn:Hp; [|exact Hall].
  apply analyze_page_flag in Hp.
  cbn [take_page has_chatbot chatbot_types].
  destruct (has_chatbot p).
  - split; [intros _|reflexivity].
    intros Hnil. apply app_eq_nil in Hnil as [_ Hnil].
    now apply Hp in Hnil.
  - assert (Hnil : chatbot_types p = []).
    { destruct (chatbot_types p); [reflexivity|].
      assert (false = true) by (apply Hp; discriminate). discriminate. }
    now rewrite Hnil, app_nil_r.
Qed.

Lemma visit_pages_flag (self : Self) (site : Site) (pages : list string)
  (pages_checked : nat) (all_results : Analysis) :
  (has_chatbot all_results = true <-> chatbot_types all_results <> []) ->
  let r := visit_pages self site pages pages_checked all_results in
  has_chatbot r = true <-> chatbot_types r <> [].
Proof.
  cbv zeta. revert pages_checked all_results.
  induction pages as [|page_url rest IH]; intros k all_results Hall;
    [exact Hall|].
  cbn [visit_pages].
  destruct (max_pages_per_site (current_settings self) <=? k); [exact Hall|].
  apply IH. now apply take_page_flag.
Qed.

Lemma crawl_pages_flag `{SetOrder} (self : Self) (site : Site) (url : string) :
  let r := crawl_pages self site url in
  has_chatbot r = true <-> chatbot_types r <> [].
Proof.
  cbv zeta. unfold crawl_pages.
  assert (Hmain :
    let m := take_main no_results (analyze_page self (goto site 0 url) url) in
    has_chatbot m = true <-> chatbot_types m <> []).
  { cbv zeta. destruct (goto site 0 url) as [page|];
      [|split; [discriminate|intros Hc; now contradiction Hc]].
    destruct (analyze_page self (Some page) url) as [m|] eqn:Hm;
      [|split; [discriminate|intros Hc; now contradiction Hc]].
    apply analyze_page_flag in Hm. exact Hm. }
  cbv zeta in Hmain.
  destruct (1 <? max_pages_per_site (current_settings self)); [|exact Hmain].
  destruct (pages_to_check site url) as [pages|]; [|exact Hmain].
  now apply visit_pages_flag.
Qed.

Lemma set_iter_nonempty `{SetOrder} (l : list string) :
  set_iter l <> [] <-> l <> [].
Proof.
  split; intros Hne Hnil.
  - subst l. destruct (set_iter []) as [|x l'] eqn:Hs; [contradiction|].
    assert (Hx : x ∈ set_iter []) by (rewrite Hs; now left).
    apply (proj1 (set_iter_elem [] x)) in Hx. now apply elem_of_nil in Hx.
  - destruct l as [|x l']; [contradiction|].
    assert (Hx : x ∈ set_iter (x :: l'))
      by (apply (proj2 (set_iter_elem (x :: l') x)); now left).
    rewrite Hnil in Hx. now apply elem_of_nil in Hx.
Qed.

(** X10. A site analysis reports a chatbot exactly when it lists at least
    one chatbot tag, so the chatbot summary is [NO] or [YES] followed by up
    to three tags: the branch that writes an unknown type is never taken. *)
Theorem chatbot_flag_matches_tags `{SetOrder} (self : Self) (site : Site)
  (url : string) (a : Analysis) :
  analyze_website self site url = Ok a ->
  (has_chatbot a = true <-> chatbot_types a <> []) /\
  _generate_chatbot_summary a =
    (if has_chatbot a
     then "YES - " +:+ join ", " (firstn 3 (chatbot_types a))
     else "NO").
Proof.
  unfold analyze_website.
  destruct (new_context site); [discriminate|].
  destruct (context_close site); [discriminate|].
  intros [= <-].
  pose proof (crawl_pages_flag self site url) as Hflag. cbv zeta in Hflag.
  assert (Hiff :
    has_chatbot (crawl_pages self site url) = true <->
    set_iter (chatbot_types (crawl_pages self site url)) <> [])
    by (rewrite set_iter_nonempty; exact Hflag).
  unfold _generate_chatbot_summary. cbn [has_chatbot chatbot_types].
  split; [exact Hiff|].
  destruct (has_chatbot (crawl_pages self site url)); [|reflexivity].
  destruct (set_iter (chatbot_types (crawl_pages self site url)));
    [|reflexivity].
  exfalso. now apply Hiff.
Qed.

Lemma chatbot_flag_matches_tags_witness :
  exists a,
    @analyze_website insertion_order (__init__ 48) Fixtures.root_times_out
      "https://alpha.example" = Ok a /\
    (has_chatbot a = true <-> chatbot_types a <> []) /\
    _generate_chatbot_summary a =
      (if has_chatbot a
       then "YES - " +:+ join ", " (firstn 3 (chatbot_types a))
       else "NO").
Proof.
  eexists. split; [vm_compute; reflexivity|].
  apply (@chatbot_flag_matches_tags insertion_order (__init__ 48)
           Fixtures.root_times_out "https://alpha.example").
  vm_compute. reflexivity.
Defined.

Lemma take_page_count (all_results : Analysis) (o : option Analysis) :
  pages_analyzed (take_page all_results o) <= pages_analyzed all_results + 1.
Proof. destruct o; simpl; lia. Qed.

Lemma visit_pages_count (self : Self) (site : Site) (pages : list string)
  (pages_checked : nat) (all_results : Analysis) :
  pages_analyzed (visit_pages self site pages pages_checked all_results) <=
  pages_analyzed all_results +
  Nat.min (length pages)
    (max_pages_per_site (current_settings self) - pages_checked).
Proof.
  revert pages_checked all_results.
  induction pages as [|page_url rest IH]; intros k all_results.
  - simpl. lia.
  - cbn [visit_pages length].
    destruct (max_pages_per_site (current_settings self) <=? k) eqn:Hk.
    + lia.
    + apply Nat.leb_gt in Hk.
      specialize (IH (S k)
        (take_page all_results
           (analyze_page self (goto site k page_url) page_url))).
      pose proof (take_page_count all_results
        (analyze_page self (goto site k page_url) page_url)).
      lia.
Qed.

Lemma nav_pages_length (url : string) (links : list Href)
  (pages : list string) :
  nav_pages url links = Some pages -> length pages <= length links.
Proof.
  revert pages. induction links as [|link rest IH]; intros pages.
  - intros [= <-]. simpl. lia.
  - cbn [nav_pages length]. destruct link as [| |href].
    + discriminate.
    + intros Hp. apply IH in Hp. lia.
    + destruct (truthy_str href); [|intros Hp; apply IH in Hp; lia].
      destruct (urljoin url (strip href)) as [joined|]; [|discriminate].
      cbn [mbind option_bind].
      destruct (if startswith (rstrip_slash joined) "http"
                then a ← urlparse_netloc (rstrip_slash joined);
                     b ← urlparse_netloc url; Some (String.eqb a b)
                else Some false) as [keep|]; [|discriminate].
      cbn [mbind option_bind].
      destruct (nav_pages url rest) as [more|]; [|discriminate].
      cbn [mbind option_bind]. intros [= <-].
      specialize (IH more eq_refl).
      destruct keep; simpl; lia.
Qed.

Lemma guessed_pages_length (url : string) (guesses pages : list string) :
  guessed_pages url guesses = Some pages -> length pages = length guesses.
Proof.
  revert pages. induction guesses as [|g rest IH]; intros pages.
  - now intros [= <-].
  - cbn [guessed_pages].
    destruct (urljoin url g) as [joined|]; [|discriminate].
    cbn [mbind option_bind].
    destruct (guessed_pages url rest) as [more|]; [|discriminate].
    cbn [mbind option_bind]. intros [= <-]. simpl. now rewrite (IH more).
Qed.

Lemma pages_to_check_length (site : Site) (url : string)
  (pages : list string) :
  pages_to_check site url = Some pages -> length pages <= 9.
Proof.
  unfold pages_to_check.
  destruct (nav_links site) as [links|]; [|discriminate].
  cbn [mbind option_bind].
  destruct (nav_pages url (firstn 5 links)) as [from_nav|] eqn:Hnav;
    [|discriminate].
  cbn [mbind option_bind].
  destruct (guessed_pages url important_pages) as [guessed|] eqn:Hg;
    [|discriminate].
  cbn [mbind option_bind]. intros [= <-].
  apply nav_pages_length in Hnav. apply guessed_pages_length in Hg.
  rewrite length_app, Hg. rewrite length_firstn in Hnav.
  change (length important_pages) with 4. lia.
Qed.

Lemma set_iter_length `{SetOrder} (l : list string) :
  length (set_iter l) <= length l.
Proof.
  apply submseteq_length. apply NoDup_submseteq; [apply set_iter_NoDup|].
  intros x Hx. now apply (proj1 (set_iter_elem l x)).
Qed.

(** X11. A site analysis never counts more pages than
    [max_pages_per_site] allows (one when the limit is below one), and
    never more than ten: the root, at most five menu links and the four
    guessed paths. *)
Theorem pages_analyzed_is_bounded `{SetOrder} (self : Self) (site : Site)
  (url : string) (a : Analysis) :
  analyze_website self site url = Ok a ->
  pages_analyzed a <= Nat.max 1 (max_pages_per_site (current_settings self)) /\
  pages_analyzed a <= 10.
Proof.
  unfold analyze_website.
  destruct (new_context site); [discriminate|].
  destruct (context_close site); [discriminate|].
  intros [= <-]. cbn [pages_analyzed]. unfold crawl_pages.
  assert (Hmain :
    pages_analyzed
      (take_main no_results (analyze_page self (goto site 0 url) url)) <= 1).
  { destruct (analyze_page self (goto site 0 url) url); simpl; lia. }
  destruct (1 <? max_pages_per_site (current_settings self)) eqn:Hmax;
    [|lia].
  apply Nat.ltb_lt in Hmax.
  destruct (pages_to_check site url) as [pages|] eqn:Hpages; [|lia].
  apply pages_to_check_length in Hpages.
  pose proof (set_iter_length pages) as Hlen.
  pose proof (visit_pages_count self site (set_iter pages) 1
    (take_main no_results (analyze_page self (goto site 0 url) url))) as Hv.
  lia.
Qed.

Lemma pages_analyzed_is_bounded_witness :
  exists a,
    @analyze_website insertion_order (__init__ 48) Fixtures.root_times_out
      "https://alpha.example" = Ok a /\
    pages_analyzed a <=
      Nat.max 1 (max_pages_per_site (current_settings (__init__ 48))) /\
    pages_analyzed a <= 10.
Proof.
  eexists. split; [vm_compute; reflexivity|].
  apply (@pages_analyzed_is_bounded insertion_order (__init__ 48)
           Fixtures.root_times_out "https://alpha.example").
  vm_compute. reflexivity.
Defined.

End PageFacts.
(** ** The tasks of a batch under every interleaving *)

Module GatherFacts.
Import PyStr Analyzer Crawler Scheduler Concurrency FrameFacts SchedulerFacts
  ConcurrencyFacts.

Lemma frame_eq (a b : DataFrame) :
  columns a = columns b -> rows a = rows b -> a = b.
Proof. destruct a, b; simpl; intros -> ->; reflexivity. Qed.

(** A sequence of writes to one row alters that row alone. *)
Lemma write_fold_rows (cvs : list (string * Cell)) (df : DataFrame) (i : nat) :
  rows (fold_left (fun d cv => set_cell d i (fst cv) (snd cv)) cvs df) =
  alter
    (fun row : Row =>
       fold_left (fun (r : Row) (cv : string * Cell) => <[fst cv := snd cv]> r)
         cvs row)
    i (rows df).
Proof.
  revert df. induction cvs as [|[c v] cvs IH]; intros df.
  - simpl. symmetry. now apply list_alter_id.
  - cbn [fold_left fst snd].
    rewrite IH, rows_set_cell, list_alter_alter_eq. reflexivity.
Qed.

(** A task rewrites its own row by a function that does not depend on the
    frame it finds. *)
Lemma run_task_shape `{SetOrder} (self : Self) (site : Site)
  (t : nat * string) :
  exists F : Row -> Row,
    forall df, has_result_columns df ->
      run_task self site df t =
      mkDataFrame (columns df) (alter F (fst t) (rows df)).
Proof.
  assert (Hrows : exists F : Row -> Row,
             forall df, rows (run_task self site df t) =
                        alter F (fst t) (rows df)).
  { unfold run_task. destruct (analyze_website self site (snd t)) as [a|msg].
    - unfold write_completed. eexists. intros df. apply write_fold_rows.
    - unfold write_failed. eexists. intros df. apply write_fold_rows. }
  destruct Hrows as [F HF]. exists F. intros df Hwf.
  apply frame_eq; [|apply HF]. cbn [columns].
  destruct t as [i u].
  now destruct (run_task_spec self site df i u) as [_ [_ [_ [Hcols _]]]];
    apply Hcols.
Qed.

Lemma run_task_columns `{SetOrder} (self : Self) (site : Site)
  (t : nat * string) (df : DataFrame) :
  has_result_columns df -> has_result_columns (run_task self site df t).
Proof.
  intros Hwf. apply (has_result_columns_ext df); [|assumption].
  destruct t as [i u].
  now destruct (run_task_spec self site df i u) as [_ [_ [_ [Hcols _]]]];
    apply Hcols.
Qed.

(** Two tasks on different rows commute. *)
Lemma run_task_commute `{SetOrder} (self : Self) (world : nat -> Site)
  (t1 t2 : nat * string) (df : DataFrame) :
  has_result_columns df ->
  fst t1 <> fst t2 ->
  run_task self (world (fst t2)) (run_task self (world (fst t1)) df t1) t2 =
  run_task self (world (fst t1)) (run_task self (world (fst t2)) df t2) t1.
Proof.
  intros Hwf Hne.
  destruct (run_task_shape self (world (fst t1)) t1) as [F1 H1].
  destruct (run_task_shape self (world (fst t2)) t2) as [F2 H2].
  rewrite (H2 _ (run_task_columns self _ t1 df Hwf)).
  rewrite (H1 _ (run_task_columns self _ t2 df Hwf)).
  rewrite (H1 df Hwf), (H2 df Hwf). cbn [columns rows].
  f_equal. apply list_alter_alter_ne. congruence.
Qed.

Lemma run_tasks_columns `{SetOrder} (self : Self) (world : nat -> Site)
  (l : list (nat * string)) (df : DataFrame) :
  has_result_columns df ->
  has_result_columns
    (fold_left (fun d t => run_task self (world (fst t)) d t) l df).
Proof.
  revert df. induction l as [|t l IH]; intros df Hwf; [exact Hwf|].
  cbn [fold_left]. apply IH. now apply run_task_columns.
Qed.

(** A task can be moved behind tasks on other rows. *)
Lemma run_after_later `{SetOrder} (self : Self) (world : nat -> Site)
  (t : nat * string) (l : list (nat * string)) (df : DataFrame) :
  has_result_columns df ->
  (forall t', t' ∈ l -> fst t' <> fst t) ->
  fold_left (fun d t => run_task self (world (fst t)) d t) l
    (run_task self (world (fst t)) df t) =
  run_task self (world (fst t))
    (fold_left (fun d t => run_task self (world (fst t)) d t) l df) t.
Proof.
  revert df. induction l as [|t' l IH]; intros df Hwf Hl; [reflexivity|].
  cbn [fold_left].
  rewrite (run_task_commute self world t t' df Hwf).
  - apply IH; [now apply run_task_columns|].
    intros t'' Hin. apply Hl. now right.
  - intros Heq. apply (Hl t'); [now left|congruence].
Qed.

Lemma finished_initial (tasks : list (nat * string)) :
  finished_tasks (List.map (fun _ => Waiting) tasks) tasks = [].
Proof. induction tasks as [|t tasks IH]; [reflexivity|exact IH]. Qed.

Lemma finished_acquire (sts : list TaskState) (tasks : list (nat * string))
  (k : nat) :
  sts !! k = Some Waiting ->
  finished_tasks (<[k := Running]> sts) tasks = finished_tasks sts tasks.
Proof.
  revert tasks k. induction sts as [|st sts IH]; intros tasks k Hk;
    [discriminate|].
  destruct k as [|k].
  - cbn in Hk. injection Hk as ->.
    change (<[0 := Running]> (Waiting :: sts)) with (Running :: sts).
    now destruct tasks.
  - cbn in Hk. change (<[S k := Running]> (st :: sts))
      with (st :: <[k := Running]> sts).
    destruct tasks as [|t tasks]; [reflexivity|].
    cbn [finished_tasks]. now rewrite (IH tasks k Hk).
Qed.

Lemma finished_elem (sts : list TaskState) (tasks : list (nat * string))
  (t : nat * string) :
  t ∈ finished_tasks sts tasks -> exists k, tasks !! k = Some t.
Proof.
  revert tasks. induction sts as [|st sts IH]; intros tasks Hin.
  - destruct tasks; now apply elem_of_nil in Hin.
  - destruct tasks as [|t0 tasks]; [now apply elem_of_nil in Hin|].
    cbn [finished_tasks] in Hin.
    destruct (bool_decide (st = Finished)).
    + apply elem_of_cons in Hin as [->|Hin]; [now exists 0|].
      destruct (IH tasks Hin) as [k Hk]. now exists (S k).
    + destruct (IH tasks Hin) as [k Hk]. now exists (S k).
Qed.

(** Leaving the semaphore puts the task into the list of finished tasks,
    in front of those that come later in [tasks]. *)
Lemma finished_release (sts : list TaskState) (tasks : list (nat * string))
  (k : nat) (t : nat * string) :
  sts !! k = Some Running ->
  tasks !! k = Some t ->
  exists l1 l2,
    finished_tasks sts tasks = l1 ++ l2 /\
    finished_tasks (<[k := Finished]> sts) tasks = l1 ++ t :: l2 /\
    (forall t', t' ∈ l2 -> exists k', k < k' /\ tasks !! k' = Some t').
Proof.
  revert tasks k. induction sts as [|st sts IH]; intros tasks k Hk Ht;
    [discriminate|].
  destruct tasks as [|t0 tasks]; [discriminate|].
  destruct k as [|k].
  - cbn in Hk, Ht. injection Hk as ->. injection Ht as ->.
    change (<[0 := Finished]> (Running :: sts)) with (Finished :: sts).
    exists [], (finished_tasks sts tasks). cbn [finished_tasks app].
    rewrite bool_decide_eq_false_2 by discriminate.
    rewrite bool_decide_eq_true_2 by reflexivity.
    split; [reflexivity|]. split; [reflexivity|].
    intros t' Hin. apply finished_elem in Hin as [k' Hk'].
    exists (S k'). split; [lia|exact Hk'].
  - cbn in Hk, Ht.
    change (<[S k := Finished]> (st :: sts))
      with (st :: <[k := Finished]> sts).
    destruct (IH tasks k Hk Ht) as [l1 [l2 [H1 [H2 H3]]]].
    cbn [finished_tasks]. rewrite H1, H2.
    destruct (bool_decide (st = Finished)).
    + exists (t0 :: l1), l2. split; [reflexivity|]. split; [reflexivity|].
      intros t' Hin. destruct (H3 t' Hin) as [k' [Hlt Hk']].
      exists (S k'). split; [lia|exact Hk'].
    + exists l1, l2. split; [reflexivity|]. split; [reflexivity|].
      intros t' Hin. destruct (H3 t' Hin) as [k' [Hlt Hk']].
      exists (S k'). split; [lia|exact Hk'].
Qed.

Lemma finished_all (sts : list TaskState) (tasks : list (nat * string)) :
  length sts = length tasks ->
  (forall k st, sts !! k = Some st -> st = Finished) ->
  finished_tasks sts tasks = tasks.
Proof.
  revert tasks. induction sts as [|st sts IH]; intros tasks Hlen Hall.
  - now destruct tasks.
  - destruct tasks as [|t tasks]; [discriminate|].
    cbn [finished_tasks]. rewrite (Hall 0 st eq_refl).
    rewrite bool_decide_eq_true_2 by reflexivity.
    f_equal. apply IH; [simpl in Hlen; lia|].
    intros k st' Hk. now apply (Hall (S k)).
Qed.

(** In every state a batch can reach, the frame is what the finished tasks
    give when they run one after the other in the order of [tasks]. *)
Lemma reachable_table `{SetOrder} (self : Self) (world : nat -> Site)
  (tasks : list (nat * string)) (df : DataFrame) (p : Pool) :
  has_result_columns df ->
  NoDup (List.map fst tasks) ->
  reachable self world tasks df p ->
  table p =
  fold_left (fun d t => run_task self (world (fst t)) d t)
    (finished_tasks (states p) tasks) df.
Proof.
  intros Hwf Hnd Hreach. unfold reachable in Hreach.
  apply rtc_ind_r with
    (P := fun p =>
       table p =
       fold_left (fun d t => run_task self (world (fst t)) d t)
         (finished_tasks (states p) tasks) df)
    (x := initial_pool self tasks df) in Hreach; [exact Hreach| |].
  - unfold initial_pool. cbn [table states]. now rewrite finished_initial.
  - intros q r _ Hstep IHq.
    destruct Hstep as [k q Hk Hpos|k task q Hk Htask]; cbn [table states].
    + now rewrite finished_acquire.
    + destruct (finished_release (states q) tasks k task Hk Htask)
        as [l1 [l2 [H1 [H2 H3]]]].
      rewrite H2, IHq, H1, !fold_left_app. cbn [fold_left].
      symmetry. apply run_after_later; [now apply run_tasks_columns|].
      intros t' Hin Heq. destruct (H3 t' Hin) as [k' [Hlt Hk']].
      assert (Hkk : k' = k).
      { apply (NoDup_lookup (List.map fst tasks) k' k (fst task));
          [assumption| |];
          rewrite list_lookup_fmap; [rewrite Hk'|rewrite Htask];
          simpl; congruence. }
      lia.
Qed.

Lemma in_flight_none (l : list TaskState) (v : nat) (t : DataFrame) :
  (forall k st, l !! k = Some st -> st <> Running) ->
  in_flight (mkPool v l t) = 0.
Proof.
  induction l as [|st l IH]; intros Hall; [reflexivity|].
  rewrite in_flight_cons.
  rewrite bool_decide_eq_false_2 by exact (Hall 0 st eq_refl).
  apply IH. intros k st' Hk. now apply (Hall (S k)).
Qed.

(** X12. The order in which the tasks of a batch pass the semaphore does
    not matter: for tasks on distinct rows of a frame that has the result
    columns, every interleaving that finishes all of them leaves the frame
    that running the tasks one after the other in list order gives, and
    the semaphore with its full count. *)
Theorem gather_order_does_not_matter `{SetOrder}
  (self : Self) (world : nat -> Site) (tasks : list (nat * string))
  (df : DataFrame) (p : Pool) :
  has_result_columns df ->
  NoDup (List.map fst tasks) ->
  reachable self world tasks df p ->
  (forall k st, states p !! k = Some st -> st = Finished) ->
  table p =
    fold_left (fun d task => run_task self (world (fst task)) d task)
      tasks df /\
  value p = concurrency (current_settings self).
Proof.
  intros Hwf Hnd Hreach Hall.
  destruct (reachable_invariant self world tasks df p Hreach) as [Hval Hlen].
  split.
  - rewrite (reachable_table self world tasks df p Hwf Hnd Hreach).
    now rewrite finished_all.
  - destruct p as [v l t]. cbn [value states] in *.
    rewrite in_flight_none in Hval; [lia|].
    intros k st Hk. rewrite (Hall k st Hk). discriminate.
Qed.

Lemma gather_order_does_not_matter_witness :
  let tasks := [(0, "https://alpha.example"); (2, "https://not a url")]%string in
  let df := init_columns Fixtures.sample_frame in
  exists p,
    @reachable insertion_order (__init__ 48)
      (Fixtures.sample_world Aggressive) tasks df p /\
    (forall k st, states p !! k = Some st -> st = Finished) /\
    table p =
      fold_left
        (fun d task =>
           @run_task insertion_order (__init__ 48)
             (Fixtures.sample_world Aggressive (fst task)) d task)
        tasks df /\
    value p = concurrency (current_settings (__init__ 48)).
Proof.
  cbv zeta.
  set (tasks := [(0, "https://alpha.example"); (2, "https://not a url")]%string).
  set (df := init_columns Fixtures.sample_frame).
  assert (Hreach :
    @reachable insertion_order (__init__ 48)
      (Fixtures.sample_world Aggressive) tasks df
      (mkPool 45 [Finished; Finished]
         (@run_task insertion_order (__init__ 48)
            (Fixtures.sample_world Aggressive 0)
            (@run_task insertion_order (__init__ 48)
               (Fixtures.sample_world Aggressive 2) df
               (2, "https://not a url"%string))
            (0, "https://alpha.example"%string)))).
  { unfold reachable.
    eapply rtc_l;
      [exact (@acquire insertion_order (__init__ 48)
                (Fixtures.sample_world Aggressive) tasks 1
                (mkPool 45 [Waiting; Waiting] df) eq_refl
                (Nat.lt_0_succ 44))|].
    eapply rtc_l;
      [exact (@acquire insertion_order (__init__ 48)
                (Fixtures.sample_world Aggressive) tasks 0
                (mkPool 44 [Waiting; Running] df) eq_refl
                (Nat.lt_0_succ 43))|].
    eapply rtc_l;
      [exact (@release insertion_order (__init__ 48)
                (Fixtures.sample_world Aggressive) tasks 1
                (2, "https://not a url"%string)
                (mkPool 43 [Running; Running] df) eq_refl eq_refl)|].
    eapply rtc_l;
      [exact (@release insertion_order (__init__ 48)
                (Fixtures.sample_world Aggressive) tasks 0
                (0, "https://alpha.example"%string)
                (mkPool 44 [Running; Finished]
                   (@run_task insertion_order (__init__ 48)
                      (Fixtures.sample_world Aggressive 2) df
                      (2, "https://not a url"%string)))
                eq_refl eq_refl)|].
    apply rtc_refl. }
  eexists. split; [exact Hreach|].
  assert (Hall : forall k st,
             [Finished; Finished] !! k = Some st -> st = Finished).
  { intros k st Hk. apply list_elem_of_lookup_2 in Hk.
    apply list_elem_of_In in Hk. simpl in Hk.
    destruct Hk as [<-|[<-|[]]]; reflexivity. }
  split; [exact Hall|].
  apply (@gather_order_does_not_matter insertion_order (__init__ 48)
           (Fixtures.sample_world Aggressive) tasks df _).
  - apply init_columns_spec.
  - apply NoDup_ListNoDup. repeat constructor; simpl; intuition discriminate.
  - exact Hreach.
  - exact Hall.
Defined.

Lemma moves_insert (sts : list TaskState) (k : nat) (old new : TaskState) :
  sts !! k = Some old ->
  list_sum (List.map moves_of (<[k := new]> sts)) + moves_of old =
  list_sum (List.map moves_of sts) + moves_of new.
Proof.
  revert k. induction sts as [|st sts IH]; intros k Hk; [discriminate|].
  destruct k as [|k].
  - cbn in Hk. injection Hk as ->.
    change (<[0 := new]> (old :: sts)) with (new :: sts).
    cbn [List.map].
    change (list_sum (moves_of new :: List.map moves_of sts))
      with (moves_of new + list_sum (List.map moves_of sts)).
    change (list_sum (moves_of old :: List.map moves_of sts))
      with (moves_of old + list_sum (List.map moves_of sts)).
    lia.
  - cbn in Hk.
    change (<[S k := new]> (st :: sts)) with (st :: <[k := new]> sts).
    cbn [List.map].
    change (list_sum (moves_of st :: List.map moves_of (<[k := new]> sts)))
      with (moves_of st + list_sum (List.map moves_of (<[k := new]> sts))).
    change (list_sum (moves_of st :: List.map moves_of sts))
      with (moves_of st + list_sum (List.map moves_of sts)).
    specialize (IH k Hk). lia.
Qed.

(** Every move of a task uses up one of the moves the batch has left. *)
Lemma step_moves `{SetOrder} (self : Self) (world : nat -> Site)
  (tasks : list (nat * string)) (p p' : Pool) :
  step self world tasks p p' -> moves_left p' + 1 = moves_left p.
Proof.
  intros Hstep. unfold moves_left.
  destruct Hstep as [k q Hk Hpos|k task q Hk Htask]; cbn [states].
  - pose proof (moves_insert (states q) k Waiting Running Hk) as Hm.
    cbn [moves_of] in Hm. lia.
  - pose proof (moves_insert (states q) k Running Finished Hk) as Hm.
    cbn [moves_of] in Hm. lia.
Qed.

Lemma moves_initial (self : Self) (tasks : list (nat * string))
  (df : DataFrame) :
  moves_left (initial_pool self tasks df) = 2 * length tasks.
Proof.
  unfold moves_left, initial_pool. cbn [states].
  induction tasks as [|t tasks IH]; [reflexivity|].
  cbn [List.map length].
  change (list_sum (moves_of Waiting ::
                    List.map moves_of (List.map (fun _ => Waiting) tasks)))
    with (2 + list_sum (List.map moves_of
                          (List.map (fun _ => Waiting) tasks))).
  lia.
Qed.

(** A list of task states holds a running task, or holds a waiting task
    and no running one, or all its tasks have finished. *)
Lemma states_cases (sts : list TaskState) :
  (exists k, sts !! k = Some Running) \/
  ((exists k, sts !! k = Some Waiting) /\
   forall k st, sts !! k = Some st -> st <> Running) \/
  (forall k st, sts !! k = Some st -> st = Finished).
Proof.
  induction sts as [|st sts IH].
  - right. right. intros k st Hk. destruct k; discriminate.
  - destruct st.
    + destruct IH as [[k Hk]|[[[k Hk] Hno]|Hall]].
      * left. now exists (S k).
      * right. left. split; [now exists 0|].
        intros [|k'] st Hk'; cbn in Hk'; [now injection Hk' as <-|].
        now apply (Hno k').
      * right. left. split; [now exists 0|].
        intros [|k'] st Hk'; cbn in Hk'; [now injection Hk' as <-|].
        rewrite (Hall k' st Hk'). discriminate.
    + left. now exists 0.
    + destruct IH as [[k Hk]|[[[k Hk] Hno]|Hall]].
      * left. now exists (S k).
      * right. left. split; [now exists (S k)|].
        intros [|k'] st Hk'; cbn in Hk'; [now injection Hk' as <-|].
        now apply (Hno k').
      * right. right.
        intros [|k'] st Hk'; cbn in Hk'; [now injection Hk' as <-|].
        now apply (Hall k').
Qed.

Lemma moves_none (sts : list TaskState) :
  (forall k st, sts !! k = Some st -> st = Finished) ->
  list_sum (List.map moves_of sts) = 0.
Proof.
  induction sts as [|st sts IH]; intros Hall; [reflexivity|].
  cbn [List.map].
  change (list_sum (moves_of st :: List.map moves_of sts))
    with (moves_of st + list_sum (List.map moves_of sts)).
  rewrite (Hall 0 st eq_refl), IH; [reflexivity|].
  intros k st' Hk. now apply (Hall (S k)).
Qed.

(** X13. A batch cannot deadlock and always ends: with a positive
    concurrency, in every reachable state in which some task has not
    finished some task can move; every move uses up one of the two moves
    each task has, so after [n] moves exactly [2 * len(tasks) - n] remain,
    and when none remains every task has finished. *)
Theorem batch_always_finishes `{SetOrder}
  (self : Self) (world : nat -> Site) (tasks : list (nat * string))
  (df : DataFrame) (p : Pool) :
  0 < concurrency (current_settings self) ->
  reachable self world tasks df p ->
  (0 < moves_left p -> exists p', step self world tasks p p') /\
  (moves_left p = 0 <->
   forall k st, states p !! k = Some st -> st = Finished) /\
  (forall n q,
      nsteps (step self world tasks) n (initial_pool self tasks df) q ->
      n + moves_left q = 2 * length tasks).
Proof.
  intros Hpos Hreach.
  destruct (reachable_invariant self world tasks df p Hreach) as [Hval Hlen].
  split; [|split].
  - intros Hmoves.
    destruct (states_cases (states p)) as [[k Hk]|[[[k Hk] Hno]|Hall]].
    + assert (Hlt : k < length tasks).
      { rewrite <- Hlen. now apply lookup_lt_Some in Hk. }
      destruct (lookup_lt_is_Some_2 _ _ Hlt) as [task Htask].
      eexists. exact (release self world tasks k task p Hk Htask).
    + assert (Hzero : in_flight p = 0).
      { destruct p as [v l t]. now apply in_flight_none. }
      eexists. apply (acquire self world tasks k p Hk). lia.
    + unfold moves_left in Hmoves. rewrite moves_none in Hmoves; [lia|].
      exact Hall.
  - split.
    + intros Hzero.
      destruct (states_cases (states p)) as [[k Hk]|[[[k Hk] Hno]|Hall]];
        [| |exact Hall].
      * pose proof (moves_insert (states p) k Running Finished Hk) as Hm.
        unfold moves_left in Hzero. cbn [moves_of] in Hm. lia.
      * pose proof (moves_insert (states p) k Waiting Finished Hk) as Hm.
        unfold moves_left in Hzero. cbn [moves_of] in Hm. lia.
    + intros Hall. unfold moves_left. now apply moves_none.
  - intros n q Hn.
    remember (initial_pool self tasks df) as p0 eqn:Hp0.
    revert Hp0. induction Hn as [x|n x y z Hxy Hyz IH]; intros ->.
    + rewrite moves_initial. lia.
    + (* count from the far end *)
      clear IH.
      assert (Hgen : forall m a b,
                 nsteps (step self world tasks) m a b ->
                 m + moves_left b = moves_left a).
      { intros m a b Hab. induction Hab as [a|m a b c Hab Hbc IHbc]; [lia|].
        apply (step_moves self world tasks) in Hab. lia. }
      pose proof (Hgen _ _ _ Hyz) as H1.
      apply (step_moves self world tasks) in Hxy.
      rewrite moves_initial in Hxy. lia.
Qed.

Lemma batch_always_finishes_witness :
  let tasks := [(0, "https://alpha.example"); (2, "https://not a url")]%string in
  let df := init_columns Fixtures.sample_frame in
  let p := initial_pool (__init__ 48) tasks df in
  (0 < moves_left p ->
   exists p',
     @step insertion_order (__init__ 48) (Fixtures.sample_world Aggressive)
       tasks p p') /\
  (moves_left p = 0 <->
   forall k st, states p !! k = Some st -> st = Finished) /\
  (forall n q,
      nsteps (@step insertion_order (__init__ 48)
                (Fixtures.sample_world Aggressive) tasks) n
        (initial_pool (__init__ 48) tasks df) q ->
      n + moves_left q = 2 * length tasks).
Proof.
  cbv zeta.
  apply (@batch_always_finishes insertion_order (__init__ 48)
           (Fixtures.sample_world Aggressive)
           [(0, "https://alpha.example"); (2, "https://not a url")]%string
           (init_columns Fixtures.sample_frame)).
  - apply Nat.lt_0_succ.
  - apply rtc_refl.
Defined.

End GatherFacts.
(** ** Result cells, counters and the final report *)

Module ReportFacts.
Import PyStr Analyzer Classifier Crawler Scheduler PyStrFacts FrameFacts
  SchedulerFacts GatherFacts.

Ltac lookup_written :=
  repeat (rewrite lookup_insert_ne by discriminate);
  first [apply lookup_insert_eq | reflexivity].

Lemma length_take (n : nat) (s : string) : String.length (take n s) <= n.
Proof.
  revert s. induction n as [|n IH]; intros s; [simpl; lia|].
  destruct s as [|c s]; simpl; [lia|]. specialize (IH s). lia.
Qed.

(** The rows of a frame after a sequence of writes to row [i]. *)
Lemma written_row (cvs : list (string * Cell)) (df : DataFrame) (i j : nat)
  (row' : Row) :
  rows (fold_left (fun d cv => set_cell d i (fst cv) (snd cv)) cvs df) !! j =
  Some row' ->
  (j <> i /\ rows df !! j = Some row') \/
  (j = i /\ exists row : Row,
      rows df !! i = Some row /\
      row' = fold_left
               (fun (r : Row) (cv : string * Cell) => <[fst cv := snd cv]> r)
               cvs row).
Proof.
  rewrite write_fold_rows. destruct (decide (i = j)) as [->|Hij].
  - rewrite list_lookup_alter_eq.
    destruct (rows df !! j) as [row|]; simpl; [|discriminate].
    intros [= <-]. right. split; [reflexivity|]. now exists row.
  - rewrite list_lookup_alter_ne by assumption. intros Hrow. left.
    split; [congruence|assumption].
Qed.

Lemma status_of_lookup (df : DataFrame) (j : nat) (row : Row) :
  rows df !! j = Some row ->
  status_of df j = row !! "analysis_status"%string.
Proof. intros Hrow. unfold status_of, get_cell. now rewrite Hrow. Qed.

Lemma prospect_label (analysis : Analysis) :
  _generate_prospect_evaluation analysis ∈ prospect_labels /\
  (_generate_prospect_evaluation analysis = "NOT A PROSPECT"%string <->
   has_chatbot analysis = true).
Proof.
  unfold _generate_prospect_evaluation, prospect_labels.
  destruct (has_chatbot analysis); cbn [negb].
  - split; [|tauto]. apply list_elem_of_In. simpl. tauto.
  - destruct (_ || _); [destruct (truthy_list _)|];
      (split; [apply list_elem_of_In; simpl; tauto|]);
      split; discriminate.
Qed.

(** A completed crawl leaves a consistent row, whatever was there. *)
Lemma write_completed_consistent (df : DataFrame) (i : nat)
  (analysis : Analysis) (now : string) :
  frame_consistent df ->
  frame_consistent (write_completed df i analysis now).
Proof.
  intros Hdf j row' Hrow'. unfold write_completed in Hrow'.
  apply written_row in Hrow' as [[_ Hold]|[_ [row [_ ->]]]];
    [now apply (Hdf j)|].
  cbn [fold_left fst snd].
  match goal with
  | |- row_consistent ?X =>
      assert (Hs : X !! "analysis_status"%string = Some (CStr "COMPLETED"))
        by lookup_written;
      assert (Hc : X !! "has_chatbot"%string =
                   Some (yes_no (has_chatbot analysis)))
        by lookup_written;
      assert (Hp : X !! "prospect_evaluation"%string =
                   Some (CStr (_generate_prospect_evaluation analysis)))
        by lookup_written;
      generalize dependent X
  end.
  intros X Hs Hc Hp. unfold row_consistent. cbv zeta. rewrite Hs, Hc, Hp.
  destruct (prospect_label analysis) as [Hin Hiff].
  split; [|split; [|split; [|split]]]; try discriminate.
  - intros _. exists (has_chatbot analysis),
      (_generate_prospect_evaluation analysis).
    split; [reflexivity|]. split; [reflexivity|].
    split; [exact Hin|exact Hiff].
  - intros Hne. now contradiction Hne.
Qed.

(** A failed crawl leaves a consistent row when the row was not
    completed before. *)
Lemma write_failed_consistent (df : DataFrame) (i : nat) (msg now : string) :
  frame_consistent df ->
  status_of df i <> Some (CStr "COMPLETED") ->
  frame_consistent (write_failed df i msg now).
Proof.
  intros Hdf Hst j row' Hrow'. unfold write_failed in Hrow'.
  apply written_row in Hrow' as [[_ Hold]|[_ [row [Hrow ->]]]];
    [now apply (Hdf j)|].
  rewrite (status_of_lookup df i row Hrow) in Hst.
  destruct (Hdf i row Hrow) as [_ [Hprospect _]]. cbv zeta in Hprospect.
  specialize (Hprospect Hst).
  cbn [fold_left fst snd].
  match goal with
  | |- row_consistent ?X =>
      assert (Hs : X !! "analysis_status"%string = Some (CStr "FAILED"))
        by lookup_written;
      assert (Hc : X !! "has_chatbot"%string =
                   Some (CStr ("Error: " +:+ take 100 msg)))
        by lookup_written;
      assert (Hp : X !! "prospect_evaluation"%string =
                   row !! "prospect_evaluation"%string)
        by lookup_written;
      generalize dependent X
  end.
  intros X Hs Hc Hp. unfold row_consistent. cbv zeta.
  rewrite Hs, Hc, Hp, Hprospect.
  split; [|split; [|split; [|split]]]; try discriminate.
  - reflexivity.
  - intros _. exists (take 100 msg). split; [reflexivity|apply length_take].
Qed.

(** Marking a row invalid leaves a consistent row when the row was not
    completed before. *)
Lemma write_invalid_consistent (df : DataFrame) (i : nat) :
  frame_consistent df ->
  status_of df i <> Some (CStr "COMPLETED") ->
  frame_consistent (write_invalid df i).
Proof.
  intros Hdf Hst j row' Hrow'.
  change (write_invalid df i)
    with (fold_left (fun d cv => set_cell d i (fst cv) (snd cv))
            [("has_chatbot"%string, CStr "Invalid URL");
             ("analysis_status"%string, CStr "INVALID_URL")] df) in Hrow'.
  apply written_row in Hrow' as [[_ Hold]|[_ [row [Hrow ->]]]];
    [now apply (Hdf j)|].
  rewrite (status_of_lookup df i row Hrow) in Hst.
  destruct (Hdf i row Hrow) as [_ [Hprospect _]]. cbv zeta in Hprospect.
  specialize (Hprospect Hst).
  cbn [fold_left fst snd].
  match goal with
  | |- row_consistent ?X =>
      assert (Hs : X !! "analysis_status"%string = Some (CStr "INVALID_URL"))
        by lookup_written;
      assert (Hc : X !! "has_chatbot"%string = Some (CStr "Invalid URL"))
        by lookup_written;
      assert (Hp : X !! "prospect_evaluation"%string =
                   row !! "prospect_evaluation"%string)
        by lookup_written;
      generalize dependent X
  end.
  intros X Hs Hc Hp. unfold row_consistent. cbv zeta.
  rewrite Hs, Hc, Hp, Hprospect.
  split; [|split; [|split; [|split]]]; try discriminate; reflexivity.
Qed.

(** The rows of a frame after statuses were reset. *)
Lemma reset_status_row (indices : list nat) (df : DataFrame) (j : nat)
  (row' : Row) :
  rows (reset_status df indices) !! j = Some row' ->
  exists row : Row,
    rows df !! j = Some row /\
    (row' = row \/
     (j ∈ indices /\ row' = delete "analysis_status"%string row)).
Proof.
  unfold reset_status. revert df.
  induction indices as [|k indices IH]; intros df Hrow'.
  - exists row'. split; [exact Hrow'|now left].
  - cbn [fold_left] in Hrow'. apply IH in Hrow' as [row1 [Hrow1 Hcase]].
    cbn [clear_cell rows] in Hrow1.
    destruct (decide (k = j)) as [->|Hkj].
    + rewrite list_lookup_alter_eq in Hrow1.
      destruct (rows df !! j) as [row|]; simpl in Hrow1; [|discriminate].
      injection Hrow1 as <-. exists row. split; [reflexivity|]. right.
      split; [now left|].
      destruct Hcase as [->|[_ ->]]; [reflexivity|].
      apply delete_delete_eq.
    + rewrite list_lookup_alter_ne in Hrow1 by assumption.
      exists row1. split; [assumption|].
      destruct Hcase as [->|[Hin ->]]; [now left|right].
      split; [now right|reflexivity].
Qed.

(** A phase boundary keeps the frame consistent. *)
Lemma phase_reset_consistent (df : DataFrame) :
  frame_consistent df -> frame_consistent (phase_reset df).
Proof.
  intros Hdf j row' Hrow'. unfold phase_reset in Hrow'.
  apply reset_status_row in Hrow' as [row [Hrow [->|[Hin ->]]]];
    [now apply (Hdf j)|].
  apply rows_with_status_elem in Hin.
  change (get_cell df j "analysis_status") with (status_of df j) in Hin.
  rewrite (status_of_lookup df j row Hrow) in Hin.
  destruct (Hdf j row Hrow) as [_ [Hprospect [Hfailed _]]].
  cbv zeta in Hprospect, Hfailed.
  unfold row_consistent. cbv zeta.
  rewrite lookup_delete_eq, !lookup_delete_ne by discriminate.
  split; [|split; [|split; [|split]]]; try discriminate.
  - intros _. apply Hprospect. rewrite Hin. discriminate.
  - intros _. right. now apply Hfailed.
Qed.

Lemma run_task_consistent `{SetOrder} (self : Self) (site : Site)
  (df : DataFrame) (task : nat * string) :
  frame_consistent df ->
  status_of df (fst task) <> Some (CStr "COMPLETED") ->
  frame_consistent (run_task self site df task).
Proof.
  intros Hdf Hst. unfold run_task.
  destruct (analyze_website self site (snd task)).
  - now apply write_completed_consistent.
  - now apply write_failed_consistent.
Qed.

Lemma run_tasks_consistent `{SetOrder} (self : Self) (world : nat -> Site)
  (tasks : list (nat * string)) (df : DataFrame) :
  NoDup (List.map fst tasks) ->
  frame_consistent df ->
  (forall t, t ∈ tasks -> status_of df (fst t) <> Some (CStr "COMPLETED")) ->
  frame_consistent
    (fold_left (fun d t => run_task self (world (fst t)) d t) tasks df).
Proof.
  revert df. induction tasks as [|t tasks IH]; intros df Hnd Hdf Hst;
    [exact Hdf|].
  cbn [List.map] in Hnd. apply NoDup_cons in Hnd as [Hfresh Hnd].
  cbn [fold_left]. apply IH; [assumption| |].
  - apply run_task_consistent; [assumption|]. apply Hst. now left.
  - intros t' Hin.
    assert (Hne : fst t' <> fst t).
    { intros Heq. apply Hfresh. rewrite <- Heq.
      apply list_elem_of_fmap. now exists t'. }
    destruct t as [i u]. cbn [fst] in *.
    destruct (run_task_spec self (world i) df i u) as [_ [Hrow _]].
    cbv zeta in Hrow.
    rewrite (status_of_row df _ (fst t') (Hrow _ Hne)).
    apply Hst. now right.
Qed.

Lemma write_invalid_status (df : DataFrame) (i j : nat) :
  status_of df j <> Some (CStr "COMPLETED") ->
  status_of (write_invalid df i) j <> Some (CStr "COMPLETED").
Proof.
  intros Hst.
  destruct (write_invalid_spec df i) as [Wlen [Wrow [_ [_ Wst]]]].
  cbv zeta in Wlen, Wrow, Wst.
  destruct (decide (j = i)) as [->|Hne].
  - destruct (decide (i < length (rows df))) as [Hlt|Hge].
    + rewrite (Wst Hlt). discriminate.
    + unfold status_of, get_cell.
      rewrite (lookup_ge_None_2 (rows (write_invalid df i)) i)
        by (rewrite Wlen; lia).
      discriminate.
  - now rewrite (status_of_row df _ j (Wrow j Hne)).
Qed.

(** The loop that builds the task list keeps the frame consistent, and
    its tasks are rows of the batch, in batch order. *)
Lemma dispatch_consistent (uc : string) (batch : list nat) (d : DataFrame)
  (acc : list (nat * string)) :
  frame_consistent d ->
  (forall j, j ∈ batch -> status_of d j <> Some (CStr "COMPLETED")) ->
  let r := fold_left (dispatch_step uc) batch (d, acc) in
  frame_consistent (fst r) /\
  (forall j, status_of d j <> Some (CStr "COMPLETED") ->
             status_of (fst r) j <> Some (CStr "COMPLETED")) /\
  exists tasks, snd r = acc ++ tasks /\ sublist (List.map fst tasks) batch.
Proof.
  cbv zeta. revert d acc.
  induction batch as [|k rest IH]; intros d acc Hd Hst.
  - cbn [fold_left fst snd]. split; [exact Hd|]. split; [tauto|].
    exists []. split; [now rewrite app_nil_r|constructor].
  - cbn [fold_left].
    destruct (valid_url d uc k) as [u|] eqn:Hk.
    + assert (Hstep : dispatch_step uc (d, acc) k = (d, acc ++ [(k, u)]))
        by (unfold dispatch_step; cbn [fst snd]; now rewrite Hk).
      rewrite Hstep.
      assert (Hrest : forall j, j ∈ rest ->
                 status_of d j <> Some (CStr "COMPLETED"))
        by (intros j Hj; apply Hst; now right).
      destruct (IH d (acc ++ [(k, u)]) Hd Hrest)
        as [Hc [Hs [tasks [Ht Hsub]]]].
      split; [exact Hc|]. split; [exact Hs|].
      exists ((k, u) :: tasks). split.
      * rewrite Ht, <- app_assoc. reflexivity.
      * cbn [List.map fst]. now apply sublist_skip.
    + assert (Hstep : dispatch_step uc (d, acc) k = (write_invalid d k, acc))
        by (unfold dispatch_step; cbn [fst snd]; now rewrite Hk).
      rewrite Hstep.
      assert (Hd' : frame_consistent (write_invalid d k)).
      { apply write_invalid_consistent; [assumption|]. apply Hst. now left. }
      assert (Hrest : forall j, j ∈ rest ->
                 status_of (write_invalid d k) j <> Some (CStr "COMPLETED"))
        by (intros j Hj; apply write_invalid_status, Hst; now right).
      destruct (IH (write_invalid d k) acc Hd' Hrest)
        as [Hc [Hs [tasks [Ht Hsub]]]].
      split; [exact Hc|]. split.
      * intros j Hj. now apply Hs, write_invalid_status.
      * exists tasks. split; [exact Ht|]. now apply sublist_cons.
Qed.

(** A batch over rows that are not completed keeps the frame
    consistent. *)
Lemma process_batch_consistent `{SetOrder} (self : Self)
  (world : nat -> Site) (df : DataFrame) (batch : list nat) :
  frame_consistent df ->
  NoDup batch ->
  (forall j, j ∈ batch -> status_of df j <> Some (CStr "COMPLETED")) ->
  frame_consistent (fst (process_batch self world df batch)).
Proof.
  intros Hdf Hnd Hst. unfold process_batch.
  destruct (find_url_column df) as [uc|]; [|exact Hdf].
  unfold dispatch.
  destruct (dispatch_consistent uc batch df [] Hdf Hst)
    as [Hc [Hs [tasks [Ht Hsub]]]].
  cbv zeta in Hc, Hs, Ht.
  destruct (fold_left (dispatch_step uc) batch (df, [])) as [df1 tasks'].
  cbn [fst snd] in *. rewrite app_nil_l in Ht. subst tasks'.
  apply run_tasks_consistent; [|assumption|].
  - now apply (sublist_NoDup _ batch).
  - intros t Hin. apply Hs, Hst.
    apply (elem_of_submseteq (List.map fst tasks) batch (fst t));
      [|now apply sublist_submseteq].
    apply list_elem_of_fmap. now exists t.
Qed.

Lemma unprocessed_not_completed (df : DataFrame) (j : nat) :
  j ∈ unprocessed_rows df -> status_of df j <> Some (CStr "COMPLETED").
Proof.
  intros Hj. apply unprocessed_rows_elem in Hj as [_ Hnone].
  rewrite Hnone. discriminate.
Qed.

Lemma aggressive_loop_consistent `{SetOrder} (fuel : nat) (self : Self)
  (world : nat -> Site) (df : DataFrame) (unprocessed : list nat)
  (df' : DataFrame) (events : list Event) :
  frame_consistent df ->
  NoDup unprocessed ->
  (forall j, j ∈ unprocessed -> status_of df j <> Some (CStr "COMPLETED")) ->
  aggressive_loop fuel self world df unprocessed = Some (df', events) ->
  frame_consistent df'.
Proof.
  revert df unprocessed df' events.
  induction fuel as [|fuel IH]; intros df unprocessed df' events Hdf Hnd Hst.
  - destruct unprocessed; [|discriminate]. now intros [= <- _].
  - destruct unprocessed as [|h t]; [now intros [= <- _]|].
    cbn [aggressive_loop].
    set (size := batch_size (current_settings self)).
    pose proof (process_batch_consistent self world df
                  (firstn size (h :: t)) Hdf) as Hb.
    destruct (process_batch self world df (firstn size (h :: t)))
      as [df1 ev1].
    cbn [fst] in Hb.
    destruct (aggressive_loop fuel self world df1 (unprocessed_rows df1))
      as [[df2 later]|] eqn:Hloop; [|discriminate].
    rewrite bind_some. intros [= <- _].
    apply (IH df1 (unprocessed_rows df1) df2 later); try assumption.
    + apply Hb; [now apply NoDup_firstn|].
      intros j Hj. apply Hst. now apply take_subset in Hj.
    + apply NoDup_index_where.
    + intros j Hj. now apply unprocessed_not_completed.
Qed.

Lemma retry_loop_consistent `{SetOrder} (fuel : nat) (self : Self)
  (world : nat -> Site) (pool : list nat) (df : DataFrame)
  (unprocessed : list nat) (df' : DataFrame) (events : list Event) :
  frame_consistent df ->
  NoDup unprocessed ->
  (forall j, j ∈ unprocessed -> status_of df j <> Some (CStr "COMPLETED")) ->
  retry_loop fuel self world pool df unprocessed = Some (df', events) ->
  frame_consistent df'.
Proof.
  revert df unprocessed df' events.
  induction fuel as [|fuel IH]; intros df unprocessed df' events Hdf Hnd Hst.
  - destruct unprocessed; [|discriminate]. now intros [= <- _].
  - destruct unprocessed as [|h t]; [now intros [= <- _]|].
    cbn [retry_loop].
    set (size := batch_size (current_settings self)).
    pose proof (process_batch_consistent self world df
                  (firstn size (h :: t)) Hdf) as Hb.
    destruct (process_batch self world df (firstn size (h :: t)))
      as [df1 ev1].
    cbn [fst] in Hb.
    destruct (retry_loop fuel self world pool df1 (unprocessed_in pool df1))
      as [[df2 later]|] eqn:Hloop; [|discriminate].
    rewrite bind_some. intros [= <- _].
    apply (IH df1 (unprocessed_in pool df1) df2 later); try assumption.
    + apply Hb; [now apply NoDup_firstn|].
      intros j Hj. apply Hst. now apply take_subset in Hj.
    + apply NoDup_unprocessed_in.
    + intros j Hj. apply unprocessed_in_elem in Hj as [_ Hj].
      now apply unprocessed_not_completed.
Qed.

Lemma retry_phase_consistent `{SetOrder} (fuel : nat) (self : Self)
  (world : nat -> Site) (name : string) (settings : Settings)
  (df : DataFrame) (self' : Self) (df' : DataFrame) (events : list Event) :
  frame_consistent df ->
  retry_phase fuel self world name settings df = Some (self', df', events) ->
  frame_consistent df'.
Proof.
  intros Hdf. unfold retry_phase.
  destruct (truthy_list (retry_pool df)); [|now intros [= _ <- _]].
  destruct (retry_loop fuel (set_phase self name settings) world
              (retry_pool df) (phase_reset df) (retry_pool df))
    as [[df2 ev]|] eqn:Hloop; [|discriminate].
  rewrite bind_some. intros [= _ <- _].
  apply (retry_loop_consistent _ _ _ _ _ _ _ _
           (phase_reset_consistent df Hdf)) in Hloop; [assumption| |].
  - apply NoDup_index_where.
  - intros j Hj.
    destruct (reset_status_spec (retry_pool df) df) as [_ [Hget _]].
    unfold status_of, phase_reset. rewrite Hget.
    rewrite bool_decide_eq_true_2 by (now split). discriminate.
Qed.

(** A run keeps the frame consistent. *)
Lemma continuous_process_consistent `{SetOrder} (fuel : nat) (self : Self)
  (world : World) (input : DataFrame) (self' : Self) (df : DataFrame)
  (events : list Event) :
  frame_consistent input ->
  continuous_process fuel self world input = Some (self', df, events) ->
  frame_consistent df.
Proof.
  intros Hin. unfold continuous_process.
  assert (H0 : frame_consistent (init_columns input)).
  { intros j row. destruct (init_columns_spec input) as [-> _]. apply Hin. }
  generalize dependent (init_columns input). intros df0 H0.
  match goal with
  | |- context [aggressive_loop fuel ?s ?w df0 ?u] =>
      destruct (aggressive_loop fuel s w df0 u) as [[df1 ev1]|] eqn:H1;
        [|discriminate]
  end.
  rewrite bind_some.
  apply aggressive_loop_consistent in H1;
    [|assumption|apply NoDup_index_where|
     intros j Hj; now apply unprocessed_not_completed].
  match goal with
  | |- context [retry_phase fuel ?s ?w ?n ?st df1] =>
      destruct (retry_phase fuel s w n st df1) as [[[self2 df2] ev2]|] eqn:H2;
        [|discriminate]
  end.
  rewrite bind_some.
  apply retry_phase_consistent in H2; [|assumption].
  match goal with
  | |- context [retry_phase fuel ?s ?w ?n ?st df2] =>
      destruct (retry_phase fuel s w n st df2) as [[[self3 df3] ev3]|] eqn:H3;
        [|discriminate]
  end.
  rewrite bind_some. intros [= _ <- _].
  now apply retry_phase_consistent in H3.
Qed.

(** A row without status, flag and prospect label is consistent. *)
Lemma fresh_row_consistent (row : Row) :
  row !! "analysis_status"%string = None ->
  row !! "has_chatbot"%string = None ->
  row !! "prospect_evaluation"%string = None ->
  row_consistent row.
Proof.
  intros Hs Hc Hp. unfold row_consistent. cbv zeta. rewrite Hs, Hc, Hp.
  split; [|split; [|split; [|split]]]; try discriminate.
  - reflexivity.
  - intros _. now left.
Qed.

Lemma sample_frame_consistent : frame_consistent Fixtures.sample_frame.
Proof.
  intros j row Hrow. apply list_elem_of_lookup_2 in Hrow.
  apply list_elem_of_In in Hrow. simpl in Hrow.
  destruct Hrow as [<-|[<-|[<-|[]]]];
    apply fresh_row_consistent; reflexivity.
Qed.

(** X14. The result cells of every row go with its status when they did
    so in the input, as they do in a fresh table: a [COMPLETED] row has a
    [Yes] or [No] flag and one of the four prospect labels, which is [NOT
    A PROSPECT] exactly for [Yes]; a [FAILED] row has [Error: ] followed
    by at most a hundred characters of the message and no prospect label;
    an [INVALID_URL] row has the flag text [Invalid URL] and no label. *)
Theorem result_cells_go_with_status `{SetOrder}
  (ram_gb : nat) (world : World) (input : DataFrame) (url_column : string) :
  find_url_column input = Some url_column ->
  frame_consistent input ->
  exists self' df events,
    continuous_process (length (rows input)) (__init__ ram_gb) world input =
    Some (self', df, events) /\
    forall j,
      (status_of df j = Some (CStr "COMPLETED") ->
       exists (flag : bool) (label : string),
         get_cell df j "has_chatbot" = Some (yes_no flag) /\
         get_cell df j "prospect_evaluation" = Some (CStr label) /\
         label ∈ prospect_labels /\
         (label = "NOT A PROSPECT"%string <-> flag = true)) /\
      (status_of df j = Some (CStr "FAILED") ->
       error_cell (get_cell df j "has_chatbot") /\
       get_cell df j "prospect_evaluation" = None) /\
      (status_of df j = Some (CStr "INVALID_URL") ->
       get_cell df j "has_chatbot" = Some (CStr "Invalid URL") /\
       get_cell df j "prospect_evaluation" = None).
Proof.
  intros Hfind Hin.
  destruct (init_batch_sizes ram_gb) as [H1 [H2 H3]].
  destruct (continuous_process_spec (__init__ ram_gb) world input url_column
              Hfind H1 H2 H3) as [self' [df [events [Hrun _]]]].
  exists self', df, events. split; [exact Hrun|].
  pose proof (continuous_process_consistent _ _ _ _ _ _ _ Hin Hrun) as Hdf.
  intros j. unfold status_of, get_cell.
  destruct (rows df !! j) as [row|] eqn:Hrow; simpl;
    [|repeat split; discriminate].
  destruct (Hdf j row Hrow) as [Hc [Hp [Hf [Hi _]]]].
  cbv zeta in Hc, Hp, Hf, Hi.
  split; [exact Hc|]. split.
  - intros Hs. split; [now apply Hf|]. apply Hp. rewrite Hs. discriminate.
  - intros Hs. split; [now apply Hi|]. apply Hp. rewrite Hs. discriminate.
Qed.

Lemma result_cells_go_with_status_witness :
  exists self' df events,
    @continuous_process insertion_order
      (length (rows Fixtures.sample_frame)) (__init__ 48)
      Fixtures.sample_world Fixtures.sample_frame =
    Some (self', df, events) /\
    forall j,
      (status_of df j = Some (CStr "COMPLETED") ->
       exists (flag : bool) (label : string),
         get_cell df j "has_chatbot" = Some (yes_no flag) /\
         get_cell df j "prospect_evaluation" = Some (CStr label) /\
         label ∈ prospect_labels /\
         (label = "NOT A PROSPECT"%string <-> flag = true)) /\
      (status_of df j = Some (CStr "FAILED") ->
       error_cell (get_cell df j "has_chatbot") /\
       get_cell df j "prospect_evaluation" = None) /\
      (status_of df j = Some (CStr "INVALID_URL") ->
       get_cell df j "has_chatbot" = Some (CStr "Invalid URL") /\
       get_cell df j "prospect_evaluation" = None).
Proof.
  apply (@result_cells_go_with_status insertion_order 48
           Fixtures.sample_world Fixtures.sample_frame "website").
  - reflexivity.
  - exact sample_frame_consistent.
Defined.

Lemma filter_length_split {A} (f g h : A -> bool) (l : list A) :
  (forall x, x ∈ l -> f x = g x || h x) ->
  (forall x, x ∈ l -> g x && h x = false) ->
  length (List.filter f l) =
  length (List.filter g l) + length (List.filter h l).
Proof.
  induction l as [|x l IH]; intros Hor Hand; [reflexivity|].
  cbn [List.filter].
  assert (Hx : x ∈ x :: l) by now left.
  pose proof (Hor x Hx) as Hf. pose proof (Hand x Hx) as Hgh.
  assert (IH' : length (List.filter f l) =
                length (List.filter g l) + length (List.filter h l)).
  { apply IH; intros y Hy; [apply Hor|apply Hand]; now right. }
  rewrite Hf.
  destruct (g x), (h x); cbn [orb andb] in *; try discriminate;
    cbn [length]; lia.
Qed.

(** Counting by a mask that is the disjoint union of two others. *)
Lemma count_where_split (m m1 m2 : Row -> bool) (df : DataFrame) :
  (forall j row, rows df !! j = Some row ->
     m row = m1 row || m2 row /\ m1 row && m2 row = false) ->
  count_where m df = count_where m1 df + count_where m2 df.
Proof.
  intros Hrows. unfold count_where, index_where.
  apply filter_length_split; intros j _;
    (destruct (rows df !! j) as [row|] eqn:Hrow; [|reflexivity]);
    now destruct (Hrows j row Hrow).
Qed.

Lemma count_where_all (m : Row -> bool) (df : DataFrame) :
  (forall j row, rows df !! j = Some row -> m row = true) ->
  count_where m df = length (rows df).
Proof.
  intros Hall. unfold count_where, index_where.
  transitivity (length (seq 0 (length (rows df)))); [|apply length_seq].
  f_equal. apply forallb_filter_id. apply forallb_forall.
  intros j Hj. apply in_seq in Hj.
  destruct (lookup_lt_is_Some_2 (rows df) j) as [row Hrow]; [lia|].
  rewrite Hrow. now apply (Hall j).
Qed.

Lemma count_where_ext (m m' : Row -> bool) (df : DataFrame) :
  (forall j row, rows df !! j = Some row -> m row = m' row) ->
  count_where m df = count_where m' df.
Proof.
  intros Hext.
  rewrite (count_where_split m m' (fun _ => false) df).
  - assert (Hz : count_where (fun _ => false) df = 0).
    { unfold count_where. rewrite index_where_none; [reflexivity|].
      reflexivity. }
    rewrite Hz. lia.
  - intros j row Hrow. rewrite (Hext j row Hrow).
    now rewrite orb_false_r, andb_false_r.
Qed.

(** What the masks of [update_statistics] and of the final report give on
    a consistent row with a final status. *)
Lemma row_masks (row : Row) :
  row_consistent row ->
  status_terminal (row !! "analysis_status"%string) ->
  let status := row !! "analysis_status"%string in
  let chat := row !! "has_chatbot"%string in
  let prospect := row !! "prospect_evaluation"%string in
  let c := cell_is "COMPLETED" status in
  let f := cell_is "FAILED" status in
  let i := cell_is "INVALID_URL" status in
  negb (cell_isna chat) && negb (contains_error chat) = c || i /\
  contains_error chat = f /\
  c && i = false /\ (c || i) && f = false /\ (c || i) || f = true /\
  c = cell_is "Yes" chat || cell_is "No" chat /\
  cell_is "Yes" chat && cell_is "No" chat = false /\
  cell_is "Yes" chat = cell_is "NOT A PROSPECT" prospect /\
  cell_is "No" chat =
    cell_is "HIGH-VALUE PROSPECT" prospect ||
    (cell_is "GOOD PROSPECT" prospect || cell_is "MEDIUM PROSPECT" prospect) /\
  cell_is "HIGH-VALUE PROSPECT" prospect &&
    (cell_is "GOOD PROSPECT" prospect || cell_is "MEDIUM PROSPECT" prospect)
    = false /\
  cell_is "GOOD PROSPECT" prospect && cell_is "MEDIUM PROSPECT" prospect
    = false.
Proof.
  intros [Hc [Hp [Hf [Hi _]]]] Hterm. cbv zeta in *.
  destruct Hterm as [Hs|[Hs|Hs]].
  - destruct (Hc Hs) as [flag [label [Hchat [Hpros [Hin Hiff]]]]].
    rewrite Hs, Hchat, Hpros.
    apply list_elem_of_In in Hin. simpl in Hin.
    destruct flag.
    + assert (Hl : label = "NOT A PROSPECT"%string) by now apply Hiff.
      subst label. repeat split.
    + destruct Hin as [<-|[<-|[<-|[<-|[]]]]]; try (repeat split; fail).
      assert (false = true) by now apply Hiff. discriminate.
  - assert (Hne : row !! "analysis_status"%string <> Some (CStr "COMPLETED"))
      by (rewrite Hs; discriminate).
    destruct (Hf Hs) as [msg [Hchat _]].
    rewrite Hs, Hchat, (Hp Hne). repeat split.
  - assert (Hne : row !! "analysis_status"%string <> Some (CStr "COMPLETED"))
      by (rewrite Hs; discriminate).
    rewrite Hs, (Hi Hs), (Hp Hne). repeat split.
Qed.

(** The rows of the result of a run have a final status when those of the
    input had a known one. *)
Lemma final_rows `{SetOrder} (ram_gb : nat) (world : World)
  (input : DataFrame) (url_column : string) :
  find_url_column input = Some url_column ->
  frame_consistent input ->
  (forall j, j < length (rows input) -> status_known (status_of input j)) ->
  exists self' df events,
    continuous_process (length (rows input)) (__init__ ram_gb) world input =
    Some (self', df, events) /\
    length (rows df) = length (rows input) /\
    forall j row, rows df !! j = Some row ->
      row_consistent row /\
      status_terminal (row !! "analysis_status"%string).
Proof.
  intros Hfind Hin Hknown.
  destruct (init_batch_sizes ram_gb) as [H1 [H2 H3]].
  destruct (continuous_process_spec (__init__ ram_gb) world input url_column
              Hfind H1 H2 H3)
    as [self' [df [events [Hrun [Hlen [_ [_ [Hterm _]]]]]]]].
  exists self', df, events. split; [exact Hrun|]. split; [exact Hlen|].
  pose proof (continuous_process_consistent _ _ _ _ _ _ _ Hin Hrun) as Hdf.
  intros j row Hrow. split; [now apply (Hdf j)|].
  rewrite <- (status_of_lookup df j row Hrow).
  assert (Hj : j < length (rows input))
    by (rewrite <- Hlen; now apply lookup_lt_Some in Hrow).
  apply Hterm; [assumption|now apply Hknown].
Qed.

(** X15. The counters [update_statistics] computes at the end of a run
    over a consistent table: [failed] counts the [FAILED] rows, while
    [completed] counts the [COMPLETED] rows and the [INVALID_URL] rows
    together; the two add up to the number of rows, and the four prospect
    counters add up to the number of [COMPLETED] rows. *)
Theorem counters_add_up `{SetOrder}
  (ram_gb : nat) (world : World) (input : DataFrame) (url_column : string) :
  find_url_column input = Some url_column ->
  frame_consistent input ->
  (forall j, j < length (rows input) -> status_known (status_of input j)) ->
  exists self' df events,
    continuous_process (length (rows input)) (__init__ ram_gb) world input =
    Some (self', df, events) /\
    let stats := update_statistics df in
    failed stats = length (rows_with_status "FAILED" df) /\
    completed stats =
      length (rows_with_status "COMPLETED" df) +
      length (rows_with_status "INVALID_URL" df) /\
    completed stats + failed stats = length (rows input) /\
    high_value_prospects stats + good_prospects stats +
      medium_prospects stats + non_prospects stats =
    length (rows_with_status "COMPLETED" df).
Proof.
  intros Hfind Hin Hknown.
  destruct (final_rows ram_gb world input url_column Hfind Hin Hknown)
    as [self' [df [events [Hrun [Hlen Hrows]]]]].
  exists self', df, events. split; [exact Hrun|]. cbv zeta.
  assert (Hmasks : forall j row, rows df !! j = Some row -> _)
    by (intros j row Hrow; destruct (Hrows j row Hrow) as [Hc Ht];
        exact (row_masks row Hc Ht)).
  cbv zeta in Hmasks.
  unfold update_statistics.
  cbn [failed completed high_value_prospects good_prospects medium_prospects
       non_prospects].
  change (length (rows_with_status "FAILED" df))
    with (count_where
            (fun row => cell_is "FAILED" (row !! "analysis_status"%string)) df).
  change (length (rows_with_status "COMPLETED" df))
    with (count_where
            (fun row => cell_is "COMPLETED" (row !! "analysis_status"%string))
            df).
  change (length (rows_with_status "INVALID_URL" df))
    with (count_where
            (fun row => cell_is "INVALID_URL" (row !! "analysis_status"%string))
            df).
  set (cC := count_where
               (fun row => cell_is "COMPLETED" (row !! "analysis_status"%string))
               df).
  set (cF := count_where
               (fun row => cell_is "FAILED" (row !! "analysis_status"%string))
               df).
  set (cI := count_where
               (fun row =>
                  cell_is "INVALID_URL" (row !! "analysis_status"%string)) df).
  assert (Efailed :
    count_where (fun row => contains_error (row !! "has_chatbot"%string)) df
    = cF).
  { apply count_where_ext. intros j row Hrow.
    destruct (Hmasks j row Hrow)
      as (M1 & M2 & M3 & M4 & M5 & M6 & M7 & M8 & M9 & M10 & M11).
    exact M2. }
  assert (Ecompleted :
    count_where
      (fun row => negb (cell_isna (row !! "has_chatbot"%string)) &&
                  negb (contains_error (row !! "has_chatbot"%string))) df
    = cC + cI).
  { apply count_where_split. intros j row Hrow.
    destruct (Hmasks j row Hrow)
      as (M1 & M2 & M3 & M4 & M5 & M6 & M7 & M8 & M9 & M10 & M11).
    split; [exact M1|exact M3]. }
  assert (Etotal : cC + cI + cF = length (rows df)).
  { rewrite <- (count_where_all (fun _ => true) df) by reflexivity.
    rewrite <- Ecompleted. symmetry.
    rewrite (count_where_split (fun _ => true)
               (fun row => negb (cell_isna (row !! "has_chatbot"%string)) &&
                  negb (contains_error (row !! "has_chatbot"%string)))
               (fun row => cell_is "FAILED" (row !! "analysis_status"%string))
               df); [reflexivity|].
    intros j row Hrow.
    destruct (Hmasks j row Hrow)
      as (M1 & M2 & M3 & M4 & M5 & M6 & M7 & M8 & M9 & M10 & M11).
    rewrite M1. split; [now rewrite M5|exact M4]. }
  assert (Eprospects :
    cC =
    count_where
      (fun row => cell_is "NOT A PROSPECT"
                    (row !! "prospect_evaluation"%string)) df +
    (count_where
       (fun row => cell_is "HIGH-VALUE PROSPECT"
                     (row !! "prospect_evaluation"%string)) df +
     (count_where
        (fun row => cell_is "GOOD PROSPECT"
                      (row !! "prospect_evaluation"%string)) df +
      count_where
        (fun row => cell_is "MEDIUM PROSPECT"
                      (row !! "prospect_evaluation"%string)) df))).
  { unfold cC.
    rewrite (count_where_split _
               (fun row => cell_is "NOT A PROSPECT"
                             (row !! "prospect_evaluation"%string))
               (fun row =>
                  cell_is "HIGH-VALUE PROSPECT"
                    (row !! "prospect_evaluation"%string) ||
                  (cell_is "GOOD PROSPECT"
                     (row !! "prospect_evaluation"%string) ||
                   cell_is "MEDIUM PROSPECT"
                     (row !! "prospect_evaluation"%string))) df).
    - f_equal.
      rewrite (count_where_split _
                 (fun row => cell_is "HIGH-VALUE PROSPECT"
                               (row !! "prospect_evaluation"%string))
                 (fun row =>
                    cell_is "GOOD PROSPECT"
                      (row !! "prospect_evaluation"%string) ||
                    cell_is "MEDIUM PROSPECT"
                      (row !! "prospect_evaluation"%string)) df).
      + f_equal. apply count_where_split. intros j row Hrow.
        destruct (Hmasks j row Hrow)
          as (M1 & M2 & M3 & M4 & M5 & M6 & M7 & M8 & M9 & M10 & M11).
        split; [reflexivity|exact M11].
      + intros j row Hrow.
        destruct (Hmasks j row Hrow)
          as (M1 & M2 & M3 & M4 & M5 & M6 & M7 & M8 & M9 & M10 & M11).
        split; [reflexivity|exact M10].
    - intros j row Hrow.
      destruct (Hmasks j row Hrow)
        as (M1 & M2 & M3 & M4 & M5 & M6 & M7 & M8 & M9 & M10 & M11).
      rewrite <- M8, <- M9. split; [exact M6|exact M7]. }
  rewrite Efailed, Ecompleted. split; [reflexivity|]. split; [reflexivity|].
  split; [lia|]. lia.
Qed.

Lemma counters_add_up_witness :
  exists self' df events,
    @continuous_process insertion_order
      (length (rows Fixtures.sample_frame)) (__init__ 48)
      Fixtures.sample_world Fixtures.sample_frame =
    Some (self', df, events) /\
    let stats := update_statistics df in
    failed stats = length (rows_with_status "FAILED" df) /\
    completed stats =
      length (rows_with_status "COMPLETED" df) +
      length (rows_with_status "INVALID_URL" df) /\
    completed stats + failed stats = length (rows Fixtures.sample_frame) /\
    high_value_prospects stats + good_prospects stats +
      medium_prospects stats + non_prospects stats =
    length (rows_with_status "COMPLETED" df).
Proof.
  apply (@counters_add_up insertion_order 48 Fixtures.sample_world
           Fixtures.sample_frame "website").
  - reflexivity.
  - exact sample_frame_consistent.
  - intros j _. left.
    destruct j as [|[|[|j]]]; reflexivity.
Defined.

(** The counts of the final report over a frame whose rows are consistent
    and have a final status. *)
Lemma report_counts (df : DataFrame) :
  (forall j row, rows df !! j = Some row ->
     row_consistent row /\
     status_terminal (row !! "analysis_status"%string)) ->
  let count (col value : string) :=
    count_where (fun row => cell_is value (row !! col)) df in
  count "analysis_status" "COMPLETED" + count "analysis_status" "FAILED" +
    count "analysis_status" "INVALID_URL" = length (rows df) /\
  count "analysis_status" "COMPLETED" =
    count "has_chatbot" "Yes" + count "has_chatbot" "No" /\
  count "has_chatbot" "Yes" = count "prospect_evaluation" "NOT A PROSPECT" /\
  count "has_chatbot" "No" =
    count "prospect_evaluation" "HIGH-VALUE PROSPECT" +
    count "prospect_evaluation" "GOOD PROSPECT" +
    count "prospect_evaluation" "MEDIUM PROSPECT".
Proof.
  intros Hrows. cbv zeta.
  assert (Hmasks : forall j row, rows df !! j = Some row -> _)
    by (intros j row Hrow; destruct (Hrows j row Hrow) as [Hc Ht];
        exact (row_masks row Hc Ht)).
  cbv zeta in Hmasks.
  split; [|split; [|split]].
  - rewrite <- (count_where_all (fun _ => true) df) by reflexivity.
    symmetry.
    rewrite (count_where_split (fun _ => true)
               (fun row =>
                  cell_is "COMPLETED" (row !! "analysis_status"%string) ||
                  cell_is "INVALID_URL" (row !! "analysis_status"%string))
               (fun row => cell_is "FAILED" (row !! "analysis_status"%string))
               df).
    + rewrite (count_where_split
                 (fun row =>
                    cell_is "COMPLETED" (row !! "analysis_status"%string) ||
                    cell_is "INVALID_URL" (row !! "analysis_status"%string))
                 (fun row =>
                    cell_is "COMPLETED" (row !! "analysis_status"%string))
                 (fun row =>
                    cell_is "INVALID_URL" (row !! "analysis_status"%string))
                 df); [lia|].
      intros j row Hrow.
      destruct (Hmasks j row Hrow)
        as (M1 & M2 & M3 & M4 & M5 & M6 & M7 & M8 & M9 & M10 & M11).
      split; [reflexivity|exact M3].
    + intros j row Hrow.
      destruct (Hmasks j row Hrow)
        as (M1 & M2 & M3 & M4 & M5 & M6 & M7 & M8 & M9 & M10 & M11).
      split; [now rewrite M5|exact M4].
  - apply count_where_split. intros j row Hrow.
    destruct (Hmasks j row Hrow)
      as (M1 & M2 & M3 & M4 & M5 & M6 & M7 & M8 & M9 & M10 & M11).
    split; [exact M6|exact M7].
  - apply count_where_ext. intros j row Hrow.
    destruct (Hmasks j row Hrow)
      as (M1 & M2 & M3 & M4 & M5 & M6 & M7 & M8 & M9 & M10 & M11).
    exact M8.
  - rewrite (count_where_split
               (fun row => cell_is "No" (row !! "has_chatbot"%string))
               (fun row => cell_is "HIGH-VALUE PROSPECT"
                             (row !! "prospect_evaluation"%string))
               (fun row =>
                  cell_is "GOOD PROSPECT"
                    (row !! "prospect_evaluation"%string) ||
                  cell_is "MEDIUM PROSPECT"
                    (row !! "prospect_evaluation"%string)) df).
    + rewrite <- Nat.add_assoc. f_equal.
      apply count_where_split. intros j row Hrow.
      destruct (Hmasks j row Hrow)
        as (M1 & M2 & M3 & M4 & M5 & M6 & M7 & M8 & M9 & M10 & M11).
      split; [reflexivity|exact M11].
    + intros j row Hrow.
      destruct (Hmasks j row Hrow)
        as (M1 & M2 & M3 & M4 & M5 & M6 & M7 & M8 & M9 & M10 & M11).
      split; [exact M9|exact M10].
Qed.

(** X16. The final report after a run over a consistent table. When no
    row is [COMPLETED] the unguarded high-value rate divides by zero and
    the report raises. Otherwise its counts are coherent: the three status
    counts add up to the number of rows, the companies with and without a
    chatbot add up to the completed rows, the qualified prospects are the
    companies without a chatbot, and the non-prospects are those with
    one. *)
Theorem final_report_is_coherent `{SetOrder}
  (ram_gb : nat) (world : World) (input : DataFrame) (url_column : string) :
  find_url_column input = Some url_column ->
  frame_consistent input ->
  (forall j, j < length (rows input) -> status_known (status_of input j)) ->
  exists self' df events,
    continuous_process (length (rows input)) (__init__ ram_gb) world input =
    Some (self', df, events) /\
    (rows_with_status "COMPLETED" df = [] ->
     print_final_report df = Raise "division by zero") /\
    (forall r, print_final_report df = Ok r ->
       0 < total_completed r /\
       total_completed r + total_failed r + total_invalid r =
         length (rows input) /\
       companies_with_chatbots r + companies_without_chatbots r =
         total_completed r /\
       total_prospects r = companies_without_chatbots r /\
       non_prospects (update_statistics df) = companies_with_chatbots r).
Proof.
  intros Hfind Hin Hknown.
  destruct (final_rows ram_gb world input url_column Hfind Hin Hknown)
    as [self' [df [events [Hrun [Hlen Hrows]]]]].
  exists self', df, events. split; [exact Hrun|].
  destruct (report_counts df Hrows) as [Htotal [Hchat [Hyes Hno]]].
  cbv zeta in Htotal, Hchat, Hyes, Hno.
  unfold print_final_report, update_statistics.
  cbn [high_value_prospects good_prospects medium_prospects non_prospects].
  change (length (rows_with_status "COMPLETED" df))
    with (count_where
            (fun row => cell_is "COMPLETED" (row !! "analysis_status"%string))
            df).
  change (length (rows_with_status "FAILED" df))
    with (count_where
            (fun row => cell_is "FAILED" (row !! "analysis_status"%string)) df).
  change (length (rows_with_status "INVALID_URL" df))
    with (count_where
            (fun row => cell_is "INVALID_URL" (row !! "analysis_status"%string))
            df).
  split.
  - intros Hnil. unfold count_where.
    change (index_where
              (fun row => cell_is "COMPLETED"
                            (row !! "analysis_status"%string)) df)
      with (rows_with_status "COMPLETED" df).
    now rewrite Hnil.
  - destruct (count_where
                (fun row => cell_is "COMPLETED"
                              (row !! "analysis_status"%string)) df =? 0)
      eqn:Hzero; [discriminate|].
    apply Nat.eqb_neq in Hzero. intros r [= <-].
    cbn [total_completed total_failed total_invalid total_prospects
         companies_with_chatbots companies_without_chatbots].
    split; [lia|]. split; [lia|]. split; [lia|]. split; [lia|].
    now rewrite Hyes.
Qed.

Lemma final_report_is_coherent_witness :
  exists self' df events,
    @continuous_process insertion_order
      (length (rows Fixtures.sample_frame)) (__init__ 48)
      Fixtures.sample_world Fixtures.sample_frame =
    Some (self', df, events) /\
    (rows_with_status "COMPLETED" df = [] ->
     print_final_report df = Raise "division by zero") /\
    (forall r, print_final_report df = Ok r ->
       0 < total_completed r /\
       total_completed r + total_failed r + total_invalid r =
         length (rows Fixtures.sample_frame) /\
       companies_with_chatbots r + companies_without_chatbots r =
         total_completed r /\
       total_prospects r = companies_without_chatbots r /\
       non_prospects (update_statistics df) = companies_with_chatbots r).
Proof.
  apply (@final_report_is_coherent insertion_order 48 Fixtures.sample_world
           Fixtures.sample_frame "website").
  - reflexivity.
  - exact sample_frame_consistent.
  - intros j _. left.
    destruct j as [|[|[|j]]]; reflexivity.
Defined.

Lemma valid_url_out_of_range (df : DataFrame) (uc : string) (j : nat) :
  length (rows df) <= j -> valid_url df uc j = None.
Proof.
  intros Hj. unfold valid_url, get_cell.
  now rewrite (lookup_ge_None_2 (rows df) j Hj).
Qed.

(** X17. A fresh table in which no row has a usable URL is worked off
    without a single crawl: every row ends [INVALID_URL], and the final
    report then raises the division by zero. This includes the table
    without rows. *)
Theorem run_without_usable_url_ends_in_error `{SetOrder}
  (ram_gb : nat) (world : World) (input : DataFrame) (url_column : string) :
  find_url_column input = Some url_column ->
  (forall j, j < length (rows input) ->
             status_of input j = None /\ valid_url input url_column j = None) ->
  exists self' df events,
    continuous_process (length (rows input)) (__init__ ram_gb) world input =
    Some (self', df, events) /\
    (forall j, j < length (rows input) ->
               status_of df j = Some (CStr "INVALID_URL")) /\
    crawls events = [] /\
    print_final_report df = Raise "division by zero".
Proof.
  intros Hfind Hrows.
  destruct (init_batch_sizes ram_gb) as [H1 [H2 H3]].
  destruct (continuous_process_spec (__init__ ram_gb) world input url_column
              Hfind H1 H2 H3)
    as [self' [df [events
         [Hrun [Hlen [_ [_ [_ [Hinvalid [_ [_ [Hcrawl _]]]]]]]]]]]].
  exists self', df, events. split; [exact Hrun|].
  assert (Hall : forall j, j < length (rows input) ->
                           status_of df j = Some (CStr "INVALID_URL")).
  { intros j Hj. destruct (Hrows j Hj) as [Hs Hu]. now apply Hinvalid. }
  split; [exact Hall|]. split.
  - apply elem_of_nil_inv. intros [j u] Hin. apply Hcrawl in Hin.
    destruct (decide (j < length (rows input))) as [Hj|Hj].
    + destruct (Hrows j Hj) as [_ Hu]. congruence.
    + rewrite valid_url_out_of_range in Hin by lia. discriminate.
  - unfold print_final_report.
    assert (Hnone : rows_with_status "COMPLETED" df = []).
    { apply index_where_none. intros j row Hrow.
      assert (Hj : j < length (rows input))
        by (rewrite <- Hlen; now apply lookup_lt_Some in Hrow).
      rewrite <- (status_of_lookup df j row Hrow), (Hall j Hj).
      reflexivity. }
    now rewrite Hnone.
Qed.

Lemma run_without_usable_url_ends_in_error_witness :
  exists self' df events,
    @continuous_process insertion_order
      (length (rows Fixtures.no_site_frame)) (__init__ 48)
      Fixtures.sample_world Fixtures.no_site_frame =
    Some (self', df, events) /\
    (forall j, j < length (rows Fixtures.no_site_frame) ->
               status_of df j = Some (CStr "INVALID_URL")) /\
    crawls events = [] /\
    print_final_report df = Raise "division by zero".
Proof.
  apply (@run_without_usable_url_ends_in_error insertion_order 48
           Fixtures.sample_world Fixtures.no_site_frame "website").
  - reflexivity.
  - intros j Hj. destruct j as [|[|j]]; [split; reflexivity..|].
    simpl in Hj. lia.
Defined.

End ReportFacts.
